(** * DETR criterion and post-processor (models/detr.py): a shallow embedding

    The Python module [models/detr.py] defines the multi-task set criterion
    [SetCriterion] and the inference-time [PostProcess] of a 3D extension of
    DETR.  This file embeds both as Rocq functions and proves the properties
    of the natural-language specification about them.

    Modelling conventions.
    - A tensor is its shape, its contiguous (row-major) data and its
      [requires_grad] flag.  Floating-point entries are idealised as real
      numbers ([R]): rounding, infinities and NaN are not modelled, and a
      division by zero takes Rocq's value ([x / 0 = 0]).
    - Python exceptions are values of [exn]; a computation that may raise is
      in the monad [M], a reader over autograd's grad mode
      ([torch.is_grad_enabled()]), so that [torch.no_grad()] is the
      combinator [no_grad].
    - Dictionaries are [gmap string _]; integer (int64) and floating tensors
      that share a dictionary are told apart by [value].
    - Functions imported from modules that are not part of [models/detr.py]
      ([util.box_ops], [util.misc], [models.segmentation], the matcher and
      the distributed runtime) are fields of the record [imports]. *)

From Stdlib Require Import Reals Lra Lia ZArith List String Ascii.
From Stdlib Require Import DecimalString DecimalNat.
From stdpp Require Import base tactics option list gmap strings.

Local Open Scope string_scope.

(** ** Exceptions and the grad-mode reader *)

Inductive exn : Type :=
| AssertionError | KeyError | IndexError | RuntimeError
| TypeError | ValueError | StopIteration | AttributeError.

Inductive result (A : Type) : Type :=
| Ok (a : A)
| Raise (e : exn).
Arguments Ok {A} a.
Arguments Raise {A} e.

Definition is_ok {A} (r : result A) : Prop :=
  match r with Ok _ => True | Raise _ => False end.

Definition fails {A} (r : result A) : Prop :=
  match r with Ok _ => False | Raise _ => True end.

(** [M A]: a computation that reads the ambient grad mode and returns an [A]
    or raises. *)
Definition M (A : Type) : Type := bool -> result A.

Definition ret {A} (a : A) : M A := fun _ => Ok a.
Definition raise {A} (e : exn) : M A := fun _ => Raise e.
Definition bind {A B} (m : M A) (k : A -> M B) : M B :=
  fun g => match m g with Ok a => k a g | Raise e => Raise e end.
Definition is_grad_enabled : M bool := fun g => Ok g.
(** [with torch.no_grad(): m], and the decorator [@torch.no_grad()]. *)
Definition no_grad {A} (m : M A) : M A := fun _ => m false.

Notation "'do' x <- m ; k" := (bind m (fun x => k))
  (at level 10, x name, m at level 100, k at level 200,
   format "'[v' 'do'  x  <-  m ; '/' k ']'").
Notation "'do' ' p <- m ; k" := (bind m (fun x => match x with p => k end))
  (at level 10, p pattern, m at level 100, k at level 200).
Notation "'do_' m ; k" := (bind m (fun _ => k))
  (at level 10, m at level 100, k at level 200).

(** [assert b] *)
Definition assert (b : bool) : M unit :=
  if b then ret tt else raise AssertionError.

Fixpoint mapM {A B} (f : A -> M B) (l : list A) : M (list B) :=
  match l with
  | [] => ret []
  | x :: l' => do y <- f x; do ys <- mapM f l'; ret (y :: ys)
  end.

(** A [for] loop that threads an accumulator. *)
Fixpoint foldM {A S} (f : S -> A -> M S) (s : S) (l : list A) : M S :=
  match l with
  | [] => ret s
  | x :: l' => do s' <- f s x; foldM f s' l'
  end.

(** [enumerate(l)] *)
Definition enumerate {A} (l : list A) : list (nat * A) :=
  zip (seq 0 (length l)) l.

(** ** Tensors *)

Record tensor (A : Type) : Type := Tensor {
  shape : list nat;
  data : list A;
  requires_grad : bool
}.
Arguments Tensor {A} shape data requires_grad.
Arguments shape {A} t.
Arguments data {A} t.
Arguments requires_grad {A} t.

(** Values of a target dictionary: floating or int64 tensors. *)
Inductive value : Type :=
| VFloat (t : tensor R)
| VLong (t : tensor Z).

(** Index pairs returned by the matcher, one pair of int64 tensors per
    image. *)
Definition index_pairs : Type := list (tensor Z * tensor Z).

Definition sum_R (l : list R) : R := foldr Rplus 0%R l.
Definition sum_Z (l : list Z) : Z := foldr Z.add 0%Z l.

Module torch.

Definition numel (s : list nat) : nat := foldr Nat.mul 1%nat s.

(** [n] consecutive rows of [k] entries. *)
Fixpoint chunks {A} (k n : nat) (l : list A) : list (list A) :=
  match n with
  | O => []
  | S n' => take k l :: chunks k n' (drop k l)
  end.

(** The [i]-th block of [k] entries. *)
Definition row {A} (k i : nat) (l : list A) : list A :=
  take k (drop (i * k) l).

(** A well-formed tensor holds as many entries as its shape says. *)
Definition wf {A} (t : tensor A) : Prop :=
  length (data t) = numel (shape t).

(** A scalar (0-d) tensor. *)
Definition scalar_tensor {A} (x : A) (rg : bool) : tensor A :=
  Tensor [] [x] rg.

(** The tensor an operation returns tracks gradients when grad mode is on
    and one of its inputs does. *)
Definition mk {A} (s : list nat) (d : list A) (rg : bool) : M (tensor A) :=
  fun g => Ok (Tensor s d (g && rg)).

(** Index normalisation: a negative index counts from the end; an index
    outside [-n, n) raises. *)
Definition wrap_index (n : nat) (i : Z) : M nat :=
  if decide (0 <= i < Z.of_nat n)%Z then ret (Z.to_nat i)
  else if decide (- Z.of_nat n <= i < 0)%Z then ret (Z.to_nat (i + Z.of_nat n))
  else raise IndexError.

(** *** Broadcasting *)

Fixpoint broadcast_rev (r1 r2 : list nat) : M (list nat) :=
  match r1, r2 with
  | [], r => ret r
  | r, [] => ret r
  | a :: r1', b :: r2' =>
      do rest <- broadcast_rev r1' r2';
      if decide (a = b) then ret (a :: rest)
      else if decide (a = 1%nat) then ret (b :: rest)
      else if decide (b = 1%nat) then ret (a :: rest)
      else raise RuntimeError
  end.

(** [torch.broadcast_shapes]: shapes are aligned at the right. *)
Definition broadcast_shapes (s1 s2 : list nat) : M (list nat) :=
  do r <- broadcast_rev (rev s1) (rev s2); ret (rev r).

(** Expansion of the data of shape [s_in] to [s_out], of the same rank;
    a dimension of size 1 is repeated. *)
Fixpoint expand_data {A} (s_in s_out : list nat) (d : list A) : list A :=
  match s_in, s_out with
  | a :: s_in', b :: s_out' =>
      let rows := map (expand_data s_in' s_out') (chunks (numel s_in') a d) in
      if decide (a = b) then concat rows
      else concat (concat (replicate b rows))
  | _, _ => d
  end.

(** The shape padded with leading 1s to the rank of [s_out]. *)
Definition pad_shape (s s_out : list nat) : list nat :=
  replicate (length s_out - length s) 1%nat ++ s.

Definition expand_to {A} (s_out : list nat) (t : tensor A) : list A :=
  expand_data (pad_shape (shape t) s_out) s_out (data t).

(** An element-wise binary operation on floating tensors. *)
Definition binop (f : R -> R -> R) (a b : tensor R) : M (tensor R) :=
  if decide (shape a = shape b) then
    mk (shape a) (zip_with f (data a) (data b))
       (requires_grad a || requires_grad b)
  else
    do s <- broadcast_shapes (shape a) (shape b);
    mk s (zip_with f (expand_to s a) (expand_to s b))
       (requires_grad a || requires_grad b).

Definition sub := binop Rminus.
Definition add := binop Rplus.
Definition mul := binop Rmult.

(** The quotient is that of the real numbers: it describes the code where
    no divisor is zero; there the code yields [inf] or [nan], which are no
    real numbers. *)
Definition div := binop Rdiv.

(** An in-place binary operation [a op= b]: the result keeps the shape
    of [a], to which [b] must broadcast. *)
Definition binop_ (f : R -> R -> R) (a b : tensor R) : M (tensor R) :=
  if decide (shape a = shape b) then
    fun g => Ok (Tensor (shape a) (zip_with f (data a) (data b))
                   (requires_grad a || (g && requires_grad b)))
  else
    do s <- broadcast_shapes (shape a) (shape b);
    if decide (s = shape a) then
      fun g => Ok (Tensor (shape a) (zip_with f (data a) (expand_to s b))
                     (requires_grad a || (g && requires_grad b)))
    else raise RuntimeError.

(** [a /= b], with the quotient of the real numbers, as for [div]. *)
Definition div_ := binop_ Rdiv.
Definition mul_ := binop_ Rmult.

Definition unop (f : R -> R) (a : tensor R) : M (tensor R) :=
  mk (shape a) (map f (data a)) (requires_grad a).

Definition abs := unop Rabs.

(** [t / c], [c - t], for a Python number [c]. *)
Definition div_scalar (a : tensor R) (c : R) : M (tensor R) :=
  unop (fun x => x / c)%R a.
Definition rsub_scalar (c : R) (a : tensor R) : M (tensor R) :=
  unop (fun x => c - x)%R a.

(** [t.sum()] and [t.mean()] *)
Definition sum (a : tensor R) : M (tensor R) :=
  mk [] [sum_R (data a)] (requires_grad a).
Definition mean (a : tensor R) : M (tensor R) :=
  mk [] [(sum_R (data a) / INR (length (data a)))%R] (requires_grad a).

(** [t.detach()], [t.clone()] *)
Definition detach {A} (a : tensor A) : M (tensor A) :=
  ret (Tensor (shape a) (data a) false).
Definition clone {A} (a : tensor A) : M (tensor A) :=
  mk (shape a) (data a) (requires_grad a).

(** [t.squeeze()]: every dimension of size 1 is removed. *)
Definition squeeze {A} (a : tensor A) : M (tensor A) :=
  mk (filter (fun n => n <> 1%nat) (shape a)) (data a) (requires_grad a).

(** [torch.zeros_like(t)] *)
Definition zeros_like (a : tensor R) : M (tensor R) :=
  ret (Tensor (shape a) (replicate (length (data a)) 0%R) false).

(** [torch.full_like(t, v)] and [torch.full(size, v, dtype=torch.int64)] *)
Definition full_like (a : tensor Z) (v : Z) : M (tensor Z) :=
  ret (Tensor (shape a) (replicate (length (data a)) v) false).
Definition full (s : list nat) (v : Z) : M (tensor Z) :=
  ret (Tensor s (replicate (numel s) v) false).

(** [torch.arange(n)] *)
Definition arange (n : nat) : M (tensor Z) :=
  ret (Tensor [n] (map Z.of_nat (seq 0 n)) false).

(** [t.size()[0]], [len(t)] *)
Definition size0 {A} (a : tensor A) : M nat :=
  match shape a with
  | [] => raise IndexError
  | n :: _ => ret n
  end.
Definition len {A} (a : tensor A) : M nat :=
  match shape a with
  | [] => raise TypeError
  | n :: _ => ret n
  end.

(** *** Indexing with int64 tensors *)

(** [x.int()], [x.long()] on a float: truncation towards zero. *)
Definition trunc (x : R) : Z :=
  if Rle_dec 0 x then Int_part x else (- Int_part (- x))%Z.

(** The broadcast shape of two index tensors and their paired entries. *)
Definition index_grid (a b : tensor Z) : M (list nat * list (Z * Z)) :=
  if decide (shape a = shape b) then ret (shape a, zip (data a) (data b))
  else
    do s <- broadcast_shapes (shape a) (shape b);
    ret (s, zip (expand_to s a) (expand_to s b)).

(** The offsets, in blocks, that the index pairs [ij] select in a tensor
    whose two leading dimensions are [n0] and [n1]. *)
Definition offsets (n0 n1 : nat) (ij : list (Z * Z)) : M (list nat) :=
  mapM (fun '(i, j) =>
          do i' <- wrap_index n0 i;
          do j' <- wrap_index n1 j;
          ret (i' * n1 + j')%nat) ij.

(** [t[J]]: rows of [t] along its first dimension. *)
Definition index0 {A} (t : tensor A) (J : tensor Z) : M (tensor A) :=
  match shape t with
  | [] => raise IndexError
  | n :: s =>
      do ks <- mapM (wrap_index n) (data J);
      mk (shape J ++ s)
         (concat (map (fun i => row (numel s) i (data t)) ks))
         (requires_grad t)
  end.

(** [t[idx]] for a pair [idx = (I, J)] of index tensors. *)
Definition index2 {A} (t : tensor A) (idx : tensor Z * tensor Z)
  : M (tensor A) :=
  match shape t with
  | n0 :: n1 :: s =>
      do '(si, ij) <- index_grid idx.1 idx.2;
      do os <- offsets n0 n1 ij;
      mk (si ++ s)
         (concat (map (fun o => row (numel s) o (data t)) os))
         (requires_grad t)
  | _ => raise IndexError
  end.

(** The block of [k] entries at block offset [o] is overwritten. *)
Definition write_block {A} (k o : nat) (blk d : list A) : list A :=
  take (o * k) d ++ blk ++ drop (o * k + k) d.

(** The data of [v] as assigned to a selection of shape [s]. *)
Definition assigned {A} (s : list nat) (v : tensor A) : M (list A) :=
  if decide (shape v = s) then ret (data v)
  else
    do s' <- broadcast_shapes (shape v) s;
    if decide (s' = s) then ret (expand_to s v) else raise RuntimeError.

(** [t[idx] = v]: the writes happen in index order, so that the last
    write to an entry wins. *)
Definition index_put2 {A} (t : tensor A) (idx : tensor Z * tensor Z)
    (v : tensor A) : M (tensor A) :=
  match shape t with
  | n0 :: n1 :: s =>
      do '(si, ij) <- index_grid idx.1 idx.2;
      do os <- offsets n0 n1 ij;
      do vs <- assigned (si ++ s) v;
      ret (Tensor (shape t)
             (foldl (fun d ob => write_block (numel s) ob.1 ob.2 d) (data t)
                (zip os (chunks (numel s) (length os) vs)))
             (requires_grad t))
  | _ => raise IndexError
  end.

(** [t[idx] = c] for a Python number [c]. *)
Definition index_fill2 {A} (t : tensor A) (idx : tensor Z * tensor Z)
    (c : A) : M (tensor A) :=
  match shape t with
  | n0 :: n1 :: s =>
      do '(si, ij) <- index_grid idx.1 idx.2;
      do os <- offsets n0 n1 ij;
      ret (Tensor (shape t)
             (foldl (fun d o => write_block (numel s) o
                                  (replicate (numel s) c) d) (data t) os)
             (requires_grad t))
  | _ => raise IndexError
  end.

(** [torch.cat(ts)] along dimension 0.  An empty list is refused with
    [ValueError]; one-dimensional empty tensors are skipped; the others must
    agree on their trailing dimensions. *)
Definition cat {A} (ts : list (tensor A)) : M (tensor A) :=
  match ts with
  | [] => raise ValueError
  | _ =>
      match filter (fun t => shape t <> [0%nat]) ts with
      | [] => mk [0%nat] [] (existsb requires_grad ts)
      | t :: ts' =>
          match shape t with
          | [] => raise RuntimeError
          | n :: s =>
              if forallb (fun t' => bool_decide (shape t' <> []
                                                 /\ tail (shape t') = s)) ts'
              then mk (foldr Nat.add 0%nat
                         (map (fun t' => hd 0%nat (shape t')) (t :: ts')) :: s)
                      (concat (map data (t :: ts')))
                      (existsb requires_grad ts)
              else raise RuntimeError
          end
      end
  end.

(** *** Values: dtype dispatch and promotion *)

Definition to_float (v : value) : tensor R :=
  match v with
  | VFloat t => t
  | VLong t => Tensor (shape t) (map IZR (data t)) false
  end.

Definition is_long (v : value) : bool :=
  match v with VLong _ => true | VFloat _ => false end.

Definition long_part (v : value) : list (tensor Z) :=
  match v with VLong t => [t] | VFloat _ => [] end.

(** [x.long()] *)
Definition long (v : value) : tensor Z :=
  match v with
  | VLong t => t
  | VFloat t => Tensor (shape t) (map trunc (data t)) false
  end.

Definition v_shape (v : value) : list nat :=
  match v with VFloat t => shape t | VLong t => shape t end.

Definition v_index0 (v : value) (J : tensor Z) : M value :=
  match v with
  | VFloat t => do r <- index0 t J; ret (VFloat r)
  | VLong t => do r <- index0 t J; ret (VLong r)
  end.

(** [torch.cat] promotes to floating point unless every tensor is
    int64. *)
Definition v_cat (vs : list value) : M value :=
  if forallb is_long vs
  then do r <- cat (concat (map long_part vs)); ret (VLong r)
  else do r <- cat (map to_float vs); ret (VFloat r).

(** *** Shape manipulation *)

(** [t.transpose(1, 2)] *)
Definition transpose12 {A} (t : tensor A) : M (tensor A) :=
  match shape t with
  | n0 :: n1 :: n2 :: s =>
      let k := numel s in
      mk (n0 :: n2 :: n1 :: s)
         (flat_map (fun blk =>
            flat_map (fun j =>
              flat_map (fun r => row k j r) (chunks (n2 * k) n1 blk))
              (seq 0 n2))
            (chunks (n1 * n2 * k) n0 (data t)))
         (requires_grad t)
  | _ => raise IndexError
  end.

(** [t.view(-1, c)] for [c > 0] *)
Definition view_rows {A} (c : nat) (t : tensor A) : M (tensor A) :=
  if decide (c <> 0%nat /\ (length (data t) mod c = 0)%nat)
  then mk [(length (data t) / c)%nat; c] (data t) (requires_grad t)
  else raise RuntimeError.

(** [t.view(-1)] *)
Definition view_flat {A} (t : tensor A) : M (tensor A) :=
  mk [length (data t)] (data t) (requires_grad t).

(** [t.view(s)] *)
Definition view {A} (s : list nat) (t : tensor A) : M (tensor A) :=
  if decide (numel s = length (data t))
  then mk s (data t) (requires_grad t)
  else raise RuntimeError.

(** [t.flatten(1)] *)
Definition flatten1 {A} (t : tensor A) : M (tensor A) :=
  match shape t with
  | n0 :: n1 :: s => mk [n0; numel (n1 :: s)] (data t) (requires_grad t)
  | _ => raise IndexError
  end.

(** [t[:, None]] *)
Definition unsqueeze1 {A} (t : tensor A) : M (tensor A) :=
  match shape t with
  | n0 :: s => mk (n0 :: 1%nat :: s) (data t) (requires_grad t)
  | [] => raise IndexError
  end.

(** [t[:, None, :]] *)
Definition unsqueeze1_of2 {A} (t : tensor A) : M (tensor A) :=
  match shape t with
  | n0 :: n1 :: s => mk (n0 :: 1%nat :: n1 :: s) (data t) (requires_grad t)
  | _ => raise IndexError
  end.

(** [t[:, a:b]] with [0 <= a <= b] *)
Definition slice1 {A} (a b : nat) (t : tensor A) : M (tensor A) :=
  match shape t with
  | n0 :: n1 :: s =>
      let k := numel s in
      let a' := Nat.min a n1 in
      let b' := Nat.max a' (Nat.min b n1) in
      mk (n0 :: (b' - a')%nat :: s)
         (flat_map (fun blk => take ((b' - a') * k) (drop (a' * k) blk))
            (chunks (n1 * k) n0 (data t)))
         (requires_grad t)
  | _ => raise IndexError
  end.

(** [t[:, 0]] *)
Definition select1_0 {A} (t : tensor A) : M (tensor A) :=
  match shape t with
  | n0 :: n1 :: s =>
      if decide (n1 = 0%nat) then raise IndexError
      else mk (n0 :: s)
             (flat_map (fun blk => row (numel s) 0 blk)
                (chunks (n1 * numel s) n0 (data t)))
             (requires_grad t)
  | _ => raise IndexError
  end.

(** [t.unbind(1)] *)
Definition unbind1 {A} (t : tensor A) : M (list (tensor A)) :=
  match shape t with
  | n0 :: n1 :: s =>
      mapM (fun j =>
              mk (n0 :: s)
                (flat_map (fun blk => row (numel s) j blk)
                   (chunks (n1 * numel s) n0 (data t)))
                (requires_grad t))
           (seq 0 n1)
  | _ => raise IndexError
  end.

(** Iteration over a tensor ([for x in t], [zip(t, ...)]): its slices
    along dimension 0. *)
Definition iter {A} (t : tensor A) : M (list (tensor A)) :=
  match shape t with
  | n0 :: s =>
      mapM (fun i => mk s (row (numel s) i (data t)) (requires_grad t))
           (seq 0 n0)
  | [] => raise TypeError
  end.

(** [torch.stack(ts, dim=1)] *)
Definition stack1 {A} (ts : list (tensor A)) : M (tensor A) :=
  match ts with
  | [] => raise RuntimeError
  | t :: ts' =>
      match shape t with
      | [] => raise IndexError
      | n0 :: s =>
          if forallb (fun t' => bool_decide (shape t' = shape t)) ts'
          then mk (n0 :: length ts :: s)
                  (flat_map (fun i =>
                     flat_map (fun t' => row (numel s) i (data t')) ts)
                     (seq 0 n0))
                  (existsb requires_grad ts)
          else raise RuntimeError
      end
  end.

(** [torch.diag(t)]: the diagonal of a matrix, or the diagonal matrix
    of a vector. *)
Definition diag (t : tensor R) : M (tensor R) :=
  match shape t with
  | [n] =>
      mk [n; n]
         (flat_map (fun i =>
            map (fun j => if decide (i = j) then nth i (data t) 0%R else 0%R)
                (seq 0 n)) (seq 0 n))
         (requires_grad t)
  | [n; m] =>
      mk [Nat.min n m]
         (flat_map (fun i => row 1 (i * m + i) (data t)) (seq 0 (Nat.min n m)))
         (requires_grad t)
  | _ => raise RuntimeError
  end.

(** *** Reductions along the last dimension *)

(** The last dimension, and the number of rows before it. *)
Definition last_dim (s : list nat) : M nat :=
  match last s with
  | None => raise IndexError
  | Some c => ret c
  end.

Fixpoint max_row (x : R) (xs : list R) : R :=
  match xs with
  | [] => x
  | y :: ys => Rmax x (max_row y ys)
  end.

(** The index of the first maximal entry of [x :: xs]. *)
Fixpoint argmax_row (x : R) (xs : list R) : nat :=
  match xs with
  | [] => 0%nat
  | y :: ys => if Rle_dec (max_row y ys) x then 0%nat
               else S (argmax_row y ys)
  end.

Definition row_max (r : list R) : R :=
  match r with [] => 0%R | x :: xs => max_row x xs end.
Definition row_argmax (r : list R) : Z :=
  match r with [] => 0%Z | x :: xs => Z.of_nat (argmax_row x xs) end.

(** [t.argmax(-1)] *)
Definition argmax_last (t : tensor R) : M (tensor Z) :=
  do c <- last_dim (shape t);
  if decide (c = 0%nat) then raise IndexError
  else
    let pre := removelast (shape t) in
    ret (Tensor pre (map row_argmax (chunks c (numel pre) (data t))) false).

(** [t.max(-1)]: the maxima and their indices. *)
Definition max_last (t : tensor R) : M (tensor R * tensor Z) :=
  do c <- last_dim (shape t);
  if decide (c = 0%nat) then raise IndexError
  else
    let pre := removelast (shape t) in
    let rows := chunks c (numel pre) (data t) in
    do values <- mk pre (map row_max rows) (requires_grad t);
    ret (values, Tensor pre (map row_argmax rows) false).

(** [t[..., :-1]] *)
Definition drop_last_class {A} (t : tensor A) : M (tensor A) :=
  do c <- last_dim (shape t);
  let pre := removelast (shape t) in
  mk (pre ++ [(c - 1)%nat])
     (flat_map (fun r => take (c - 1) r) (chunks c (numel pre) (data t)))
     (requires_grad t).

(** [t != c] and [b.sum(1)] on the resulting boolean tensor. *)
Definition ne_scalar (t : tensor Z) (c : Z) : M (tensor bool) :=
  ret (Tensor (shape t) (map (fun x => bool_decide (x <> c)) (data t)) false).

Definition count_true (l : list bool) : Z :=
  Z.of_nat (length (filter (fun b => b = true) l)).

Definition sum_bool_dim1 (t : tensor bool) : M (tensor Z) :=
  match shape t with
  | n0 :: n1 :: s =>
      let k := numel s in
      ret (Tensor (n0 :: s)
             (flat_map (fun blk =>
                map (fun pos =>
                       count_true
                         (flat_map (fun r => row 1 pos r) (chunks k n1 blk)))
                    (seq 0 k))
                (chunks (n1 * k) n0 (data t)))
             false)
  | _ => raise IndexError
  end.

(** [t.sum(1)] on a floating tensor. *)
Definition sum_dim1 (t : tensor R) : M (tensor R) :=
  match shape t with
  | n0 :: n1 :: s =>
      let k := numel s in
      mk (n0 :: s)
         (flat_map (fun blk =>
            map (fun pos =>
                   sum_R (flat_map (fun r => row 1 pos r) (chunks k n1 blk)))
                (seq 0 k))
            (chunks (n1 * k) n0 (data t)))
         (requires_grad t)
  | _ => raise IndexError
  end.

(** [t.float()] on an int64 tensor. *)
Definition float (t : tensor Z) : M (tensor R) :=
  ret (Tensor (shape t) (map IZR (data t)) false).

(** [torch.as_tensor(l)] for a list of Python integers. *)
Definition as_tensor (l : list Z) : M (tensor Z) :=
  ret (Tensor [length l] l false).

End torch.

(** [torch.nn.functional] *)
Module F.

(** [F.l1_loss(a, b, reduction='none')]: the operands are broadcast. *)
Definition l1_loss_none (a b : tensor R) : M (tensor R) :=
  do d <- torch.sub a b; torch.abs d.

(** [F.l1_loss(a, b)], with the default reduction ['mean']. *)
Definition l1_loss (a b : tensor R) : M (tensor R) :=
  do l <- l1_loss_none a b; torch.mean l.

(** [F.mse_loss(a, b)] *)
Definition mse_loss (a b : tensor R) : M (tensor R) :=
  do d <- torch.sub a b;
  do sq <- torch.mul d d;
  torch.mean sq.

Definition softmax_row (xs : list R) : list R :=
  let z := sum_R (map exp xs) in map (fun x => exp x / z)%R xs.

Definition log_softmax_row (xs : list R) : list R :=
  let z := ln (sum_R (map exp xs)) in map (fun x => x - z)%R xs.

(** [F.softmax(t, -1)] *)
Definition softmax_last (t : tensor R) : M (tensor R) :=
  let c := default 1%nat (last (shape t)) in
  let pre := removelast (shape t) in
  torch.mk (shape t)
    (flat_map softmax_row (torch.chunks c (torch.numel pre) (data t)))
    (requires_grad t).

(** The class vectors of data laid out as [n, c, k]: for every sample
    and every trailing position, the [c] entries along dimension 1. *)
Definition class_vectors {A} (n c k : nat) (d : list A) : list (list A) :=
  flat_map (fun blk =>
    map (fun pos =>
           flat_map (fun ci => torch.row 1 (ci * k + pos) blk) (seq 0 c))
        (seq 0 k))
    (torch.chunks (c * k) n d).

(** The weighted negative log-likelihood of class [y] and its weight;
    a target equal to [ignore_index = -100] counts for nothing. *)
Definition nll (w : list R) (c : nat) (xs : list R) (y : Z) : M (R * R) :=
  if decide (y = (-100)%Z) then ret (0%R, 0%R)
  else if decide (0 <= y < Z.of_nat c)%Z then
    let wy := nth (Z.to_nat y) w 0%R in
    ret ((wy * - nth (Z.to_nat y) (log_softmax_row xs) 0)%R, wy)
  else raise IndexError.

(** The samples of a batched input [n, c, d1, ...] against class-index
    targets [n, d1, ...]. *)
Definition samples (input : tensor R) (target : tensor Z)
  : M (nat * list (list R)) :=
  match shape input with
  | n :: c :: s =>
      if decide (shape target = n :: s)
      then ret (c, class_vectors n c (torch.numel s) (data input))
      else raise ValueError
  | _ => raise IndexError
  end.

(** [F.cross_entropy(input, target, weight)] with class-index targets and
    the default reduction: the weighted mean. *)
Definition cross_entropy (input : tensor R) (target : tensor Z)
    (weight : tensor R) : M (tensor R) :=
  do '(c, xs) <- samples input target;
  if decide (shape weight = [c]) then
    do lw <- mapM (fun '(x, y) => nll (data weight) c x y)
                  (zip xs (data target));
    torch.mk [] [(sum_R (map fst lw) / sum_R (map snd lw))%R]
      (requires_grad input)
  else raise RuntimeError.

(** [F.cross_entropy(input, target, reduction='none')] with class-index
    targets. *)
Definition cross_entropy_none (input : tensor R) (target : tensor Z)
  : M (tensor R) :=
  do '(c, xs) <- samples input target;
  do lw <- mapM (fun '(x, y) => nll (replicate c 1%R) c x y)
                (zip xs (data target));
  torch.mk (shape target) (map fst lw) (requires_grad input).

(** [F.cross_entropy(input, target)] with a floating target of the shape
    of the input: the targets are class probabilities. *)
Definition cross_entropy_prob (input target : tensor R) : M (tensor R) :=
  match shape input with
  | n :: c :: s =>
      if decide (shape target = shape input) then
        let k := torch.numel s in
        torch.mk []
          [(sum_R (zip_with
                     (fun x t => - sum_R (zip_with Rmult t (log_softmax_row x)))%R
                     (class_vectors n c k (data input))
                     (class_vectors n c k (data target)))
            / INR (n * k))%R]
          (requires_grad input || requires_grad target)
      else raise ValueError
  | _ => raise IndexError
  end.

End F.

(** ** Dictionaries *)

(** A target dictionary, one per image. *)
Abbreviation target := (gmap string value).
(** A prediction bundle: the tensors of one decoder layer. *)
Abbreviation bundle := (gmap string (tensor R)).
(** The named scalars a loss returns. *)
Abbreviation loss_dict := (gmap string (tensor R)).

(** A value of the [outputs] dictionary of the model: a tensor, or, under
    ['aux_outputs'], the list of the bundles of the intermediate layers. *)
Inductive outval : Type :=
| OTensor (t : tensor R)
| OList (l : list bundle).

Definition tensors (o : gmap string outval) : bundle :=
  omap (fun v => match v with OTensor t => Some t | OList _ => None end) o.

(** [k in d] and [d[k]] *)
Definition contains {V} (d : gmap string V) (k : string) : bool :=
  bool_decide (is_Some (d !! k)).
Definition getitem {V} (d : gmap string V) (k : string) : M V :=
  match d !! k with
  | Some v => ret v
  | None => raise KeyError
  end.

(** [l[i]] on a Python list. *)
Definition list_getitem {V} (l : list V) (i : nat) : M V :=
  match l !! i with
  | Some v => ret v
  | None => raise IndexError
  end.

(** [f'_{i}'] *)
Definition suffix (i : nat) : string :=
  "_" +:+ NilEmpty.string_of_uint (Nat.to_uint i).

(** ** Imported functions *)

(** What [models/detr.py] imports from [util.box_ops], [util.misc] and
    [models.segmentation]; their code is not part of the module. *)
Record imports : Type := {
  accuracy : tensor R -> tensor Z -> M (list (tensor R));
  box_cxcywh_to_xyxy : tensor R -> M (tensor R);
  generalized_box_iou : tensor R -> tensor R -> M (tensor R);
  nested_tensor_from_tensor_list : list value -> M (value * tensor bool);
  interpolate : tensor R -> list nat -> M (tensor R);
  sigmoid_focal_loss : tensor R -> tensor R -> R -> M (tensor R);
  dice_loss : tensor R -> tensor R -> R -> M (tensor R);
  (** [util.misc.is_dist_avail_and_initialized()] and
      [util.misc.get_world_size()] *)
  is_dist_avail_and_initialized : bool;
  get_world_size : nat;
  (** what the other workers contribute to the collective sum
      [torch.distributed.all_reduce] of this call *)
  peers : list R;
  (** whether the tensors of the call live on a CUDA device; a tensor that
      [.cuda()] creates can be combined with them only then *)
  cuda_tensors : bool
}.

(** [torch.distributed.all_reduce(t)]: every entry becomes its sum over
    the workers. *)
Definition all_reduce (ext : imports) (t : tensor R) : M (tensor R) :=
  ret (Tensor (shape t) (map (fun x => x + sum_R (peers ext))%R (data t))
         (requires_grad t)).

(** ** class SetCriterion *)

Module SetCriterion.

Record criterion : Type := {
  num_classes : nat;
  matcher : bundle -> list target -> M index_pairs;
  weight_dict : gmap string R;
  eos_coef : R;
  losses : list string;
  empty_weight : tensor R;
  n_depth_bins : option nat;
  depth_bin_res : option R
}.

(** [SetCriterion.__init__]: [empty_weight] is [torch.ones(num_classes + 1)]
    with [empty_weight[-1] = eos_coef]. *)
Definition __init__ (num_classes : nat)
    (matcher : bundle -> list target -> M index_pairs)
    (weight_dict : gmap string R) (eos_coef : R) (losses : list string)
    (n_depth_bins : option nat) (depth_bin_res : option R) : criterion :=
  {| num_classes := num_classes;
     matcher := matcher;
     weight_dict := weight_dict;
     eos_coef := eos_coef;
     losses := losses;
     empty_weight :=
       Tensor [(num_classes + 1)%nat]
         (<[num_classes := eos_coef]> (replicate (num_classes + 1) 1%R))
         false;
     n_depth_bins := n_depth_bins;
     depth_bin_res := depth_bin_res |}.

Section methods.

Variable ext : imports.
Variable self : criterion.

(** [torch.cat([t[key][J] for t, (_, J) in zip(targets, indices)])] *)
Definition cat_targets (key : string) (targets : list target)
    (indices : index_pairs) : M value :=
  do vs <- mapM (fun '(t, (_, J)) =>
                   do v <- getitem t key; torch.v_index0 v J)
                (zip targets indices);
  torch.v_cat vs.

Definition _get_src_permutation_idx (indices : index_pairs)
  : M (tensor Z * tensor Z) :=
  do fulls <- mapM (fun '(i, (src, _)) => torch.full_like src (Z.of_nat i))
                   (enumerate indices);
  do batch_idx <- torch.cat fulls;
  do src_idx <- torch.cat (map fst indices);
  ret (batch_idx, src_idx).

Definition _get_tgt_permutation_idx (indices : index_pairs)
  : M (tensor Z * tensor Z) :=
  do fulls <- mapM (fun '(i, (_, tgt)) => torch.full_like tgt (Z.of_nat i))
                   (enumerate indices);
  do batch_idx <- torch.cat fulls;
  do tgt_idx <- torch.cat (map snd indices);
  ret (batch_idx, tgt_idx).

(** The source of an indexed assignment into an int64 tensor must be
    int64 itself. *)
Definition long_source (v : value) : M (tensor Z) :=
  match v with
  | VLong t => ret t
  | VFloat _ => raise RuntimeError
  end.

Definition loss_labels (outputs : bundle) (targets : list target)
    (indices : index_pairs) (num_boxes : R) (log : bool) : M loss_dict :=
  do_ assert (contains outputs "pred_logits");
  do src_logits <- getitem outputs "pred_logits";
  do idx <- _get_src_permutation_idx indices;
  do target_classes_o <- cat_targets "labels" targets indices;
  do target_classes <- torch.full (take 2 (shape src_logits))
                         (Z.of_nat (num_classes self));
  do o <- long_source target_classes_o;
  do target_classes <- torch.index_put2 target_classes idx o;
  do logits_t <- torch.transpose12 src_logits;
  do loss_ce <- F.cross_entropy logits_t target_classes (empty_weight self);
  let losses : loss_dict := {[ "loss_ce" := loss_ce ]} in
  if log then
    do matched <- torch.index2 src_logits idx;
    do acc <- accuracy ext matched o;
    do acc0 <- list_getitem acc 0;
    do class_error <- torch.rsub_scalar 100 acc0;
    ret (<[ "class_error" := class_error ]> losses)
  else ret losses.

(** [self.depth_bin_res], a number when the criterion was built with
    one. *)
Definition bin_res : M R :=
  match depth_bin_res self with
  | Some r => ret r
  | None => raise TypeError
  end.

Definition loss_depth_multi_bin (outputs : bundle) (targets : list target)
    (indices : index_pairs) (num_boxes : R) : M loss_dict :=
  do_ assert (contains outputs "pred_depth_bin");
  do_ assert (contains outputs "pred_depth_delta");
  do idx <- _get_src_permutation_idx indices;
  do pred_depth_bin <- getitem outputs "pred_depth_bin";
  do matched_bin <- torch.index2 pred_depth_bin idx;
  do src_depth_bin <- torch.squeeze matched_bin;
  do pred_depth_delta <- getitem outputs "pred_depth_delta";
  do matched_delta <- torch.index2 pred_depth_delta idx;
  do src_depth_delta <- torch.squeeze matched_delta;
  do target_depth_v <- cat_targets "depth" targets indices;
  let target_depth := torch.to_float target_depth_v in
  do res <- bin_res;
  do target_depth_bin_cls <- torch.div_scalar target_depth res;
  let target_depth_bin_cls := torch.long (VFloat target_depth_bin_cls) in
  do cls_f <- torch.float target_depth_bin_cls;
  do cls_res <- torch.unop (fun c => c * res)%R cls_f;
  do d1 <- torch.sub target_depth cls_res;
  do target_depth_delta <- torch.unop (fun x => x - res / 2)%R d1;
  do target_depth_bin <- torch.zeros_like src_depth_bin;
  do n0 <- torch.size0 src_depth_bin;
  do rows <- torch.arange n0;
  do target_depth_bin <- torch.index_fill2 target_depth_bin
                           (rows, target_depth_bin_cls) 1%R;
  do loss_depth_reg <- F.mse_loss src_depth_delta target_depth_delta;
  do loss_depth_class <- F.cross_entropy_prob src_depth_bin target_depth_bin;
  do half_reg <- torch.div_scalar loss_depth_reg 2;
  do half_class <- torch.div_scalar loss_depth_class 2;
  do loss <- torch.add half_reg half_class;
  ret ({[ "loss_depth" := loss ]} : loss_dict).

(** [len(v)] for a value of a target dictionary. *)
Definition v_len (v : value) : M nat :=
  match torch.v_shape v with
  | [] => raise TypeError
  | n :: _ => ret n
  end.

Definition loss_cardinality (outputs : bundle) (targets : list target)
    (indices : index_pairs) (num_boxes : R) : M loss_dict :=
  no_grad (
    do pred_logits <- getitem outputs "pred_logits";
    do lens <- mapM (fun v : target =>
                       do l <- getitem v "labels"; v_len l) targets;
    do tgt_lengths <- torch.as_tensor (map Z.of_nat lens);
    do am <- torch.argmax_last pred_logits;
    do c <- torch.last_dim (shape pred_logits);
    do nonempty <- torch.ne_scalar am (Z.of_nat c - 1);
    do card_pred <- torch.sum_bool_dim1 nonempty;
    do card_pred_f <- torch.float card_pred;
    do tgt_lengths_f <- torch.float tgt_lengths;
    do card_err <- F.l1_loss card_pred_f tgt_lengths_f;
    ret ({[ "cardinality_error" := card_err ]} : loss_dict)).

Definition loss_boxes (outputs : bundle) (targets : list target)
    (indices : index_pairs) (num_boxes : R) : M loss_dict :=
  do_ assert (contains outputs "pred_boxes");
  do idx <- _get_src_permutation_idx indices;
  do pred_boxes <- getitem outputs "pred_boxes";
  do src_boxes <- torch.index2 pred_boxes idx;
  do target_boxes_v <- cat_targets "boxes" targets indices;
  let target_boxes := torch.to_float target_boxes_v in
  do loss_bbox <- F.l1_loss_none src_boxes target_boxes;
  do bbox_sum <- torch.sum loss_bbox;
  do bbox <- torch.div_scalar bbox_sum num_boxes;
  let losses : loss_dict := {[ "loss_bbox" := bbox ]} in
  do src_xyxy <- box_cxcywh_to_xyxy ext src_boxes;
  do tgt_xyxy <- box_cxcywh_to_xyxy ext target_boxes;
  do giou <- generalized_box_iou ext src_xyxy tgt_xyxy;
  do giou_diag <- torch.diag giou;
  do loss_giou <- torch.rsub_scalar 1 giou_diag;
  do giou_sum <- torch.sum loss_giou;
  do giou_v <- torch.div_scalar giou_sum num_boxes;
  ret (<[ "loss_giou" := giou_v ]> losses).

Definition loss_masks (outputs : bundle) (targets : list target)
    (indices : index_pairs) (num_boxes : R) : M loss_dict :=
  do_ assert (contains outputs "pred_masks");
  do src_idx <- _get_src_permutation_idx indices;
  do tgt_idx <- _get_tgt_permutation_idx indices;
  do src_masks <- getitem outputs "pred_masks";
  do src_masks <- torch.index2 src_masks src_idx;
  do masks <- mapM (fun t : target => getitem t "masks") targets;
  do '(target_masks_v, valid) <- nested_tensor_from_tensor_list ext masks;
  let target_masks := torch.to_float target_masks_v in
  do target_masks <- torch.index2 target_masks tgt_idx;
  do src_masks <- torch.unsqueeze1 src_masks;
  do src_masks <- interpolate ext src_masks
                    (drop (length (shape target_masks) - 2)
                          (shape target_masks));
  do src_masks <- torch.select1_0 src_masks;
  do src_masks <- torch.flatten1 src_masks;
  do target_masks <- torch.flatten1 target_masks;
  do target_masks <- torch.view (shape src_masks) target_masks;
  do loss_mask <- sigmoid_focal_loss ext src_masks target_masks num_boxes;
  do loss_dice <- dice_loss ext src_masks target_masks num_boxes;
  ret (<[ "loss_dice" := loss_dice ]>
         ({[ "loss_mask" := loss_mask ]} : loss_dict)).

(** The body shared, up to the names of the prediction and of the
    result, by [loss_bev], [loss_head] and [loss_feet]. *)
Definition loss_bev (outputs : bundle) (targets : list target)
    (indices : index_pairs) (num_boxes : R) : M loss_dict :=
  do_ assert (contains outputs "pred_bev");
  do idx <- _get_src_permutation_idx indices;
  do pred_bev <- getitem outputs "pred_bev";
  do matched <- torch.index2 pred_bev idx;
  do src_bev <- torch.squeeze matched;
  do target_bev_v <- cat_targets "bev" targets indices;
  let target_bev := torch.to_float target_bev_v in
  do loss <- F.l1_loss_none src_bev target_bev;
  do loss_sum <- torch.sum loss;
  do v <- torch.div_scalar loss_sum num_boxes;
  ret ({[ "loss_bev" := v ]} : loss_dict).

Definition loss_head (outputs : bundle) (targets : list target)
    (indices : index_pairs) (num_boxes : R) : M loss_dict :=
  do_ assert (contains outputs "pred_head_bev");
  do idx <- _get_src_permutation_idx indices;
  do pred_bev <- getitem outputs "pred_head_bev";
  do matched <- torch.index2 pred_bev idx;
  do src_bev <- torch.squeeze matched;
  do target_bev_v <- cat_targets "bev" targets indices;
  let target_bev := torch.to_float target_bev_v in
  do loss <- F.l1_loss_none src_bev target_bev;
  do loss_sum <- torch.sum loss;
  do v <- torch.div_scalar loss_sum num_boxes;
  ret ({[ "loss_head_bev" := v ]} : loss_dict).

Definition loss_feet (outputs : bundle) (targets : list target)
    (indices : index_pairs) (num_boxes : R) : M loss_dict :=
  do_ assert (contains outputs "pred_feet_bev");
  do idx <- _get_src_permutation_idx indices;
  do pred_bev <- getitem outputs "pred_feet_bev";
  do matched <- torch.index2 pred_bev idx;
  do src_bev <- torch.squeeze matched;
  do target_bev_v <- cat_targets "bev" targets indices;
  let target_bev := torch.to_float target_bev_v in
  do loss <- F.l1_loss_none src_bev target_bev;
  do loss_sum <- torch.sum loss;
  do v <- torch.div_scalar loss_sum num_boxes;
  ret ({[ "loss_feet_bev" := v ]} : loss_dict).

(** The compensation weight of [loss_dims], computed under
    [torch.no_grad()]. *)
Definition compensation_weight (src_dims target_dims dim_loss : tensor R)
  : M (tensor R) :=
  no_grad (
    do l1 <- F.l1_loss src_dims target_dims;
    do m <- torch.mean dim_loss;
    torch.div l1 m).

Definition loss_dims (outputs : bundle) (targets : list target)
    (indices : index_pairs) (num_boxes : R) : M loss_dict :=
  do_ assert (contains outputs "pred_dim");
  do idx <- _get_src_permutation_idx indices;
  do pred_dim <- getitem outputs "pred_dim";
  do src_dims <- torch.index2 pred_dim idx;
  do target_dims_v <- cat_targets "dim" targets indices;
  let target_dims := torch.to_float target_dims_v in
  do dimension_c <- torch.clone target_dims;
  do dimension <- torch.detach dimension_c;
  do diff <- torch.sub src_dims target_dims;
  do dim_loss <- torch.abs diff;
  do dim_loss <- torch.div_ dim_loss dimension;
  do w <- compensation_weight src_dims target_dims dim_loss;
  do dim_loss <- torch.mul_ dim_loss w;
  do loss_sum <- torch.sum dim_loss;
  do v <- torch.div_scalar loss_sum num_boxes;
  ret ({[ "loss_dim" := v ]} : loss_dict).

(** [torch.zeros(n, c).cuda().scatter_(dim=1, index=cls.view(-1, 1),
    value=1)] with [n = cls.shape[0]]: row [i] gets a 1 at column
    [cls[i]], which must lie in [0, c).  The zeros are moved to the CUDA
    device whatever the device of [cls] is: on a host without CUDA, or with
    [cls] on the CPU, the line raises [RuntimeError]. *)
Definition scatter_one_hot (c : nat) (cls : tensor Z) : M (tensor R) :=
  if cuda_tensors ext then
    do rows <- mapM (fun y =>
                       if decide (0 <= y < Z.of_nat c)%Z
                       then ret (<[Z.to_nat y := 1%R]> (replicate c 0%R))
                       else raise RuntimeError) (data cls);
    ret (Tensor [length (data cls); c] (concat rows) false)
  else raise RuntimeError.

Definition loss_angles (outputs : bundle) (targets : list target)
    (indices : index_pairs) (num_boxes : R) : M loss_dict :=
  do idx <- _get_src_permutation_idx indices;
  do pred_angle <- getitem outputs "pred_angle";
  do heading_input <- torch.index2 pred_angle idx;
  do target_heading_cls <- cat_targets "heading_bin" targets indices;
  do target_heading_res <- cat_targets "heading_res" targets indices;
  do heading_input <- torch.view_rows 24 heading_input;
  do heading_target_cls <- torch.view_flat (torch.long target_heading_cls);
  do heading_target_res <- torch.view_flat (torch.to_float target_heading_res);
  do heading_input_cls <- torch.slice1 0 12 heading_input;
  do cls_loss <- F.cross_entropy_none heading_input_cls heading_target_cls;
  do heading_input_res <- torch.slice1 12 24 heading_input;
  do cls_onehot <- scatter_one_hot 12 heading_target_cls;
  do selected <- torch.mul heading_input_res cls_onehot;
  do heading_input_res <- torch.sum_dim1 selected;
  do reg_loss <- F.l1_loss_none heading_input_res heading_target_res;
  do angle_loss <- torch.add cls_loss reg_loss;
  do angle_sum <- torch.sum angle_loss;
  do v <- torch.div_scalar angle_sum num_boxes;
  ret ({[ "loss_angle" := v ]} : loss_dict).

(** The type of a loss as [get_loss] calls it; [kwargs] is [Some log]
    for the keyword arguments [{'log': log}] and [None] for none. *)
Definition loss_fn : Type :=
  bundle -> list target -> index_pairs -> R -> option bool -> M loss_dict.

(** A loss that takes no keyword argument. *)
Definition no_kwargs
    (f : bundle -> list target -> index_pairs -> R -> M loss_dict)
  : loss_fn :=
  fun outputs targets indices num_boxes kwargs =>
    match kwargs with
    | None => f outputs targets indices num_boxes
    | Some _ => raise TypeError
    end.

Definition loss_map : list (string * loss_fn) :=
  [ ("labels", fun outputs targets indices num_boxes kwargs =>
                 loss_labels outputs targets indices num_boxes
                   (default true kwargs));
    ("cardinality", no_kwargs loss_cardinality);
    ("boxes", no_kwargs loss_boxes);
    ("masks", no_kwargs loss_masks);
    ("bev", no_kwargs loss_bev);
    ("dim", no_kwargs loss_dims);
    ("angle", no_kwargs loss_angles);
    ("depth", no_kwargs loss_depth_multi_bin);
    ("head", no_kwargs loss_head);
    ("feet", no_kwargs loss_feet) ].

(** [loss_map[loss]] *)
Fixpoint lookup_loss (m : list (string * loss_fn)) (loss : string)
  : option loss_fn :=
  match m with
  | [] => None
  | (k, f) :: m' => if decide (k = loss) then Some f else lookup_loss m' loss
  end.

Definition get_loss (loss : string) : loss_fn :=
  fun outputs targets indices num_boxes kwargs =>
    match lookup_loss loss_map loss with
    | None => raise AssertionError
    | Some f => f outputs targets indices num_boxes kwargs
    end.

(** [next(iter(outputs.values())).device]: the dictionary must hold a
    value, and the first one must be a tensor; it is one whenever the
    dictionary holds a tensor, because the model inserts ['aux_outputs']
    last. *)
Definition first_device (outputs : gmap string outval) : M unit :=
  if decide (size outputs = 0%nat) then raise StopIteration
  else if decide (size (tensors outputs) = 0%nat) then raise AttributeError
  else ret tt.

(** [t.item()] *)
Definition item (t : tensor R) : M R :=
  match data t with
  | [x] => ret x
  | _ => raise ValueError
  end.

(** The normalisation of [forward]: the number of target boxes, averaged
    over the workers and clamped. *)
Definition normalization (outputs : gmap string outval)
    (targets : list target) : M R :=
  do lens <- mapM (fun t : target =>
                     do l <- getitem t "labels"; v_len l) targets;
  let num_boxes := foldr Nat.add 0%nat lens in
  do_ first_device outputs;
  let num_boxes : tensor R := Tensor [1%nat] [INR num_boxes] false in
  do num_boxes <- (if is_dist_avail_and_initialized ext
                   then all_reduce ext num_boxes else ret num_boxes);
  do avg <- torch.div_scalar num_boxes (INR (get_world_size ext));
  do clamped <- torch.unop (fun x => Rmax x 1) avg;
  item clamped.

(** [{k + f'_{i}': v for k, v in l_dict.items()}] *)
Definition with_suffix (i : nat) (l_dict : loss_dict) : loss_dict :=
  kmap (fun k => k +:+ suffix i) l_dict.

(** [SetCriterion.forward], with the method [self.get_loss] it calls as
    a parameter. *)
Definition forward_with (get_loss : string -> loss_fn)
    (outputs : gmap string outval) (targets : list target) : M loss_dict :=
  let outputs_without_aux :=
    filter (fun kv => kv.1 <> "aux_outputs") outputs in
  do indices <- matcher self (tensors outputs_without_aux) targets;
  do num_boxes <- normalization outputs targets;
  do losses <- foldM (fun (losses : loss_dict) loss =>
                        do d <- get_loss loss (tensors outputs) targets
                                  indices num_boxes None;
                        ret (d ∪ losses))
                     (∅ : loss_dict) (losses self);
  if contains outputs "aux_outputs" then
    do auxs <- match outputs !! "aux_outputs" with
               | Some (OList l) => ret l
               | _ => raise TypeError
               end;
    foldM (fun (losses : loss_dict) '(i, aux_outputs) =>
             do indices <- matcher self aux_outputs targets;
             foldM (fun (losses : loss_dict) loss =>
                      if decide (loss = "masks") then ret losses
                      else
                        let kwargs := if decide (loss = "labels")
                                      then Some false else None in
                        do l_dict <- get_loss loss aux_outputs targets
                                       indices num_boxes kwargs;
                        ret (with_suffix i l_dict ∪ losses))
                   losses (SetCriterion.losses self))
          losses (enumerate auxs)
  else ret losses.

Definition forward : gmap string outval -> list target -> M loss_dict :=
  forward_with get_loss.

End methods.

End SetCriterion.

(** ** class PostProcess *)

Module PostProcess.

(** One record of the result: ['scores'], ['labels'] and ['boxes']. *)
Definition record (s : tensor R) (l : tensor Z) (b : tensor R)
  : gmap string value :=
  <[ "boxes" := VFloat b ]>
    (<[ "labels" := VLong l ]> ({[ "scores" := VFloat s ]})).

Definition forward (ext : imports) (outputs : bundle)
    (target_sizes : tensor R) : M (list (gmap string value)) :=
  no_grad (
    do out_logits <- getitem outputs "pred_logits";
    do out_bbox <- getitem outputs "pred_boxes";
    do n_logits <- torch.len out_logits;
    do n_sizes <- torch.len target_sizes;
    do_ assert (bool_decide (n_logits = n_sizes));
    do n_cols <- list_getitem (shape target_sizes) 1;
    do_ assert (bool_decide (n_cols = 2%nat));
    do prob <- F.softmax_last out_logits;
    do fg <- torch.drop_last_class prob;
    do '(scores, labels) <- torch.max_last fg;
    do boxes <- box_cxcywh_to_xyxy ext out_bbox;
    do cols <- torch.unbind1 target_sizes;
    match cols with
    | [img_h; img_w] =>
        do scale_fct <- torch.stack1 [img_w; img_h; img_w; img_h];
        do scale <- torch.unsqueeze1_of2 scale_fct;
        do boxes <- torch.mul boxes scale;
        do ss <- torch.iter scores;
        do ls <- torch.iter labels;
        do bs <- torch.iter boxes;
        ret (zip_with (fun sl b => record sl.1 sl.2 b) (zip ss ls) bs)
    | _ => raise ValueError
    end).

End PostProcess.

(** ** torch.nn: linear layers *)

Module nn.

(** [nn.Linear]: the weight, of shape [[out_features, in_features]] in
    row-major order, the bias, and whether the parameters are trained. *)
Record Linear : Type := {
  in_features : nat;
  out_features : nat;
  weight : list R;
  bias : list R;
  trainable : bool
}.

(** [nn.Linear(n, k)], with the initial weight and bias that the
    initialisation draws; the parameters are trained. *)
Definition new_Linear (params : list R * list R) (n k : nat) : Linear :=
  {| in_features := n; out_features := k;
     weight := params.1; bias := params.2; trainable := true |}.

(** [x W^T + b] for one row [x]. *)
Definition linear_row (l : Linear) (x : list R) : list R :=
  zip_with Rplus
    (map (fun w => sum_R (zip_with Rmult x w))
         (torch.chunks (in_features l) (out_features l) (weight l)))
    (bias l).

(** [layer(x)]: the layer is applied along the last dimension of [x],
    which must have [in_features] entries. *)
Definition Linear_forward (l : Linear) (x : tensor R) : M (tensor R) :=
  match last (shape x) with
  | None => raise RuntimeError
  | Some c =>
      if decide (c = in_features l) then
        let pre := removelast (shape x) in
        torch.mk (pre ++ [out_features l])
          (flat_map (linear_row l) (torch.chunks c (torch.numel pre) (data x)))
          (requires_grad x || trainable l)
      else raise RuntimeError
  end.

(** [F.relu(x)] *)
Definition relu (x : tensor R) : M (tensor R) :=
  torch.unop (fun v => Rmax 0 v) x.

(** [t.sigmoid()] and [torch.tanh(t)] *)
Definition sigmoid (x : tensor R) : M (tensor R) :=
  torch.unop (fun v => 1 / (1 + exp (- v)))%R x.

Definition tanh (x : tensor R) : M (tensor R) :=
  torch.unop Rtrigo_def.tanh x.

(** [F.softmax(t, dim = 3)]: every entry is divided by the sum over the
    entries that differ from it in the index of dimension 3 only; the entry
    at position [p] is entry [(p / k) mod c] of its vector, for [c] the size
    of dimension 3 and [k] the number of entries of the dimensions after
    it. *)
Definition softmax_dim3 (t : tensor R) : M (tensor R) :=
  match shape t with
  | _ :: _ :: _ :: c :: rest =>
      let k := torch.numel rest in
      let d := data t in
      torch.mk (shape t)
        (map (fun p =>
                exp (nth p d 0) /
                sum_R (map (fun ci =>
                              exp (nth (p / (c * k) * (c * k) + ci * k
                                        + p mod k) d 0))
                           (seq 0 c)))%R
             (seq 0 (length d)))
        (requires_grad t)
  | _ => raise IndexError
  end.

End nn.

(** ** class MLP *)

Module MLP.

Record mlp : Type := {
  num_layers : Z;
  layers : list nn.Linear
}.

(** The pairs [zip([input_dim] + h, h + [output_dim])] for
    [h = [hidden_dim] * (num_layers - 1)]; a list times a negative number
    is empty. *)
Definition layer_dims (input_dim hidden_dim output_dim : nat)
    (num_layers : Z) : list (nat * nat) :=
  let h := replicate (Z.to_nat (num_layers - 1)) hidden_dim in
  zip (input_dim :: h) (h ++ [output_dim])%list.

(** [MLP.__init__]; [init i n k] is the weight and the bias that the
    [i]-th call, [nn.Linear(n, k)], draws. *)
Definition __init__ (init : nat -> nat -> nat -> list R * list R)
    (input_dim hidden_dim output_dim : nat) (num_layers : Z) : mlp :=
  {| num_layers := num_layers;
     layers := map (fun '(i, (n, k)) => nn.new_Linear (init i n k) n k)
                   (enumerate (layer_dims input_dim hidden_dim output_dim
                                 num_layers)) |}.

Definition forward (self : mlp) (x : tensor R) : M (tensor R) :=
  foldM (fun x '(i, layer) =>
           if decide (Z.of_nat i < num_layers self - 1)%Z
           then do y <- nn.Linear_forward layer x; nn.relu y
           else nn.Linear_forward layer x)
        x (enumerate (layers self)).

End MLP.

(** ** class DETR: the heads and the dictionaries of outputs *)

Module DETR.

(** The heads on the output [hs] of the transformer, for all decoder
    layers: [self.bbox_embed(hs).sigmoid()],
    [F.softmax(self.depth_bin(hs), dim = 3)] and
    [torch.tanh(self.depth_delta(hs))/2]. *)
Definition outputs_coord (bbox_embed : MLP.mlp) (hs : tensor R)
    : M (tensor R) :=
  do y <- MLP.forward bbox_embed hs; nn.sigmoid y.

(** [F.softmax(self.depth_bin(hs), dim = 3)] *)
Definition output_depth_bin (depth_bin : nn.Linear) (hs : tensor R)
    : M (tensor R) :=
  do y <- nn.Linear_forward depth_bin hs; nn.softmax_dim3 y.

Definition output_depth_delta (depth_delta : nn.Linear) (hs : tensor R)
    : M (tensor R) :=
  do y <- nn.Linear_forward depth_delta hs;
  do t <- nn.tanh y;
  torch.div_scalar t 2.

(** [t[:, :, :, j]], for [j >= 0]: the entries whose index of dimension 3
    is [j]; [k] is the number of entries of the dimensions after it. *)
Definition select3 (t : tensor R) (j : nat) : M (tensor R) :=
  match shape t with
  | n0 :: n1 :: n2 :: c :: rest =>
      if decide (j < c)%nat then
        let k := torch.numel rest in
        torch.mk (n0 :: n1 :: n2 :: rest)
          (map (fun q => nth (q / k * (c * k) + j * k + q mod k) (data t) 0%R)
               (seq 0 (n0 * n1 * n2 * k)))
          (requires_grad t)
      else raise IndexError
  | _ => raise IndexError
  end.

(** [torch.stack((x, y), dim = 3)]: a new dimension 3 of size two. *)
Definition stack3 (x y : tensor R) : M (tensor R) :=
  match shape x with
  | n0 :: n1 :: n2 :: rest =>
      if decide (shape x = shape y) then
        let k := torch.numel rest in
        torch.mk (n0 :: n1 :: n2 :: 2%nat :: rest)
          (map (fun p =>
                  nth (p / (2 * k) * k + p mod k)
                      (if decide ((p / k) mod 2 = 0)%nat
                       then data x else data y) 0%R)
               (seq 0 (n0 * n1 * n2 * 2 * k)))
          (requires_grad x || requires_grad y)
      else raise RuntimeError
  | _ => raise IndexError
  end.

(** The head and feet part of [forward]: [mid_2d], [head_2d], [feet_2d],
    and the two points that [self.calib_cam_to_bev] and the sigmoid map
    them to. *)
Definition head_feet_bev (calib_cam_to_bev : nn.Linear)
    (outputs_coord : tensor R) : M (tensor R * tensor R) :=
  do c0 <- select3 outputs_coord 0;
  do c2 <- select3 outputs_coord 2;
  do s <- torch.add c0 c2;
  do mid_2d <- torch.div_scalar s 2;
  do c1 <- select3 outputs_coord 1;
  do head_2d <- stack3 mid_2d c1;
  do c3 <- select3 outputs_coord 3;
  do feet_2d <- stack3 mid_2d c3;
  do h <- nn.Linear_forward calib_cam_to_bev head_2d;
  do head_bev <- nn.sigmoid h;
  do f <- nn.Linear_forward calib_cam_to_bev feet_2d;
  do feet_bev <- nn.sigmoid f;
  ret (head_bev, feet_bev).

(** [t[-1]] and the slices of [t[:-1]], along the first dimension. *)
Definition last_layer (t : tensor R) : M (tensor R) :=
  match shape t with
  | [] => raise IndexError
  | n0 :: s =>
      if decide (n0 = 0%nat) then raise IndexError
      else torch.mk s (torch.row (torch.numel s) (n0 - 1) (data t))
             (requires_grad t)
  end.

Definition but_last (t : tensor R) : M (tensor R) :=
  match shape t with
  | [] => raise IndexError
  | n0 :: s =>
      torch.mk ((n0 - 1)%nat :: s)
        (take ((n0 - 1) * torch.numel s) (data t)) (requires_grad t)
  end.

(** The dictionary of one decoder layer. *)
Definition layer_bundle (a b c d e f g h i : tensor R) : bundle :=
  <[ "pred_feet_bev" := i ]>
    (<[ "pred_head_bev" := h ]>
       (<[ "pred_depth_delta" := g ]>
          (<[ "pred_depth_bin" := f ]>
             (<[ "pred_angle" := e ]>
                (<[ "pred_dim" := d ]>
                   (<[ "pred_bev" := c ]>
                      (<[ "pred_boxes" := b ]>
                         ({[ "pred_logits" := a ]})))))))).

Definition _set_aux_loss (outputs_class outputs_coord outputs_bev outputs_dim
    outputs_angle output_depth_bin output_depth_delta head_bev feet_bev
    : tensor R) : M (list bundle) :=
  let slices (t : tensor R) := do t' <- but_last t; torch.iter t' in
  do la <- slices outputs_class;
  do lb <- slices outputs_coord;
  do lc <- slices outputs_bev;
  do ld <- slices outputs_dim;
  do le <- slices outputs_angle;
  do lf <- slices output_depth_bin;
  do lg <- slices output_depth_delta;
  do lh <- slices head_bev;
  do li <- slices feet_bev;
  ret (map (fun '(a, (b, (c, (d, (e, (f, (g, (h, i)))))))) =>
              layer_bundle a b c d e f g h i)
           (zip la (zip lb (zip lc (zip ld (zip le (zip lf (zip lg
              (zip lh li))))))))).

(** The end of [DETR.forward]: the dictionary [out] that it returns, from
    the outputs of the heads for all decoder layers. *)
Definition forward_outputs (aux_loss : bool) (outputs_class outputs_coord
    outputs_bev outputs_dim outputs_angle output_depth_bin output_depth_delta
    head_bev feet_bev : tensor R) : M (gmap string outval) :=
  do a <- last_layer outputs_class;
  do b <- last_layer outputs_coord;
  do c <- last_layer outputs_bev;
  do d <- last_layer outputs_dim;
  do e <- last_layer outputs_angle;
  do f <- last_layer output_depth_bin;
  do g <- last_layer output_depth_delta;
  do h <- last_layer head_bev;
  do i <- last_layer feet_bev;
  let out : gmap string outval :=
    OTensor <$> layer_bundle a b c d e f g h i in
  if aux_loss then
    do aux <- _set_aux_loss outputs_class outputs_coord outputs_bev
                outputs_dim outputs_angle output_depth_bin output_depth_delta
                head_bev feet_bev;
    ret (<[ "aux_outputs" := OList aux ]> out)
  else ret out.

End DETR.

(** ** build: the criterion *)

Module build.

(** The arguments that the criterion is built from. *)
Record args : Type := {
  dataset_file : string;
  num_classes : nat;
  masks : bool;
  aux_loss : bool;
  dec_layers : Z;
  eos_coef : R;
  bbox_loss_coef : R;
  giou_loss_coef : R;
  bev_loss_coef : R;
  dim_loss_coef : R;
  angle_loss_coef : R;
  depth_loss_coef : R;
  head_loss_coef : R;
  feet_loss_coef : R;
  mask_loss_coef : R;
  dice_loss_coef : R;
  num_depth_bins : option nat;
  depth_bin_res : option R
}.

(** [num_classes] as [build] passes it on. *)
Definition criterion_classes (a : args) : nat :=
  let n := if decide (dataset_file a <> "coco")
           then (num_classes a + 1)%nat else 91%nat in
  if decide (dataset_file a = "coco_panoptic") then 250%nat else n.

(** [weight_dict] before the auxiliary entries. *)
Definition base_weights (a : args) : gmap string R :=
  let wd : gmap string R :=
    <[ "loss_feet_bev" := feet_loss_coef a ]>
      (<[ "loss_head_bev" := head_loss_coef a ]>
         (<[ "loss_depth" := depth_loss_coef a ]>
            (<[ "loss_angle" := angle_loss_coef a ]>
               (<[ "loss_dim" := dim_loss_coef a ]>
                  (<[ "loss_bev" := bev_loss_coef a ]>
                     (<[ "loss_giou" := giou_loss_coef a ]>
                        (<[ "loss_bbox" := bbox_loss_coef a ]>
                           ({[ "loss_ce" := 1%R ]})))))))) in
  if masks a
  then <[ "loss_dice" := dice_loss_coef a ]>
         (<[ "loss_mask" := mask_loss_coef a ]> wd)
  else wd.

(** [{k + f'_{i}': v for k, v in weight_dict.items()}] *)
Definition suffixed_weights (i : nat) (wd : gmap string R) : gmap string R :=
  kmap (fun k => k +:+ suffix i) wd.

Definition weight_dict (a : args) : gmap string R :=
  let wd := base_weights a in
  if aux_loss a then
    let aux_weight_dict :=
      foldl (fun (aux : gmap string R) i => suffixed_weights i wd ∪ aux) ∅
            (seq 0 (Z.to_nat (dec_layers a - 1))) in
    aux_weight_dict ∪ wd
  else wd.

Definition losses (a : args) : list string :=
  (["labels"; "boxes"; "cardinality"; "bev"; "dim"; "angle"; "depth"; "head";
    "feet"] ++ (if masks a then ["masks"] else []))%list.

(** The criterion that [build] returns, with the matcher that
    [build_matcher] built. *)
Definition criterion (matcher : bundle -> list target -> M index_pairs)
    (a : args) : SetCriterion.criterion :=
  SetCriterion.__init__ (criterion_classes a) matcher (weight_dict a)
    (eos_coef a) (losses a) (num_depth_bins a) (depth_bin_res a).

End build.

(** * Vocabulary of the specification *)

(** A loss as [get_loss] finds it in [loss_map], before keyword arguments. *)
Abbreviation loss_method :=
  (bundle -> list target -> index_pairs -> R -> M loss_dict).

(** [f] raises when the key is absent from the outputs. *)
Definition requires_output (f : loss_method) (key : string) : Prop :=
  forall outputs targets indices num_boxes g,
    outputs !! key = None -> fails (f outputs targets indices num_boxes g).

(** [f] raises when a target that [zip(targets, indices)] reaches lacks the
    key. *)
Definition requires_matched_target (f : loss_method) (key : string) : Prop :=
  forall outputs (targets : list target) indices num_boxes g i (t : target),
    targets !! i = Some t -> (i < length indices)%nat -> t !! key = None ->
    fails (f outputs targets indices num_boxes g).

(** [f] raises when any target lacks the key. *)
Definition requires_target (f : loss_method) (key : string) : Prop :=
  forall outputs (targets : list target) indices num_boxes g (t : target),
    In t targets -> t !! key = None ->
    fails (f outputs targets indices num_boxes g).

(** The names of the loss registry. *)
Definition registry : list string :=
  ["labels"; "cardinality"; "boxes"; "masks"; "bev"; "dim"; "angle"; "depth";
   "head"; "feet"].

(** The number of target objects of one image, [len(t["labels"])]. *)
Definition num_targets (t : target) : nat :=
  match t !! "labels" with
  | Some v => hd 0%nat (torch.v_shape v)
  | None => 0%nat
  end.

(** The total number of target objects: summed over the local batch and,
    when a distributed context is active, over the workers. *)
Definition total_targets (ext : imports) (targets : list target) : R :=
  (INR (foldr Nat.add 0%nat (map num_targets targets))
   + (if is_dist_avail_and_initialized ext then sum_R (peers ext) else 0))%R.

(** The normalisation denominator of the specification. *)
Definition denominator (ext : imports) (targets : list target) : R :=
  Rmax 1 (total_targets ext targets / INR (get_world_size ext)).

(** Every target dictionary has a ["labels"] tensor of at least one
    dimension. *)
Definition labelled (targets : list target) : Prop :=
  Forall (fun t : target =>
            exists v n s, t !! "labels" = Some v /\ torch.v_shape v = n :: s)
         targets.

(** The names of the entries that each loss of the registry returns; the
    classification loss adds its diagnostic when it logs. *)
Definition names (loss : string) (log : bool) : list string :=
  if decide (loss = "labels") then
    if log then ["class_error"; "loss_ce"] else ["loss_ce"]
  else if decide (loss = "cardinality") then ["cardinality_error"]
  else if decide (loss = "boxes") then ["loss_giou"; "loss_bbox"]
  else if decide (loss = "masks") then ["loss_dice"; "loss_mask"]
  else if decide (loss = "bev") then ["loss_bev"]
  else if decide (loss = "dim") then ["loss_dim"]
  else if decide (loss = "angle") then ["loss_angle"]
  else if decide (loss = "depth") then ["loss_depth"]
  else if decide (loss = "head") then ["loss_head_bev"]
  else if decide (loss = "feet") then ["loss_feet_bev"]
  else [].

(** Every name a loss can return. *)
Definition all_names : list string :=
  ["class_error"; "loss_ce"; "cardinality_error"; "loss_giou"; "loss_bbox";
   "loss_dice"; "loss_mask"; "loss_bev"; "loss_dim"; "loss_angle";
   "loss_depth"; "loss_head_bev"; "loss_feet_bev"].

(** The keyword arguments of a call for an auxiliary layer. *)
Definition aux_kwargs (loss : string) : option bool :=
  if decide (loss = "labels") then Some false else None.

(** No character of the string is an underscore. *)
Fixpoint no_underscore (s : string) : Prop :=
  match s with
  | EmptyString => True
  | String c s' => c <> "_"%char /\ no_underscore s'
  end.

(** [losses.update(d)] for each dictionary of [ds] in turn. *)
Definition merge (ds : list loss_dict) (acc : loss_dict) : loss_dict :=
  foldl (fun acc d => d ∪ acc) acc ds.

(** The calls of [get_loss] for one auxiliary layer, with the matching
    [ind] of that layer: one per requested loss other than ['masks'],
    returning the dictionaries [ds]. *)
Definition layer_calls (get_loss : string -> SetCriterion.loss_fn)
    (self : SetCriterion.criterion) (targets : list target) (nb : R) (g : bool)
    (aux : bundle) (ind : index_pairs) (ds : list loss_dict) : Prop :=
  Forall2 (fun loss d => get_loss loss aux targets ind nb (aux_kwargs loss) g
                         = Ok d)
          (filter (fun loss => loss <> "masks") (SetCriterion.losses self)) ds.

(** The suffixed dictionaries of the auxiliary layers, in the order of the
    updates. *)
Definition suffixed (l : list (nat * bundle))
    (layers : list (index_pairs * list loss_dict)) : list loss_dict :=
  concat (zip_with (fun ia L => map (SetCriterion.with_suffix ia.1) L.2)
                   l layers).

(** ** A small instance

    One image with one target object, two queries and two classes (one
    object class and the no-object class), and two auxiliary layers whose
    bundles hold no mask prediction. *)

Module Instance.

(** Modelled from the spec: [util.misc.accuracy] is not part of
    [models/detr.py]; here it is the top-1 accuracy, in percent, of the
    rows of [output] against the classes [tgt], computed without
    gradient, and zero on an empty batch. *)
Definition accuracy_top1 (output : tensor R) (tgt : tensor Z)
  : M (list (tensor R)) :=
  no_grad (
    match shape output with
    | [n; c] =>
        let rows := torch.chunks c n (data output) in
        let hits := filter (fun ry : list R * Z => torch.row_argmax ry.1 = ry.2)
                           (zip rows (data tgt)) in
        ret [torch.scalar_tensor
               (if decide (n = 0%nat) then 0
                else 100 * INR (length hits) / INR n)%R false]
    | _ => raise RuntimeError
    end).

(** Modelled from the spec: [util.box_ops.box_cxcywh_to_xyxy] is not part
    of [models/detr.py]; a box (center_x, center_y, w, h) becomes
    (x0, y0, x1, y1). *)
Definition cxcywh_to_xyxy (t : tensor R) : M (tensor R) :=
  do c <- torch.last_dim (shape t);
  if decide (c = 4%nat) then
    torch.mk (shape t)
      (flat_map (fun b =>
                   match b with
                   | [cx; cy; w; h] =>
                       [cx - w / 2; cy - h / 2; cx + w / 2; cy + h / 2]%R
                   | _ => b
                   end)
         (torch.chunks 4 (torch.numel (removelast (shape t))) (data t)))
      (requires_grad t)
  else raise ValueError.

(** Stand-ins for the imports that no property depends on. *)
Definition imports_1 : imports :=
  {| accuracy := accuracy_top1;
     box_cxcywh_to_xyxy := cxcywh_to_xyxy;
     generalized_box_iou := fun a _ => torch.mk [1; 1]%nat [1%R] (requires_grad a);
     nested_tensor_from_tensor_list := fun _ =>
       ret (VFloat (Tensor [1; 1; 1; 1]%nat [1%R] false),
            Tensor [1; 1; 1; 1]%nat [false] false);
     interpolate := fun t _ => ret t;
     sigmoid_focal_loss := fun a _ _ => torch.sum a;
     dice_loss := fun a _ _ => torch.sum a;
     is_dist_avail_and_initialized := false;
     get_world_size := 1;
     peers := [];
     cuda_tensors := true |}.

(** The only query matched is query 0, with target 0. *)
Definition indices_1 : index_pairs :=
  [(Tensor [1%nat] [0%Z] false, Tensor [1%nat] [0%Z] false)].

Definition criterion_1 : SetCriterion.criterion :=
  SetCriterion.__init__ 1 (fun _ _ => ret indices_1) ∅ (1 / 10)%R
    ["labels"; "cardinality"; "masks"; "bev"] (Some 9%nat) (Some 10%R).

Definition layer_1 : bundle :=
  <[ "pred_dim" := Tensor [1; 2; 2]%nat [3; 1; 2; 2]%R true ]>
    (<[ "pred_feet_bev" := Tensor [1; 2; 2]%nat [1; 2; 0; 0]%R true ]>
       (<[ "pred_head_bev" := Tensor [1; 2; 2]%nat [1; 2; 5; 6]%R true ]>
          (<[ "pred_bev" := Tensor [1; 2; 2]%nat [1; 2; 3; 4]%R true ]>
             ({[ "pred_logits" :=
                   Tensor [1; 2; 2]%nat [1; 0; 0; 1]%R true ]})))).

Definition outputs_1 : gmap string outval :=
  <[ "aux_outputs" := OList [layer_1; layer_1] ]>
    (<[ "pred_masks" := OTensor (Tensor [1; 2; 1; 1]%nat [0; 0]%R true) ]>
       (OTensor <$> layer_1)).

Definition target_1 : target :=
  <[ "dim" := VFloat (Tensor [1; 2]%nat [2; 4]%R false) ]>
  (<[ "bev" := VFloat (Tensor [1; 2]%nat [1; 1]%R false) ]>
    (<[ "masks" := VFloat (Tensor [1; 1; 1]%nat [1%R] false) ]>
       ({[ "labels" := VLong (Tensor [1%nat] [0%Z] false) ]}))).

(** A batch of one image with two queries and three depth bins of
    resolution 10. *)
Definition criterion_depth : SetCriterion.criterion :=
  SetCriterion.__init__ 1 (fun _ _ => ret indices_1) ∅ (1 / 10)%R
    ["depth"] (Some 3%nat) (Some 10%R).

Definition depth_layer : bundle :=
  <[ "pred_depth_delta" := Tensor [1; 2; 1]%nat [1; 2]%R true ]>
    ({[ "pred_depth_bin" :=
          Tensor [1; 2; 3]%nat [1; 0; 0; 0; 1; 0]%R true ]}).

(** One object at depth 5, matched with query 0 by [indices_1]. *)
Definition depth_target_1 : target :=
  {[ "depth" := VFloat (Tensor [1%nat] [5%R] false) ]}.

(** Both queries matched, query [i] with target [i]. *)
Definition indices_2 : index_pairs :=
  [(Tensor [2%nat] [0%Z; 1%Z] false, Tensor [2%nat] [0%Z; 1%Z] false)].

(** Two objects at depths 5 and 25; two objects, the first one behind
    the camera. *)
Definition depth_target_2 : target :=
  {[ "depth" := VFloat (Tensor [2%nat] [5; 25]%R false) ]}.
Definition depth_target_behind : target :=
  {[ "depth" := VFloat (Tensor [2%nat] [-15; 5]%R false) ]}.

(** The outputs of one image with two queries, and the size of the
    image: height 480 and width 640. *)
Definition post_outputs : bundle :=
  <[ "pred_boxes" := Tensor [1; 2; 4]%nat [1; 1; 2; 2; 3; 3; 2; 2]%R true ]>
    ({[ "pred_logits" := Tensor [1; 2; 2]%nat [1; 0; 0; 1]%R true ]}).

End Instance.

(** ** The data model of the specification *)

(** A one-dimensional int64 tensor (which tracks no gradient). *)
Definition vector (t : tensor Z) : Prop :=
  shape t = [length (data t)] /\ requires_grad t = false.

(** The pair of index tensors of one image, for [Q] queries and [N] target
    objects: two vectors of the same length, of query indices and of target
    indices. *)
Definition valid_pair (Q N : nat) (p : tensor Z * tensor Z) : Prop :=
  vector p.1 /\ vector p.2 /\ length (data p.1) = length (data p.2) /\
  Forall (fun q => 0 <= q < Z.of_nat Q)%Z (data p.1) /\
  Forall (fun j => 0 <= j < Z.of_nat N)%Z (data p.2).

(** A matching of a batch of [length Ns] images, image [b] holding
    [Ns !! b] target objects. *)
Definition valid_matching (Q : nat) (Ns : list nat) (indices : index_pairs)
  : Prop :=
  Forall2 (fun N p => valid_pair Q N p) Ns indices.

(** The number of matched pairs. *)
Definition num_matched (indices : index_pairs) : nat :=
  foldr Nat.add 0%nat (map (fun p : tensor Z * tensor Z => length (data p.1))
                           indices).

(** The matched (image, query) pairs and (image, target) pairs, in the
    order of the matching. *)
Definition query_pairs (indices : index_pairs) : list (nat * nat) :=
  flat_map (fun bp : nat * (tensor Z * tensor Z) =>
              map (fun q => (bp.1, Z.to_nat q)) (data bp.2.1))
           (enumerate indices).
Definition target_pairs (indices : index_pairs) : list (nat * nat) :=
  flat_map (fun bp : nat * (tensor Z * tensor Z) =>
              map (fun j => (bp.1, Z.to_nat j)) (data bp.2.2))
           (enumerate indices).

(** The predictions of the matched queries: of a tensor laid out as
    [batch, Q, ...], the blocks of [k] entries of the matched queries. *)
Definition matched_predictions {A} (Q k : nat) (d : list A)
    (indices : index_pairs) : list A :=
  flat_map (fun bq : nat * nat => torch.row k (bq.1 * Q + bq.2) d)
           (query_pairs indices).

(** The field [key] of the matched target objects, [k] entries per
    object. *)
Definition matched_targets (key : string) (k : nat) (targets : list target)
    (indices : index_pairs) : list R :=
  flat_map (fun bj : nat * nat =>
              match targets !! bj.1 with
              | Some t =>
                  match t !! key with
                  | Some v => torch.row k bj.2 (data (torch.to_float v))
                  | None => []
                  end
              | None => []
              end)
           (target_pairs indices).

(** Every target dictionary holds under [key] a floating tensor of shape
    [N, s...], [N] its number of objects, that tracks no gradient. *)
Definition float_field (key : string) (s : list nat) (Ns : list nat)
    (targets : list target) : Prop :=
  Forall2 (fun N (t : target) =>
             exists v, t !! key = Some (VFloat v) /\ shape v = N :: s /\
                       torch.wf v /\ requires_grad v = false)
          Ns targets.

(** The index pair that [_get_src_permutation_idx] returns: for every
    matched pair, its image and its query. *)
Definition batch_index (indices : index_pairs) : list Z :=
  flat_map (fun bp : nat * (tensor Z * tensor Z) =>
              replicate (length (data bp.2.1)) (Z.of_nat bp.1))
           (enumerate indices).
Definition src_index (indices : index_pairs) : list Z :=
  flat_map (fun p : tensor Z * tensor Z => data p.1) indices.

(** The L1 distance between the matched predicted points [P], of [D]
    coordinates each, and the ["bev"] points of their targets, summed and
    divided by the denominator. *)
Definition point_distance (D : nat) (targets : list target)
    (indices : index_pairs) (num_boxes : R) (P : list R) : R :=
  (sum_R (zip_with (fun p t => Rabs (p - t)) P
            (matched_targets "bev" D targets indices))
   / num_boxes)%R.

Definition mean_R (l : list R) : R := (sum_R l / INR (length l))%R.

(** The number of queries of one image whose arg-max class is not the
    no-object class, the last of the [K] classes; [logits] holds the [Q]
    rows of the image. *)
Definition predicted_count (Q K : nat) (logits : list R) : Z :=
  torch.count_true
    (map (fun r => bool_decide (torch.row_argmax r <> (Z.of_nat K - 1)%Z))
         (torch.chunks K Q logits)).

(** The cardinality error of a batch: the mean over the images of the
    absolute difference between the predicted and the true count. *)
Definition cardinality_error (Q K : nat) (logits : tensor R)
    (targets : list target) : R :=
  mean_R (zip_with (fun c n => Rabs (IZR c - INR n))
            (map (predicted_count Q K)
                 (torch.chunks (Q * K) (length targets) (data logits)))
            (map num_targets targets)).

(** The target bin and the target residual of a raw depth [d], for bins of
    a resolution [res] other than zero. *)
Definition depth_bin (res d : R) : Z := torch.trunc (d / res).
Definition depth_residual (res d : R) : R :=
  (d - IZR (depth_bin res d) * res - res / 2)%R.

(** The one-hot vector of [n] entries for the bin [c]; a negative bin
    counts from the last one. *)
Definition one_hot (n : nat) (c : Z) : list R :=
  <[ Z.to_nat (if decide (0 <= c)%Z then c else c + Z.of_nat n)%Z := 1%R ]>
    (replicate n 0%R).

(** The mean-squared error between the matched predicted deltas and the
    target residuals. *)
Definition delta_loss (res : R) (deltas depths : list R) : R :=
  mean_R (zip_with (fun p d => (p - depth_residual res d)
                               * (p - depth_residual res d))%R
            deltas depths).

(** The cross-entropy between the matched predicted bin scores, [n] per
    matched query, and the one-hot vectors of the target bins. *)
Definition bin_loss (n : nat) (res : R) (scores depths : list R) : R :=
  (sum_R (zip_with
            (fun x d => - sum_R (zip_with Rmult (one_hot n (depth_bin res d))
                                   (F.log_softmax_row x)))%R
            (torch.chunks n (length depths) scores) depths)
   / INR (length depths))%R.

(** The bins that an indexed write into [n] bins accepts. *)
Definition bin_in_range (n : nat) (res d : R) : Prop :=
  (- Z.of_nat n <= depth_bin res d < Z.of_nat n)%Z.

#[global] Instance bin_in_range_dec n res d : Decision (bin_in_range n res d).
Proof. unfold bin_in_range. apply _. Defined.

(** Every target dictionary holds under ["labels"] an int64 vector of [N]
    object classes, below [C], where [N] is its number of objects. *)
Definition label_field (C : nat) (Ns : list nat) (targets : list target)
  : Prop :=
  Forall2 (fun N (t : target) =>
             exists v, t !! "labels" = Some (VLong v) /\ shape v = [N] /\
                       torch.wf v /\ requires_grad v = false /\
                       Forall (fun y => 0 <= y < Z.of_nat C)%Z (data v))
          Ns targets.

(** The class labels of the matched target objects, in the order of the
    matching. *)
Definition matched_labels (targets : list target) (indices : index_pairs)
  : list Z :=
  flat_map (fun bj : nat * nat =>
              match targets !! bj.1 with
              | Some t =>
                  match t !! "labels" with
                  | Some (VLong v) => torch.row 1 bj.2 (data v)
                  | _ => []
                  end
              | None => []
              end)
           (target_pairs indices).

(** The class that query [q] of image [b] is to predict: the label of the
    target assigned to it or, for an unmatched query, the no-object class
    [C]. *)
Definition target_class (C : nat) (targets : list target)
    (indices : index_pairs) (b q : nat) : Z :=
  match list_find (fun bqy : (nat * nat) * Z => bqy.1 = (b, q))
                  (zip (query_pairs indices) (matched_labels targets indices))
  with
  | Some (_, (_, y)) => y
  | None => Z.of_nat C
  end.

(** The target classes of the [Q] queries of each of the [B] images. *)
Definition target_classes (C B Q : nat) (targets : list target)
    (indices : index_pairs) : list Z :=
  flat_map (fun b => map (target_class C targets indices b) (seq 0 Q))
           (seq 0 B).

(** The weight of a class: one, except [eos] for the no-object class [C]. *)
Definition class_weight (C : nat) (eos : R) (y : Z) : R :=
  if decide (y = Z.of_nat C) then eos else 1%R.

(** The weighted cross-entropy of the rows of scores against their
    classes: the weighted mean of the negative log-probabilities of the
    classes. *)
Definition weighted_cross_entropy (w : Z -> R) (rows : list (list R))
    (ys : list Z) : R :=
  (sum_R (zip_with (fun x y => w y * - nth (Z.to_nat y) (F.log_softmax_row x) 0)
            rows ys)
   / sum_R (map w ys))%R.

(** The top-1 accuracy, in percent, of rows of [K] scores against their
    classes. *)
Definition top1_accuracy (K : nat) (scores : list R) (ys : list Z) : R :=
  (100 * INR (length (filter (fun ry : list R * Z => torch.row_argmax ry.1 = ry.2)
                        (zip (torch.chunks K (length ys) scores) ys)))
   / INR (length ys))%R.





(** ** Auxiliary notions of the proofs *)

(** The matching refers to images below [B] and to queries below [Q]. *)
Definition queries_in_range (B Q : nat) (indices : index_pairs) : Prop :=
  (length indices <= B)%nat /\
  Forall (fun p : tensor Z * tensor Z =>
            Forall (fun q => 0 <= q < Z.of_nat Q)%Z (data p.1)) indices.

(** The position that a possibly negative index in range selects. *)
Definition wrapped (n : nat) (c : Z) : nat :=
  Z.to_nat (if decide (0 <= c)%Z then c else c + Z.of_nat n)%Z.

(** The offsets of the writes of one entry per row, from row [b] on. *)
Fixpoint row_offsets (n b : nat) (cs : list Z) : list nat :=
  match cs with
  | [] => []
  | c :: cs' => (b * n + wrapped n c)%nat :: row_offsets n (S b) cs'
  end.

(** The value that a list of writes leaves at a position: the one of the
    first write to it, if any. *)
Definition written {A} (ws : list (nat * A)) (p : nat) : option A :=
  match list_find (fun ov : nat * A => ov.1 = p) ws with
  | Some (_, (_, y)) => Some y
  | None => None
  end.

(** The image block [blk], of [Q] rows of [K] scores, transposed. *)
Definition transposed {A} (Q K : nat) (blk : list A) : list A :=
  flat_map (fun j => flat_map (fun r => torch.row 1 j r) (torch.chunks K Q blk))
           (seq 0 K).

(** ** Further vocabulary *)

(** The (image, query) and (image, target) pairs of a matching, as the
    permutation indices list them: image by image, in the order of the index
    tensors. *)
Definition image_query_pairs (indices : index_pairs) : list (Z * Z) :=
  flat_map (fun bp : nat * (tensor Z * tensor Z) =>
              map (fun q => (Z.of_nat bp.1, q)) (data bp.2.1))
           (enumerate indices).
Definition image_target_pairs (indices : index_pairs) : list (Z * Z) :=
  flat_map (fun bp : nat * (tensor Z * tensor Z) =>
              map (fun j => (Z.of_nat bp.1, j)) (data bp.2.2))
           (enumerate indices).

(** The matching with the two index tensors of every image exchanged. *)
Definition swapped (indices : index_pairs) : index_pairs :=
  map (fun p : tensor Z * tensor Z => (p.2, p.1)) indices.

(** A matching of two images: one pair in the first, none in the second. *)
Definition two_image_matching : index_pairs :=
  [(Tensor [1%nat] [3%Z] false, Tensor [1%nat] [0%Z] false);
   (Tensor [0%nat] [] false, Tensor [0%nat] [] false)].

(** What the matcher of [forward] is given for the final layer: the
    outputs without ['aux_outputs']. *)
Definition outputs_without_aux (outputs : gmap string outval) : bundle :=
  tensors (filter (fun kv : string * outval => kv.1 <> "aux_outputs") outputs).

(** A criterion that asks for a loss that [get_loss] does not know. *)
Definition criterion_giou : SetCriterion.criterion :=
  SetCriterion.__init__ 1 (fun _ _ => ret Instance.indices_1) ∅ (1 / 10)%R
    ["cardinality"; "giou"] None None.

(** The L1 distance between the matched predicted boxes [P] and the matched
    target boxes [T], summed and divided by the denominator. *)
Definition box_distance (P T : list R) (num_boxes : R) : R :=
  (sum_R (zip_with (fun p t => Rabs (p - t)) P T) / num_boxes)%R.

(** The GIoU loss read off the [M] by [M] matrix [d] of the pairwise GIoU
    of the matched boxes: only its diagonal counts. *)
Definition giou_loss (M : nat) (d : list R) (num_boxes : R) : R :=
  (sum_R (map (fun k => 1 - nth (k * M + k) d 0) (seq 0 M)) / num_boxes)%R.

(** One target object with a box. *)
Definition box_target : target :=
  {[ "boxes" := VFloat (Tensor [1; 4]%nat [1; 1; 2; 2]%R false) ]}.

(** The heading loss of one matched pair: the cross-entropy of the first
    12 of the 24 predicted entries [x] against the heading bin [c], plus the
    distance between the residual predicted for that bin, entry [12 + c],
    and the target residual [r].  The bin is stored as a number and
    converted with [long()]. *)
Definition heading_loss (x : list R) (c r : R) : R :=
  (- nth (Z.to_nat (torch.trunc c)) (F.log_softmax_row (take 12 x)) 0
   + Rabs (nth (12 + Z.to_nat (torch.trunc c)) x 0 - r))%R.

(** The angle loss of the matched pairs, with predictions [P], 24 per
    pair, heading bins [Tc] and heading residuals [Tr]. *)
Definition angle_loss (P Tc Tr : list R) (num_boxes : R) : R :=
  (sum_R (zip_with (fun x (cr : R * R) => heading_loss x cr.1 cr.2)
            (torch.chunks 24 (length Tc) P) (zip Tc Tr))
   / num_boxes)%R.

(** One target object with a heading: bin 1, residual 1/4. *)
Definition heading_target : target :=
  <[ "heading_res" := VFloat (Tensor [1%nat] [1 / 4]%R false) ]>
    ({[ "heading_bin" := VLong (Tensor [1%nat] [1%Z] false) ]}).

(** The predicted angles of one image with two queries. *)
Definition angle_outputs : bundle :=
  {[ "pred_angle" :=
       Tensor [1; 2; 24]%nat
         (replicate 12 0%R ++ [0; 1; 0; 0; 0; 0; 0; 0; 0; 0; 0; 0]%R
          ++ replicate 24 0%R)%list true ]}.

(** The layers pass a last dimension of [a] entries on to one of [b]
    entries: each takes what the one before it returns, holds one bias per
    output and is trained. *)
Fixpoint chained (a : nat) (L : list nn.Linear) (b : nat) : Prop :=
  match L with
  | [] => a = b
  | l :: L' =>
      nn.in_features l = a /\ length (nn.bias l) = nn.out_features l /\
      nn.trainable l = true /\ chained (nn.out_features l) L' b
  end.

(** Parameters of the sizes that [nn.Linear(n, k)] allocates. *)
Definition sized (init : nat -> nat -> nat -> list R * list R) : Prop :=
  forall i n k, length (init i n k).1 = (k * n)%nat /\
                length (init i n k).2 = k.

Definition unit_init (i n k : nat) : list R * list R :=
  (replicate (k * n) 1%R, replicate k 0%R).

(** The slice of decoder layer [i] of what a head returns for all layers. *)
Definition layer_slice (g : bool) (i : nat) (t : tensor R) : tensor R :=
  Tensor (tail (shape t))
    (torch.row (torch.numel (tail (shape t))) i (data t))
    (g && requires_grad t).

(** The dictionary of decoder layer [i]. *)
Definition layer_outputs (g : bool) (i : nat)
    (a b c d e f h1 h2 h3 : tensor R) : bundle :=
  DETR.layer_bundle (layer_slice g i a) (layer_slice g i b)
    (layer_slice g i c) (layer_slice g i d) (layer_slice g i e)
    (layer_slice g i f) (layer_slice g i h1) (layer_slice g i h2)
    (layer_slice g i h3).

(** What a head returns for three decoder layers, one image and one query,
    with [k] entries each. *)
Definition three_layers (k : nat) : tensor R :=
  Tensor [3; 1; 1; k]%nat (map (fun i => IZR (Z.of_nat i)) (seq 0 (3 * k)))
    true.

(** The names of the losses that [build] gives a weight. *)
Definition weighted_names (masks : bool) : list string :=
  (["loss_ce"; "loss_bbox"; "loss_giou"; "loss_bev"; "loss_dim";
    "loss_angle"; "loss_depth"; "loss_head_bev"; "loss_feet_bev"]
   ++ (if masks then ["loss_mask"; "loss_dice"] else []))%list.

(** Arguments with all coefficients equal to [w]. *)
Definition uniform_args (masks aux_loss : bool) (dec_layers : Z) (w : R)
    : build.args :=
  {| build.dataset_file := "kitti"; build.num_classes := 1;
     build.masks := masks; build.aux_loss := aux_loss;
     build.dec_layers := dec_layers; build.eos_coef := (1 / 10)%R;
     build.bbox_loss_coef := w; build.giou_loss_coef := w;
     build.bev_loss_coef := w; build.dim_loss_coef := w;
     build.angle_loss_coef := w; build.depth_loss_coef := w;
     build.head_loss_coef := w; build.feet_loss_coef := w;
     build.mask_loss_coef := w; build.dice_loss_coef := w;
     build.num_depth_bins := Some 9%nat; build.depth_bin_res := Some 10%R |}.

(** A criterion that requests the cardinality error and the loss of the
    bird's-eye-view point. *)
Definition criterion_bev : SetCriterion.criterion :=
  SetCriterion.__init__ 2 (fun _ _ => ret Instance.indices_1) ∅ (1 / 10)%R
    ["cardinality"; "bev"] None None.

(** The point that the calibration layer and the sigmoid return for the
    image point [(u, v)]. *)
Definition calibrated (calib : nn.Linear) (u v : R) : list R :=
  map (fun x => 1 / (1 + exp (- x)))%R (nn.linear_row calib [u; v]).

(** The head and the feet point of query [q], from its box
    [(x0, x1, x2, x3)]. *)
Definition head_point (calib : nn.Linear) (boxes : list R) (q : nat)
    : list R :=
  calibrated calib
    ((nth (q * 4) boxes 0 + nth (q * 4 + 2) boxes 0) / 2)%R
    (nth (q * 4 + 1) boxes 0%R).

Definition feet_point (calib : nn.Linear) (boxes : list R) (q : nat)
    : list R :=
  calibrated calib
    ((nth (q * 4) boxes 0 + nth (q * 4 + 2) boxes 0) / 2)%R
    (nth (q * 4 + 3) boxes 0%R).

(** Every target dictionary holds under [key] an int64 vector of [N]
    entries, [N] its number of objects. *)
Definition long_field (key : string) (Ns : list nat) (targets : list target)
  : Prop :=
  Forall2 (fun N (t : target) =>
             exists v, t !! key = Some (VLong v) /\ shape v = [N] /\
                       torch.wf v /\ requires_grad v = false)
          Ns targets.
(** * Properties *)

Local Open Scope list_scope.

(** ** The monad *)

Lemma bind_ok {A B} (m : M A) (k : A -> M B) g a :
  m g = Ok a -> bind m k g = k a g.
Proof. unfold bind. now intros ->. Qed.

Lemma bind_raise {A B} (m : M A) (k : A -> M B) g e :
  m g = Raise e -> bind m k g = Raise e.
Proof. unfold bind. now intros ->. Qed.

Lemma bind_assoc {A B C} (m : M A) (k1 : A -> M B) (k2 : B -> M C) g :
  bind (bind m k1) k2 g = bind m (fun x => bind (k1 x) k2) g.
Proof. unfold bind. now destruct (m g). Qed.

Lemma bind_inv {A B} (m : M A) (k : A -> M B) g b :
  bind m k g = Ok b -> exists a, m g = Ok a /\ k a g = Ok b.
Proof. unfold bind. destruct (m g) as [a|]; [eauto | discriminate]. Qed.

Lemma mapM_ok {A B} (f : A -> M B) (h : A -> B) (l : list A) g :
  (forall x, In x l -> f x g = Ok (h x)) -> mapM f l g = Ok (map h l).
Proof.
  induction l as [|x l IH]; intros H; [reflexivity|].
  simpl. rewrite (bind_ok _ _ _ (h x)) by (apply H; now left).
  rewrite (bind_ok _ _ _ (map h l)) by (apply IH; intros; apply H; now right).
  reflexivity.
Qed.

Lemma mapM_length {A B} (f : A -> M B) (l : list A) g r :
  mapM f l g = Ok r -> length r = length l.
Proof.
  revert r. induction l as [|x l IH]; simpl; intros r H.
  - inversion H. reflexivity.
  - apply bind_inv in H as (y & _ & H). apply bind_inv in H as (ys & Hys & H).
    inversion H. simpl. f_equal. eauto.
Qed.

(** ** Rows and chunks *)

Section chunks.
Context {A : Type}.
Implicit Types (l d : list A) (k n : nat).

Lemma chunks_length k n l : length (torch.chunks k n l) = n.
Proof. revert l. induction n; simpl; intros; [|rewrite IHn]; reflexivity. Qed.

Lemma chunks_concat k n l :
  length l = (n * k)%nat -> concat (torch.chunks k n l) = l.
Proof.
  revert l. induction n as [|n IH]; simpl; intros l H.
  - symmetry. now apply nil_length_inv.
  - rewrite IH; [apply take_drop|]. rewrite length_drop. lia.
Qed.

Lemma chunks_row k n l i :
  (i < n)%nat -> torch.chunks k n l !! i = Some (torch.row k i l).
Proof.
  revert l i. induction n as [|n IH]; intros l i Hi; [lia|].
  destruct i as [|i]; simpl.
  - unfold torch.row. simpl. now rewrite drop_0.
  - rewrite IH by lia. unfold torch.row. rewrite drop_drop.
    repeat (f_equal; try lia).
Qed.

Lemma chunks_seq k n l :
  torch.chunks k n l = map (fun i => torch.row k i l) (seq 0 n).
Proof.
  apply list_eq. intros i. rewrite list_lookup_fmap.
  destruct (decide (i < n)%nat) as [Hi|Hi].
  - rewrite chunks_row by lia. now rewrite lookup_seq_lt.
  - rewrite lookup_ge_None_2 by (rewrite chunks_length; lia).
    now rewrite lookup_seq_ge by lia.
Qed.

Lemma row_length k i l :
  ((i + 1) * k <= length l)%nat -> length (torch.row k i l) = k.
Proof. intros H. unfold torch.row. rewrite length_take, length_drop. lia. Qed.

Lemma chunks_Forall_length k n l :
  length l = (n * k)%nat -> Forall (fun r => length r = k) (torch.chunks k n l).
Proof.
  intros H. rewrite chunks_seq. apply Forall_fmap, Forall_forall.
  intros i Hi%elem_of_seq. simpl. apply row_length. nia.
Qed.

Lemma chunks_of_concat k (ls : list (list A)) :
  Forall (fun r => length r = k) ls ->
  torch.chunks k (length ls) (concat ls) = ls.
Proof.
  induction 1 as [|r ls Hr _ IH]; [reflexivity|].
  simpl. rewrite take_app_length' by done. rewrite drop_app_length' by done.
  now rewrite IH.
Qed.

Lemma row_of_concat k (ls : list (list A)) i r :
  Forall (fun r => length r = k) ls -> ls !! i = Some r ->
  torch.row k i (concat ls) = r.
Proof.
  intros Hk Hi. pose proof (chunks_of_concat k ls Hk) as H.
  pose proof (chunks_row k (length ls) (concat ls) i
                (lookup_lt_Some _ _ _ Hi)) as H'.
  rewrite H in H'. congruence.
Qed.

Lemma chunks_one n l :
  length l = n -> torch.chunks 1 n l = map (fun x => [x]) l.
Proof.
  revert l. induction n as [|n IH]; intros [|x l] H; try discriminate; [reflexivity|].
  simpl in *. rewrite drop_0. f_equal. apply IH. lia.
Qed.

End chunks.

Section regroup.
Context {A : Type}.
Implicit Types (d : list A).

Lemma chunks_take k n d :
  torch.chunks k n (take (n * k) d) = torch.chunks k n d.
Proof.
  revert d. induction n as [|n IH]; intros d; [reflexivity|].
  cbn [torch.chunks]. rewrite take_take, Nat.min_l by lia. f_equal.
  rewrite skipn_firstn_comm.
  replace (S n * k - k)%nat with (n * k)%nat by lia. apply IH.
Qed.

Lemma chunks_add k a b d :
  torch.chunks k (a + b) d
  = (torch.chunks k a d ++ torch.chunks k b (drop (a * k) d))%list.
Proof.
  revert d. induction a as [|a IH]; intros d; [now rewrite drop_0|].
  simpl. f_equal. rewrite IH, drop_drop. reflexivity.
Qed.

(** The rows of a batch are the rows of its images. *)
Lemma chunks_chunks k n m d :
  torch.chunks k (m * n) d
  = concat (map (torch.chunks k n) (torch.chunks (n * k) m d)).
Proof.
  revert d. induction m as [|m IH]; intros d; [reflexivity|].
  simpl. rewrite chunks_add, IH. f_equal. now rewrite chunks_take.
Qed.

Lemma flat_map_row_one n d :
  length d = n ->
  flat_map (fun r => torch.row 1 0 r) (torch.chunks 1 n d) = d.
Proof.
  intros H. rewrite chunks_one by assumption. clear.
  induction d as [|x d IH]; simpl; [reflexivity | now rewrite IH].
Qed.

End regroup.

(** ** Lists *)

Lemma enumerate_lookup {A} (l : list A) (j : nat) (ia : nat * A) :
  enumerate l !! j = Some ia <-> ia.1 = j /\ l !! j = Some ia.2.
Proof.
  unfold enumerate. destruct ia as [i a]. simpl. split.
  - intros H. apply lookup_zip_with_Some in H as (i' & a' & Heq & Hi & Ha).
    inversion Heq; subst. apply lookup_seq in Hi as [Hi _]. simpl in Hi.
    split; [now symmetry | assumption].
  - intros [-> Ha]. apply lookup_zip_with_Some. exists j, a.
    repeat split; [|assumption]. apply lookup_seq.
    split; [reflexivity | now apply lookup_lt_Some in Ha].
Qed.

Lemma Forall2_In_l {A B} (P : A -> B -> Prop) l k x :
  Forall2 P l k -> In x l -> exists y, In y k /\ P x y.
Proof.
  induction 1 as [|a b l k Hab _ IH]; [intros []|].
  intros [->|Hin]; [exists b; split; [now left | assumption]|].
  destruct (IH Hin) as (y & Hy & Hp). exists y. split; [now right | assumption].
Qed.

Lemma Forall2_In_r {A B} (P : A -> B -> Prop) l k y :
  Forall2 P l k -> In y k -> exists x, In x l /\ P x y.
Proof.
  induction 1 as [|a b l k Hab _ IH]; [intros []|].
  intros [->|Hin]; [exists a; split; [now left | assumption]|].
  destruct (IH Hin) as (x & Hx & Hp). exists x. split; [now right | assumption].
Qed.

Lemma map_zip_with {A B C D} (f : C -> D) (h : A -> B -> C)
    (l : list A) (k : list B) :
  map f (zip_with h l k) = zip_with (fun x y => f (h x y)) l k.
Proof.
  revert k. induction l as [|x l IH]; intros [|y k]; simpl; try reflexivity.
  now rewrite IH.
Qed.

(** ** Indexing, concatenation and the gathers of the losses *)

Lemma wrap_index_ok (n : nat) (i : Z) g :
  (0 <= i < Z.of_nat n)%Z -> torch.wrap_index n i g = Ok (Z.to_nat i).
Proof. intros H. unfold torch.wrap_index. now rewrite decide_True. Qed.

Lemma wrap_index_neg (n : nat) (i : Z) g :
  (- Z.of_nat n <= i < 0)%Z ->
  torch.wrap_index n i g = Ok (Z.to_nat (i + Z.of_nat n)).
Proof.
  intros H. unfold torch.wrap_index.
  rewrite decide_False by lia. now rewrite decide_True.
Qed.

Lemma wrap_index_out (n : nat) (i : Z) g :
  ~ (- Z.of_nat n <= i < Z.of_nat n)%Z ->
  torch.wrap_index n i g = Raise IndexError.
Proof.
  intros H. unfold torch.wrap_index.
  rewrite decide_False by lia. now rewrite decide_False by lia.
Qed.

Lemma mapM_wrap_ok (n : nat) (l : list Z) g :
  Forall (fun i => 0 <= i < Z.of_nat n)%Z l ->
  mapM (torch.wrap_index n) l g = Ok (map Z.to_nat l).
Proof.
  intros H. apply mapM_ok. intros i Hi. apply wrap_index_ok.
  rewrite Forall_forall in H. now apply H, list_elem_of_In.
Qed.

Lemma flat_map_concat_map {A B} (f : A -> list B) (l : list A) :
  flat_map f l = concat (map f l).
Proof. induction l; simpl; [reflexivity | now f_equal]. Qed.

Lemma length_flat_map_const {A B} (f : A -> list B) (l : list A) k :
  (forall x, In x l -> length (f x) = k) ->
  length (flat_map f l) = (length l * k)%nat.
Proof.
  induction l as [|x l IH]; intros H; simpl; [reflexivity|].
  rewrite length_app, H, IH; [reflexivity| |now left].
  intros; apply H; now right.
Qed.

Lemma numel_cons n s : torch.numel (n :: s) = (n * torch.numel s)%nat.
Proof. reflexivity. Qed.

(** [t[J]] for a vector [J] of valid indices. *)
Lemma index0_ok {A} (t : tensor A) (J : tensor Z) n s g :
  shape t = n :: s -> vector J ->
  Forall (fun j => 0 <= j < Z.of_nat n)%Z (data J) ->
  torch.index0 t J g
  = Ok (Tensor (length (data J) :: s)
          (flat_map (fun j => torch.row (torch.numel s) (Z.to_nat j) (data t))
                    (data J))
          (g && requires_grad t)).
Proof.
  intros Hs [HJ _] Hr. unfold torch.index0. rewrite Hs.
  rewrite (bind_ok _ _ _ _ (mapM_wrap_ok n _ g Hr)).
  unfold torch.mk. rewrite HJ. simpl. do 2 f_equal.
  rewrite flat_map_concat_map. now rewrite map_map.
Qed.

Lemma index0_wf {A} (t : tensor A) (J : list Z) n s :
  shape t = n :: s -> torch.wf t ->
  Forall (fun j => 0 <= j < Z.of_nat n)%Z J ->
  length (flat_map (fun j => torch.row (torch.numel s) (Z.to_nat j) (data t)) J)
  = (length J * torch.numel s)%nat.
Proof.
  intros Hs Hw Hr. apply length_flat_map_const. intros j Hj.
  rewrite Forall_forall in Hr. apply list_elem_of_In, Hr in Hj.
  apply row_length. unfold torch.wf in Hw. rewrite Hw, Hs, numel_cons. nia.
Qed.

(** The one-dimensional empty tensors that [torch.cat] skips contribute
    nothing. *)
Lemma cat_skipped {A} (ts : list (tensor A)) s :
  Forall (fun t => exists n, shape t = n :: s /\
                             length (data t) = (n * torch.numel s)%nat) ts ->
  foldr Nat.add 0%nat
    (map (fun t => hd 0%nat (shape t))
         (filter (fun t : tensor A => shape t <> [0%nat]) ts))
  = foldr Nat.add 0%nat (map (fun t => hd 0%nat (shape t)) ts) /\
  concat (map data (filter (fun t : tensor A => shape t <> [0%nat]) ts))
  = concat (map data ts).
Proof.
  induction 1 as [|t ts (n & Hs & Hl) _ [IH1 IH2]]; [done|].
  rewrite filter_cons. case_decide as Hz.
  - simpl. now rewrite IH1, IH2.
  - rewrite Hz in Hs. inversion Hs; subst.
    simpl in Hl. apply nil_length_inv in Hl. simpl. now rewrite Hz, Hl.
Qed.

(** [torch.cat] of tensors that agree on their trailing dimensions. *)
Lemma cat_ok {A} (ts : list (tensor A)) s g :
  ts <> [] ->
  Forall (fun t => exists n, shape t = n :: s /\
                             length (data t) = (n * torch.numel s)%nat) ts ->
  torch.cat ts g
  = Ok (Tensor (foldr Nat.add 0%nat (map (fun t => hd 0%nat (shape t)) ts) :: s)
          (concat (map data ts))
          (g && existsb requires_grad ts)).
Proof.
  intros Hne Hts. destruct (cat_skipped ts s Hts) as [Hsum Hdat].
  assert (Forall (fun t => exists n, shape t = n :: s /\
                             length (data t) = (n * torch.numel s)%nat)
            (filter (fun t : tensor A => shape t <> [0%nat]) ts)) as Hf.
  { rewrite Forall_forall in Hts |- *. intros t Ht. apply Hts.
    now apply list_elem_of_filter in Ht as [_ Ht]. }
  unfold torch.cat. destruct ts as [|t0 ts0]; [done|].
  destruct (filter (fun t : tensor A => shape t <> [0%nat]) (t0 :: ts0))
    as [|t ts'] eqn:E.
  - unfold torch.mk. rewrite <- Hsum, <- Hdat. simpl.
    assert (s = []) as ->; [|reflexivity].
    rewrite filter_cons in E. case_decide as Hz; [discriminate|].
    apply Forall_cons in Hts as [(n & Hs & _) _].
    rewrite Hz in Hs. now inversion Hs.
  - apply Forall_cons in Hf as [(n & Hs & _) Hf]. rewrite Hs.
    replace (forallb _ ts') with true.
    + unfold torch.mk. now rewrite Hsum, Hdat.
    + symmetry. apply forallb_forall. intros t' Ht'.
      apply bool_decide_eq_true. rewrite Forall_forall in Hf.
      apply list_elem_of_In, Hf in Ht' as (n' & Hs' & _). rewrite Hs'. done.
Qed.

Lemma map_snd_enumerate {A} (l : list A) : map snd (enumerate l) = l.
Proof.
  unfold enumerate. apply list_eq. intros i. rewrite list_lookup_fmap.
  destruct (l !! i) as [x|] eqn:E.
  - assert (zip (seq 0 (length l)) l !! i = Some (i, x)) as ->; [|reflexivity].
    apply lookup_zip_with_Some. exists i, x. repeat split; [|assumption].
    apply lookup_seq. split; [reflexivity | now apply lookup_lt_Some in E].
  - rewrite lookup_ge_None_2; [reflexivity|].
    rewrite length_zip_with, length_seq. apply lookup_ge_None in E. lia.
Qed.

Lemma flat_map_enumerate {A B} (f : A -> list B) (l : list A) :
  flat_map (fun bp : nat * A => f bp.2) (enumerate l) = flat_map f l.
Proof.
  rewrite !flat_map_concat_map. f_equal.
  rewrite <- (map_snd_enumerate l) at 2. now rewrite map_map.
Qed.

Lemma In_enumerate {A} (l : list A) (bp : nat * A) :
  In bp (enumerate l) -> l !! bp.1 = Some bp.2.
Proof.
  intros H. apply list_elem_of_In, list_elem_of_lookup in H as (j & Hj).
  apply enumerate_lookup in Hj as [-> H]. assumption.
Qed.

Lemma length_batch_index indices :
  length (batch_index indices) = num_matched indices.
Proof.
  unfold batch_index, num_matched.
  rewrite <- (map_snd_enumerate indices) at 2.
  induction (enumerate indices) as [|bp l IH]; simpl; [reflexivity|].
  now rewrite length_app, length_replicate, IH.
Qed.

Lemma length_src_index indices :
  length (src_index indices) = num_matched indices.
Proof.
  unfold src_index, num_matched.
  induction indices as [|p l IH]; simpl; [reflexivity|].
  now rewrite length_app, IH.
Qed.

Lemma existsb_requires_grad_false {A} (ts : list (tensor A)) :
  Forall (fun t => requires_grad t = false) ts ->
  existsb requires_grad ts = false.
Proof. induction 1 as [|t ts Ht _ IH]; simpl; [reflexivity | now rewrite Ht]. Qed.

Lemma enumerate_nil_inv {A} (l : list A) : enumerate l = [] -> l = [].
Proof. destruct l; [reflexivity | discriminate]. Qed.

(** [torch.cat] of vectors. *)
Lemma cat_vectors (ts : list (tensor Z)) g :
  ts <> [] -> Forall vector ts ->
  torch.cat ts g
  = Ok (Tensor [foldr Nat.add 0%nat (map (fun t => length (data t)) ts)]
          (flat_map data ts) false).
Proof.
  intros Hne Hv. rewrite (cat_ok ts [] g Hne).
  - f_equal. f_equal.
    + f_equal. f_equal. apply map_ext_in. intros t Ht.
      rewrite Forall_forall in Hv. apply list_elem_of_In, Hv in Ht as [-> _].
      reflexivity.
    + now rewrite flat_map_concat_map.
    + rewrite existsb_requires_grad_false; [apply andb_false_r|].
      eapply Forall_impl; [exact Hv | now intros t [_ ?]].
  - eapply Forall_impl; [exact Hv|]. intros t [Hs _].
    exists (length (data t)). split; [assumption | simpl; lia].
Qed.

Section permutation.

Variable indices : index_pairs.
Hypothesis Hne : indices <> [].

(** The index pair of the matched queries. *)
Lemma src_permutation_ok g :
  Forall (fun p : tensor Z * tensor Z => vector p.1) indices ->
  SetCriterion._get_src_permutation_idx indices g
  = Ok (Tensor [num_matched indices] (batch_index indices) false,
        Tensor [num_matched indices] (src_index indices) false).
Proof.
  intros Hv. unfold SetCriterion._get_src_permutation_idx.
  rewrite (bind_ok _ _ _
             (map (fun bp : nat * (tensor Z * tensor Z) =>
                     Tensor (shape bp.2.1)
                       (replicate (length (data bp.2.1)) (Z.of_nat bp.1)) false)
                  (enumerate indices))).
  2: { apply mapM_ok. now intros [i [src tgt]] _. }
  assert (forall bp, In bp (enumerate indices) -> vector bp.2.1) as Hv'.
  { intros bp Hbp. apply In_enumerate in Hbp.
    rewrite Forall_forall in Hv. apply Hv. apply list_elem_of_lookup. eauto. }
  match goal with
  | |- bind (torch.cat ?ts) _ _ = _ =>
      assert (Forall vector ts /\ ts <> []) as [Hf1 Hn1]
  end.
  { split.
    - apply Forall_forall. intros t Ht.
      apply list_elem_of_In, in_map_iff in Ht as (bp & <- & Hbp).
      destruct (Hv' bp Hbp) as [Hs _]. split; [|reflexivity]. simpl.
      now rewrite length_replicate.
    - intros E. apply map_eq_nil, enumerate_nil_inv in E. contradiction. }
  rewrite (bind_ok _ _ _ _ (cat_vectors _ g Hn1 Hf1)).
  assert (Forall vector (map fst indices) /\ map fst indices <> [])
    as [Hf2 Hn2].
  { split.
    - apply Forall_forall. intros t Ht.
      apply list_elem_of_In, in_map_iff in Ht as ([src tgt] & <- & Hp).
      rewrite Forall_forall in Hv. now apply list_elem_of_In, Hv in Hp.
    - intros E. apply map_eq_nil in E. contradiction. }
  rewrite (bind_ok _ _ _ _ (cat_vectors _ g Hn2 Hf2)).
  unfold ret. f_equal. f_equal.
  - f_equal.
    + f_equal. rewrite map_map. simpl. unfold num_matched.
      rewrite <- (map_snd_enumerate indices) at 2. rewrite map_map.
      f_equal. apply map_ext. intros bp. now rewrite length_replicate.
    + unfold batch_index. rewrite !flat_map_concat_map, map_map. reflexivity.
  - f_equal.
    + f_equal. rewrite map_map. reflexivity.
    + unfold src_index. rewrite !flat_map_concat_map, map_map. reflexivity.
Qed.

End permutation.

Lemma zip_app_same {A B} (l1 l2 : list A) (k1 k2 : list B) :
  length l1 = length k1 ->
  zip (l1 ++ l2) (k1 ++ k2) = (zip l1 k1 ++ zip l2 k2)%list.
Proof. intros H. now apply zip_with_app. Qed.

Lemma zip_flat_map {A B C} (f : A -> list B) (h : A -> list C) (l : list A) :
  (forall x, In x l -> length (f x) = length (h x)) ->
  zip (flat_map f l) (flat_map h l) = flat_map (fun x => zip (f x) (h x)) l.
Proof.
  induction l as [|x l IH]; intros H; simpl; [reflexivity|].
  rewrite zip_app_same by (apply H; now left).
  f_equal. apply IH. intros; apply H; now right.
Qed.

Lemma zip_replicate_l {A B} (x : A) (l : list B) :
  zip (replicate (length l) x) l = map (fun y => (x, y)) l.
Proof. induction l as [|y l IH]; simpl; [reflexivity | now f_equal]. Qed.

Lemma map_of_flat_map {A B C} (h : B -> C) (f : A -> list B) (l : list A) :
  map h (flat_map f l) = flat_map (fun x => map h (f x)) l.
Proof.
  induction l as [|x l IH]; simpl; [reflexivity|].
  now rewrite map_app, IH.
Qed.

Lemma flat_map_of_flat_map {A B C} (h : B -> list C) (f : A -> list B)
    (l : list A) :
  flat_map h (flat_map f l) = flat_map (fun x => flat_map h (f x)) l.
Proof.
  induction l as [|x l IH]; simpl; [reflexivity|].
  now rewrite flat_map_app, IH.
Qed.

Lemma flat_map_of_map {A B C} (h : B -> list C) (f : A -> B) (l : list A) :
  flat_map h (map f l) = flat_map (fun x => h (f x)) l.
Proof. induction l as [|x l IH]; simpl; [reflexivity | now rewrite IH]. Qed.

Lemma flat_map_ext_in {A B} (f h : A -> list B) (l : list A) :
  (forall x, In x l -> f x = h x) -> flat_map f l = flat_map h l.
Proof.
  induction l as [|x l IH]; intros H; simpl; [reflexivity|].
  rewrite H by now left. f_equal. apply IH. intros; apply H; now right.
Qed.

Lemma zip_batch_src indices :
  zip (batch_index indices) (src_index indices)
  = flat_map (fun bp : nat * (tensor Z * tensor Z) =>
                map (fun q => (Z.of_nat bp.1, q)) (data bp.2.1))
             (enumerate indices).
Proof.
  unfold batch_index, src_index.
  rewrite <- (flat_map_enumerate (fun p : tensor Z * tensor Z => data p.1)).
  rewrite zip_flat_map by (intros; apply length_replicate).
  apply flat_map_ext_in. intros bp _. apply zip_replicate_l.
Qed.

Lemma offsets_matched B Q indices g :
  queries_in_range B Q indices ->
  torch.offsets B Q (zip (batch_index indices) (src_index indices)) g
  = Ok (map (fun bq : nat * nat => (bq.1 * Q + bq.2)%nat) (query_pairs indices)).
Proof.
  intros [HB HQ]. unfold torch.offsets.
  rewrite (mapM_ok _ (fun ij : Z * Z => (Z.to_nat ij.1 * Q + Z.to_nat ij.2)%nat)).
  - f_equal. rewrite zip_batch_src. unfold query_pairs.
    rewrite !map_of_flat_map. apply flat_map_ext_in. intros bp _.
    rewrite !map_map. apply map_ext. intros q. simpl. now rewrite Nat2Z.id.
  - intros [i j] Hij. rewrite zip_batch_src in Hij.
    apply in_flat_map in Hij as (bp & Hbp & Hij).
    apply in_map_iff in Hij as (q & Heq & Hq). injection Heq as <- <-.
    apply In_enumerate in Hbp.
    assert (bp.1 < B)%nat by (apply lookup_lt_Some in Hbp; lia).
    rewrite Forall_forall in HQ.
    assert (0 <= q < Z.of_nat Q)%Z as Hq'.
    { assert (bp.2 ∈ indices) as Hp by (apply list_elem_of_lookup; eauto).
      apply HQ in Hp. rewrite Forall_forall in Hp.
      now apply Hp, list_elem_of_In. }
    assert (0 <= Z.of_nat bp.1 < Z.of_nat B)%Z as Hb' by lia.
    rewrite (bind_ok _ _ _ _ (wrap_index_ok B _ g Hb')).
    rewrite (bind_ok _ _ _ _ (wrap_index_ok Q _ g Hq')).
    reflexivity.
Qed.

(** The predictions of the matched queries, as the losses gather them. *)
Lemma index2_matched {A} (t : tensor A) B Q s indices g :
  shape t = B :: Q :: s -> queries_in_range B Q indices ->
  torch.index2 t (Tensor [num_matched indices] (batch_index indices) false,
                  Tensor [num_matched indices] (src_index indices) false) g
  = Ok (Tensor (num_matched indices :: s)
          (matched_predictions Q (torch.numel s) (data t) indices)
          (g && requires_grad t)).
Proof.
  intros Hs Hr. unfold torch.index2. rewrite Hs.
  unfold torch.index_grid. simpl. rewrite decide_True by reflexivity.
  unfold bind at 1. unfold ret at 1.
  rewrite (bind_ok _ _ _ _ (offsets_matched B Q indices g Hr)).
  unfold torch.mk. simpl. do 2 f_equal.
  unfold matched_predictions.
  now rewrite <- flat_map_concat_map, flat_map_of_map.
Qed.

Lemma length_matched_predictions {A} (t : tensor A) B Q s indices :
  shape t = B :: Q :: s -> torch.wf t -> queries_in_range B Q indices ->
  length (matched_predictions Q (torch.numel s) (data t) indices)
  = (num_matched indices * torch.numel s)%nat.
Proof.
  intros Hs Hw [HB HQ]. unfold matched_predictions.
  rewrite (length_flat_map_const _ _ (torch.numel s)).
  - f_equal. unfold query_pairs, num_matched.
    rewrite <- (map_snd_enumerate indices) at 2.
    induction (enumerate indices) as [|bp l IH]; simpl; [reflexivity|].
    now rewrite length_app, length_map, IH.
  - intros [b q] Hbq. unfold query_pairs in Hbq.
    apply in_flat_map in Hbq as (bp & Hbp & Hbq).
    apply in_map_iff in Hbq as (q' & Heq & Hq). injection Heq as <- <-.
    apply In_enumerate in Hbp.
    assert (bp.1 < B)%nat by (apply lookup_lt_Some in Hbp; lia).
    rewrite Forall_forall in HQ.
    assert (0 <= q' < Z.of_nat Q)%Z as Hq'.
    { assert (bp.2 ∈ indices) as Hp by (apply list_elem_of_lookup; eauto).
      apply HQ in Hp. rewrite Forall_forall in Hp.
      now apply Hp, list_elem_of_In. }
    apply row_length. simpl. unfold torch.wf in Hw.
    rewrite Hw, Hs, !numel_cons.
    assert (Z.to_nat q' < Q)%nat by lia.
    assert (bp.1 * Q + Z.to_nat q' + 1 <= B * Q)%nat by nia.
    rewrite Nat.mul_assoc. now apply Nat.mul_le_mono_r.
Qed.

Lemma map_zip_enumerate {A B C} (f : A * B -> C) (h : nat * B -> C)
    (la : list A) (lb : list B) :
  length la = length lb ->
  (forall b a x, la !! b = Some a -> lb !! b = Some x -> f (a, x) = h (b, x)) ->
  map f (zip la lb) = map h (enumerate lb).
Proof.
  intros Hlen H. apply list_eq. intros b. rewrite !list_lookup_fmap.
  destruct (lb !! b) as [x|] eqn:Ex.
  - destruct (lookup_lt_is_Some_2 la b) as [a Ea];
      [rewrite Hlen; now apply lookup_lt_Some in Ex|].
    assert (zip la lb !! b = Some (a, x)) as ->
      by (apply lookup_zip_with_Some; eauto).
    assert (enumerate lb !! b = Some (b, x)) as ->
      by now apply enumerate_lookup.
    simpl. f_equal. now apply H.
  - rewrite (lookup_ge_None_2 (zip la lb)).
    + rewrite (lookup_ge_None_2 (enumerate lb)); [reflexivity|].
      unfold enumerate. rewrite length_zip_with, length_seq.
      apply lookup_ge_None in Ex. lia.
    + rewrite length_zip_with. apply lookup_ge_None in Ex. lia.
Qed.

Lemma num_matched_targets Q Ns indices :
  valid_matching Q Ns indices ->
  foldr Nat.add 0%nat
    (map (fun p : tensor Z * tensor Z => length (data p.2)) indices)
  = num_matched indices.
Proof.
  unfold num_matched. induction 1 as [|N p Ns l (_ & _ & Hl & _) _ IH];
    simpl; [reflexivity|]. now rewrite IH, Hl.
Qed.

Lemma valid_matching_in_range Q Ns indices :
  valid_matching Q Ns indices -> queries_in_range (length Ns) Q indices.
Proof.
  intros H. split; [now rewrite (Forall2_length _ _ _ H)|].
  induction H as [|N p Ns l (_ & _ & _ & Hq & _) _ IH]; constructor; assumption.
Qed.

Lemma valid_matching_vectors Q Ns indices :
  valid_matching Q Ns indices ->
  Forall (fun p : tensor Z * tensor Z => vector p.1) indices.
Proof.
  induction 1 as [|N p Ns l (Hv & _) _ IH]; constructor; assumption.
Qed.

Section float_targets.

Variables (key : string) (s : list nat) (Ns : list nat) (Q : nat).
Variables (targets : list target) (indices : index_pairs).
Hypothesis Hne : indices <> [].
Hypothesis Hfield : float_field key s Ns targets.
Hypothesis Hvalid : valid_matching Q Ns indices.

Lemma zipped_target_facts b (t : target) p :
  targets !! b = Some t -> indices !! b = Some p ->
  exists N v, t !! key = Some (VFloat v) /\ shape v = N :: s /\ torch.wf v /\
              requires_grad v = false /\ valid_pair Q N p.
Proof.
  intros Ht Hp.
  destruct (Forall2_lookup_r _ _ _ _ _ Hfield Ht) as (N & HN & v & Hv).
  destruct (Forall2_lookup_l _ _ _ _ _ Hvalid HN) as (p' & Hp' & Hvp).
  assert (Some p = Some p') as Heq
    by (etransitivity; [symmetry; exact Hp | exact Hp']).
  injection Heq as <-. exists N, v. tauto.
Qed.

Lemma length_targets_indices : length targets = length indices.
Proof.
  rewrite <- (Forall2_length _ _ _ Hfield). apply (Forall2_length _ _ _ Hvalid).
Qed.

(** The rows of one image's field that its target indices select. *)
Let rows_of (t : target) (J : list Z) : list R :=
  flat_map (fun j =>
              match t !! key with
              | Some v => torch.row (torch.numel s) (Z.to_nat j)
                            (data (torch.to_float v))
              | None => []
              end) J.

(** The field of the matched target objects, as the losses gather it. *)
Lemma cat_targets_float g :
  SetCriterion.cat_targets key targets indices g
  = Ok (VFloat (Tensor (num_matched indices :: s)
                  (matched_targets key (torch.numel s) targets indices)
                  false)).
Proof.
  unfold SetCriterion.cat_targets.
  set (h := fun tp : target * (tensor Z * tensor Z) =>
              VFloat (Tensor (length (data tp.2.2) :: s)
                        (rows_of tp.1 (data tp.2.2)) false)).
  assert (forall tp, In tp (zip targets indices) ->
            exists b, targets !! b = Some tp.1 /\ indices !! b = Some tp.2)
    as Hzip.
  { intros [t p] Htp.
    apply list_elem_of_In, list_elem_of_lookup in Htp as (b & Hb).
    apply lookup_zip_with_Some in Hb as (t' & p' & Heq & Ht & Hp).
    injection Heq as -> ->. eauto. }
  rewrite (bind_ok _ _ _ (map h (zip targets indices))).
  2: { apply mapM_ok. intros [t [src J]] Htp.
       destruct (Hzip _ Htp) as (b & Ht & Hp). simpl in Ht, Hp.
       destruct (zipped_target_facts b t (src, J) Ht Hp)
         as (N & v & Hk & Hs & Hw & Hg & (_ & HJ & _ & _ & Hr)).
       unfold getitem. rewrite Hk. unfold bind at 1. unfold ret at 1.
       simpl. rewrite (bind_ok _ _ _ _ (index0_ok v J N s g Hs HJ Hr)).
       unfold ret, h, rows_of. simpl. rewrite Hk, Hg, andb_false_r.
       reflexivity. }
  unfold torch.v_cat.
  assert (zip targets indices <> []) as Hzne.
  { pose proof length_targets_indices as Hl. intros E.
    apply (f_equal length) in E. rewrite length_zip_with in E.
    apply Hne, nil_length_inv. simpl in E. lia. }
  replace (forallb torch.is_long (map h (zip targets indices))) with false
    by (destruct (zip targets indices); [done | reflexivity]).
  assert (Forall (fun t : tensor R =>
                    exists n, shape t = n :: s /\
                              length (data t) = (n * torch.numel s)%nat)
                 (map torch.to_float (map h (zip targets indices)))) as Hall.
  { apply Forall_forall. intros t' Ht'.
    apply list_elem_of_In, in_map_iff in Ht' as (v' & <- & Hv').
    apply in_map_iff in Hv' as ([t [src J]] & <- & Htp).
    destruct (Hzip _ Htp) as (b & Ht & Hp). simpl in Ht, Hp.
    destruct (zipped_target_facts b t (src, J) Ht Hp)
      as (N & v & Hk & Hs & Hw & Hg & (_ & HJ & _ & _ & Hr)).
    exists (length (data J)). split; [reflexivity|]. simpl.
    unfold rows_of. rewrite Hk. simpl.
    now apply (index0_wf v (data J) N s). }
  assert (map torch.to_float (map h (zip targets indices)) <> []) as Hmne
    by (intros E; now apply map_eq_nil, map_eq_nil in E).
  rewrite (bind_ok _ _ _ _ (cat_ok _ s g Hmne Hall)).
  unfold ret. do 2 f_equal. f_equal.
  - f_equal. rewrite <- (num_matched_targets Q Ns indices Hvalid).
    rewrite !map_map. simpl.
    rewrite <- (map_snd_enumerate indices) at 2. rewrite map_map.
    f_equal. apply map_zip_enumerate; [apply length_targets_indices|].
    reflexivity.
  - rewrite !map_map. simpl. unfold matched_targets, target_pairs.
    rewrite flat_map_of_flat_map, flat_map_concat_map. f_equal.
    apply map_zip_enumerate; [apply length_targets_indices|].
    intros b t [src J] Ht _. simpl. rewrite flat_map_of_map. unfold rows_of.
    apply flat_map_ext_in. intros j _. simpl. now rewrite Ht.
  - rewrite existsb_requires_grad_false; [apply andb_false_r|].
    apply Forall_forall. intros t' Ht'.
    apply list_elem_of_In, in_map_iff in Ht' as (v' & <- & Hv').
    now apply in_map_iff in Hv' as (tp & <- & _).
Qed.

Lemma length_matched_targets :
  length (matched_targets key (torch.numel s) targets indices)
  = (num_matched indices * torch.numel s)%nat.
Proof.
  unfold matched_targets.
  rewrite (length_flat_map_const _ _ (torch.numel s)).
  - f_equal. rewrite <- (num_matched_targets Q Ns indices Hvalid).
    unfold target_pairs. rewrite <- (map_snd_enumerate indices) at 2.
    induction (enumerate indices) as [|bp l IH]; simpl; [reflexivity|].
    now rewrite length_app, length_map, IH.
  - intros [b j] Hbj. unfold target_pairs in Hbj.
    apply in_flat_map in Hbj as (bp & Hbp & Hbj).
    apply in_map_iff in Hbj as (j' & Heq & Hj). injection Heq as <- <-.
    apply In_enumerate in Hbp.
    destruct (lookup_lt_is_Some_2 targets bp.1) as [t Ht].
    { rewrite length_targets_indices. now apply lookup_lt_Some in Hbp. }
    destruct (zipped_target_facts _ t _ Ht Hbp)
      as (N & v & Hk & Hs & Hw & Hg & (_ & _ & _ & _ & Hr)).
    simpl. rewrite Ht, Hk. simpl. apply row_length.
    rewrite Forall_forall in Hr. apply list_elem_of_In, Hr in Hj.
    unfold torch.wf in Hw. rewrite Hw, Hs, numel_cons.
    assert (Z.to_nat j' + 1 <= N)%nat by lia.
    now apply Nat.mul_le_mono_r.
Qed.

End float_targets.

(** ** Broadcasting *)

Lemma expand_data_same {A} (s : list nat) (d : list A) :
  length d = torch.numel s -> torch.expand_data s s d = d.
Proof.
  revert d. induction s as [|a s IH]; intros d Hd; [reflexivity|].
  simpl. rewrite decide_True by reflexivity.
  rewrite numel_cons in Hd.
  rewrite <- (chunks_concat (torch.numel s) a d Hd) at 2. f_equal.
  rewrite <- (map_id (torch.chunks (torch.numel s) a d)) at 2.
  apply map_ext_in. intros r Hr. apply IH.
  pose proof (chunks_Forall_length (torch.numel s) a d Hd) as Hf.
  rewrite Forall_forall in Hf. now apply Hf, list_elem_of_In.
Qed.

(** A tensor of shape [[D]] against one of shape [[1; D]]. *)
Lemma binop_row_vs_matrix (f : R -> R -> R) (a b : tensor R) D g :
  shape a = [D] -> shape b = [1%nat; D] -> torch.wf a -> torch.wf b ->
  torch.binop f a b g
  = Ok (Tensor [1%nat; D] (zip_with f (data a) (data b))
          (g && (requires_grad a || requires_grad b))).
Proof.
  intros Ha Hb Hwa Hwb. unfold torch.binop.
  rewrite decide_False by (rewrite Ha, Hb; discriminate).
  assert (torch.broadcast_shapes (shape a) (shape b) g = Ok [1%nat; D]) as Hbs.
  { rewrite Ha, Hb. unfold torch.broadcast_shapes. simpl.
    unfold bind, ret. simpl. now rewrite decide_True. }
  rewrite (bind_ok _ _ _ _ Hbs). unfold torch.mk, torch.expand_to.
  rewrite Ha, Hb. unfold torch.pad_shape. simpl replicate. simpl app.
  unfold torch.wf in *. rewrite Ha in Hwa. rewrite Hb in Hwb.
  rewrite !expand_data_same; [reflexivity|assumption|].
  rewrite Hwa. simpl. lia.
Qed.

Lemma binop_same_shape (f : R -> R -> R) (a b : tensor R) g :
  shape a = shape b ->
  torch.binop f a b g
  = Ok (Tensor (shape a) (zip_with f (data a) (data b))
          (g && (requires_grad a || requires_grad b))).
Proof. intros H. unfold torch.binop. now rewrite decide_True. Qed.

Lemma squeeze_matched (M D : nat) :
  (2 <= D)%nat ->
  filter (fun n => n <> 1%nat) [M; D]
  = if decide (M = 1%nat) then [D] else [M; D].
Proof.
  intros HD. rewrite !filter_cons, filter_nil.
  rewrite (decide_True (P := D <> 1%nat)) by lia.
  destruct (decide (M = 1%nat)) as [->|Hne].
  - now rewrite decide_False by tauto.
  - now rewrite decide_True.
Qed.

Lemma andb_idem_l (g b : bool) : g && (g && b) = g && b.
Proof. now destruct g. Qed.













Lemma binop_literal (f : R -> R -> R) s d1 d2 r1 r2 g :
  torch.binop f (Tensor s d1 r1) (Tensor s d2 r2) g
  = Ok (Tensor s (zip_with f d1 d2) (g && (r1 || r2))).
Proof. now rewrite binop_same_shape. Qed.




(** ** Gathering the labels of the matched targets *)

Section label_targets.

Variables (C : nat) (Ns : list nat) (Q : nat).
Variables (targets : list target) (indices : index_pairs).
Hypothesis Hne : indices <> [].
Hypothesis Hfield : label_field C Ns targets.
Hypothesis Hvalid : valid_matching Q Ns indices.

Lemma zipped_label_facts b (t : target) p :
  targets !! b = Some t -> indices !! b = Some p ->
  exists N v, t !! "labels" = Some (VLong v) /\ shape v = [N] /\ torch.wf v /\
              requires_grad v = false /\
              Forall (fun y => 0 <= y < Z.of_nat C)%Z (data v) /\
              valid_pair Q N p.
Proof.
  intros Ht Hp.
  destruct (Forall2_lookup_r _ _ _ _ _ Hfield Ht) as (N & HN & v & Hv).
  destruct (Forall2_lookup_l _ _ _ _ _ Hvalid HN) as (p' & Hp' & Hvp).
  assert (Some p = Some p') as Heq
    by (etransitivity; [symmetry; exact Hp | exact Hp']).
  injection Heq as <-. exists N, v. tauto.
Qed.

Lemma length_labels_indices : length targets = length indices.
Proof.
  rewrite <- (Forall2_length _ _ _ Hfield). apply (Forall2_length _ _ _ Hvalid).
Qed.

(** The labels of one image that its target indices select. *)
Let labels_of (t : target) (J : list Z) : list Z :=
  flat_map (fun j =>
              match t !! "labels" with
              | Some (VLong v) => torch.row 1 (Z.to_nat j) (data v)
              | _ => []
              end) J.

Lemma cat_targets_labels g :
  SetCriterion.cat_targets "labels" targets indices g
  = Ok (VLong (Tensor [num_matched indices]
                 (matched_labels targets indices) false)).
Proof.
  unfold SetCriterion.cat_targets.
  set (h := fun tp : target * (tensor Z * tensor Z) =>
              Tensor [length (data tp.2.2)]
                (labels_of tp.1 (data tp.2.2)) false).
  assert (forall tp, In tp (zip targets indices) ->
            exists b, targets !! b = Some tp.1 /\ indices !! b = Some tp.2)
    as Hzip.
  { intros [t p] Htp.
    apply list_elem_of_In, list_elem_of_lookup in Htp as (b & Hb).
    apply lookup_zip_with_Some in Hb as (t' & p' & Heq & Ht & Hp).
    injection Heq as -> ->. eauto. }
  rewrite (bind_ok _ _ _ (map (fun tp => VLong (h tp)) (zip targets indices))).
  2: { apply mapM_ok. intros [t [src J]] Htp.
       destruct (Hzip _ Htp) as (b & Ht & Hp). simpl in Ht, Hp.
       destruct (zipped_label_facts b t (src, J) Ht Hp)
         as (N & v & Hk & Hs & Hw & Hg & _ & (_ & HJ & _ & _ & Hr)).
       unfold getitem. rewrite Hk. unfold bind at 1. unfold ret at 1.
       simpl. rewrite (bind_ok _ _ _ _ (index0_ok v J N [] g Hs HJ Hr)).
       unfold ret, h, labels_of. simpl. rewrite Hk, Hg, andb_false_r.
       reflexivity. }
  unfold torch.v_cat.
  assert (zip targets indices <> []) as Hzne.
  { pose proof length_labels_indices as Hl. intros E.
    apply (f_equal length) in E. rewrite length_zip_with in E.
    apply Hne, nil_length_inv. simpl in E. lia. }
  replace (forallb torch.is_long
             (map (fun tp => VLong (h tp)) (zip targets indices))) with true
    by (symmetry; apply forallb_forall; intros v Hv;
        apply in_map_iff in Hv as (tp & <- & _); reflexivity).
  assert (concat (map torch.long_part
                    (map (fun tp => VLong (h tp)) (zip targets indices)))
          = map h (zip targets indices)) as ->.
  { rewrite map_map. simpl. clear.
    induction (zip targets indices) as [|tp l IH]; simpl; [reflexivity|].
    now rewrite IH. }
  assert (Forall (fun t : tensor Z =>
                    exists n, shape t = [n] /\
                              length (data t) = (n * torch.numel [])%nat)
                 (map h (zip targets indices))) as Hall.
  { apply Forall_forall. intros t' Ht'.
    apply list_elem_of_In, in_map_iff in Ht' as ([t [src J]] & <- & Htp).
    destruct (Hzip _ Htp) as (b & Ht & Hp). simpl in Ht, Hp.
    destruct (zipped_label_facts b t (src, J) Ht Hp)
      as (N & v & Hk & Hs & Hw & Hg & _ & (_ & HJ & _ & _ & Hr)).
    exists (length (data J)). split; [reflexivity|]. simpl.
    unfold labels_of. rewrite Hk.
    now apply (index0_wf v (data J) N []). }
  assert (map h (zip targets indices) <> []) as Hmne
    by (intros E; now apply map_eq_nil in E).
  rewrite (bind_ok _ _ _ _ (cat_ok _ [] g Hmne Hall)).
  unfold ret. do 2 f_equal. f_equal.
  - f_equal. rewrite <- (num_matched_targets Q Ns indices Hvalid).
    rewrite !map_map. simpl.
    rewrite <- (map_snd_enumerate indices) at 2. rewrite map_map.
    f_equal. apply map_zip_enumerate; [apply length_labels_indices|].
    reflexivity.
  - rewrite !map_map. simpl. unfold matched_labels, target_pairs.
    rewrite flat_map_of_flat_map, flat_map_concat_map. f_equal.
    apply map_zip_enumerate; [apply length_labels_indices|].
    intros b t [src J] Ht _. simpl. rewrite flat_map_of_map. unfold labels_of.
    apply flat_map_ext_in. intros j _. simpl. now rewrite Ht.
  - rewrite existsb_requires_grad_false; [apply andb_false_r|].
    apply Forall_forall. intros t' Ht'.
    now apply list_elem_of_In, in_map_iff in Ht' as (tp & <- & _).
Qed.

Lemma matched_labels_facts :
  length (matched_labels targets indices) = num_matched indices /\
  Forall (fun y => 0 <= y < Z.of_nat C)%Z (matched_labels targets indices).
Proof.
  unfold matched_labels.
  assert (forall bj, In bj (target_pairs indices) ->
            exists y, (0 <= y < Z.of_nat C)%Z /\
              match targets !! bj.1 with
              | Some t =>
                  match t !! "labels" with
                  | Some (VLong v) => torch.row 1 bj.2 (data v)
                  | _ => []
                  end
              | None => []
              end = [y]) as Hrow.
  { intros [b j] Hbj. unfold target_pairs in Hbj.
    apply in_flat_map in Hbj as (bp & Hbp & Hbj).
    apply in_map_iff in Hbj as (j' & Heq & Hj). injection Heq as <- <-.
    apply In_enumerate in Hbp.
    destruct (lookup_lt_is_Some_2 targets bp.1) as [t Ht].
    { rewrite length_labels_indices. now apply lookup_lt_Some in Hbp. }
    destruct (zipped_label_facts _ t _ Ht Hbp)
      as (N & v & Hk & Hs & Hw & Hg & Hy & (_ & _ & _ & _ & Hr)).
    simpl. rewrite Ht, Hk.
    rewrite Forall_forall in Hr. apply list_elem_of_In, Hr in Hj.
    unfold torch.wf in Hw. rewrite Hs in Hw. simpl in Hw.
    destruct (lookup_lt_is_Some_2 (data v) (Z.to_nat j')) as [y Hyv]; [lia|].
    exists y. split.
    - rewrite Forall_forall in Hy. apply Hy.
      eapply list_elem_of_lookup_2, Hyv.
    - unfold torch.row. rewrite Nat.mul_1_r.
      pose proof (take_drop_middle _ _ _ Hyv) as Hmid.
      rewrite <- Hmid at 1.
      rewrite drop_app_length' by (rewrite length_take; lia).
      reflexivity. }
  split.
  - rewrite (length_flat_map_const _ _ 1).
    + rewrite Nat.mul_1_r. rewrite <- (num_matched_targets Q Ns indices Hvalid).
      unfold target_pairs. rewrite <- (map_snd_enumerate indices) at 2.
      induction (enumerate indices) as [|bp l IH]; simpl; [reflexivity|].
      now rewrite length_app, length_map, IH.
    + intros bj Hbj. destruct (Hrow bj Hbj) as (y & _ & ->). reflexivity.
  - apply Forall_forall. intros y Hy.
    apply list_elem_of_In, in_flat_map in Hy as (bj & Hbj & Hy).
    destruct (Hrow bj Hbj) as (y' & Hy' & E). rewrite E in Hy.
    destruct Hy as [<-|[]]. assumption.
Qed.

End label_targets.

(** ** The indexed assignment of the labels *)

Lemma write_block_insert {A} (o : nat) (v : A) (d : list A) :
  (o < length d)%nat -> torch.write_block 1 o [v] d = <[o := v]> d.
Proof.
  intros H. unfold torch.write_block. rewrite Nat.mul_1_r.
  rewrite insert_take_drop by assumption.
  now replace (o + 1)%nat with (S o) by lia.
Qed.

Lemma written_cons {A} (o : nat) (v : A) ws p :
  written ((o, v) :: ws) p = if decide (o = p) then Some v else written ws p.
Proof.
  unfold written. cbn [list_find]. simpl.
  destruct (decide (o = p)); [reflexivity|].
  now destruct (list_find _ ws) as [[i [o' y]]|].
Qed.

Lemma written_None {A} (ws : list (nat * A)) p :
  ~ In p (map fst ws) -> written ws p = None.
Proof.
  induction ws as [|[o v] ws IH]; intros H; [reflexivity|].
  rewrite written_cons. simpl in H.
  destruct (decide (o = p)); [tauto|]. apply IH. tauto.
Qed.

Lemma writes_length {A} (ws : list (nat * A)) (d : list A) :
  length (foldl (fun d ov => <[ov.1 := ov.2]> d) d ws) = length d.
Proof.
  revert d. induction ws as [|[o v] ws IH]; intros d; [reflexivity|].
  simpl. now rewrite IH, length_insert.
Qed.

Lemma writes_lookup {A} (ws : list (nat * A)) (d : list A) (p : nat) :
  NoDup (map fst ws) -> (p < length d)%nat ->
  foldl (fun d ov => <[ov.1 := ov.2]> d) d ws !! p
  = match written ws p with Some y => Some y | None => d !! p end.
Proof.
  revert d. induction ws as [|[o v] ws IH]; intros d Hnd Hp; [reflexivity|].
  simpl in Hnd. apply NoDup_cons in Hnd as [Hin Hnd].
  cbn [foldl fst snd]. rewrite written_cons, IH
    by (rewrite ?length_insert; assumption).
  destruct (decide (o = p)) as [->|Hop].
  - rewrite written_None by (now rewrite <- list_elem_of_In).
    now apply list_lookup_insert_eq.
  - destruct (written ws p); [reflexivity|].
    now apply list_lookup_insert_ne.
Qed.

Lemma writes_blocks {A} (os : list nat) (vs : list A) (d : list A) :
  Forall (fun o => o < length d)%nat os ->
  foldl (fun d (ob : nat * list A) => torch.write_block 1 ob.1 ob.2 d) d
        (zip os (map (fun x => [x]) vs))
  = foldl (fun d ov => <[ov.1 := ov.2]> d) d (zip os vs).
Proof.
  intros Hos. revert vs d Hos.
  induction os as [|o os IH]; intros [|v vs] d Hos; try reflexivity.
  apply Forall_cons in Hos as [Ho Hos]. cbn [map zip zip_with foldl fst snd].
  rewrite write_block_insert by assumption. apply IH.
  now rewrite length_insert.
Qed.

(** The offset of a query determines the query. *)
Lemma offset_inj (Q b q b' q' : nat) :
  (q < Q)%nat -> (q' < Q)%nat -> (b' * Q + q' = b * Q + q)%nat ->
  b' = b /\ q' = q.
Proof.
  intros Hq Hq' E.
  destruct (Nat.lt_trichotomy b' b) as [H|[H|H]]; [nia | split; nia | nia].
Qed.

Lemma written_offsets {A} (Q : nat) (qp : list (nat * nat)) (ys : list A)
    (b q : nat) :
  Forall (fun bq : nat * nat => bq.2 < Q)%nat qp -> (q < Q)%nat ->
  written (zip (map (fun bq : nat * nat => (bq.1 * Q + bq.2)%nat) qp) ys)
          (b * Q + q)
  = match list_find (fun bqy : (nat * nat) * A => bqy.1 = (b, q)) (zip qp ys)
    with
    | Some (_, (_, y)) => Some y
    | None => None
    end.
Proof.
  intros Hqp Hq. revert ys.
  induction Hqp as [|[b' q'] qp Hq' _ IH]; intros [|y ys]; try reflexivity.
  cbn [map zip zip_with fst snd]. rewrite written_cons, IH.
  cbn [list_find]. simpl in *.
  destruct (decide (b' * Q + q' = b * Q + q)%nat) as [E|E].
  - destruct (offset_inj Q b q b' q' Hq Hq' E) as [-> ->].
    now rewrite decide_True.
  - rewrite decide_False by (intros [= -> ->]; lia).
    now destruct (list_find _ (zip_with pair qp ys)) as [[i [bq y']]|].
Qed.

Lemma lookup_grid {A} (B Q : nat) (f : nat -> nat -> A) (b q : nat) :
  (b < B)%nat -> (q < Q)%nat ->
  flat_map (fun b => map (f b) (seq 0 Q)) (seq 0 B) !! (b * Q + q)%nat
  = Some (f b q).
Proof.
  intros Hb Hq. rewrite flat_map_concat_map.
  assert (torch.row Q b (concat (map (fun b => map (f b) (seq 0 Q)) (seq 0 B)))
          = map (f b) (seq 0 Q)) as Hrow.
  { apply row_of_concat.
    - apply Forall_fmap, Forall_forall. intros b' _. simpl.
      now rewrite length_map, length_seq.
    - now rewrite list_lookup_fmap, lookup_seq_lt. }
  unfold torch.row in Hrow.
  apply (f_equal (fun l => l !! q)) in Hrow.
  rewrite lookup_take_lt, lookup_drop in Hrow by assumption.
  rewrite Hrow, list_lookup_fmap, lookup_seq_lt by assumption. reflexivity.
Qed.

Lemma length_grid {A} (B Q : nat) (f : nat -> nat -> A) :
  length (flat_map (fun b => map (f b) (seq 0 Q)) (seq 0 B)) = (B * Q)%nat.
Proof.
  rewrite (length_flat_map_const _ _ Q), length_seq; [reflexivity|].
  intros b _. now rewrite length_map, length_seq.
Qed.

Lemma query_pairs_facts (B Q : nat) (indices : index_pairs) :
  queries_in_range B Q indices ->
  length (query_pairs indices) = num_matched indices /\
  Forall (fun bq : nat * nat => bq.1 < B /\ bq.2 < Q)%nat (query_pairs indices).
Proof.
  intros [HB HQ]. split.
  - unfold query_pairs, num_matched.
    rewrite <- (map_snd_enumerate indices) at 2.
    induction (enumerate indices) as [|bp l IH]; simpl; [reflexivity|].
    now rewrite length_app, length_map, IH.
  - apply Forall_forall. intros [b q] Hbq%list_elem_of_In.
    unfold query_pairs in Hbq.
    apply in_flat_map in Hbq as (bp & Hbp & Hbq).
    apply in_map_iff in Hbq as (q' & Heq & Hq). injection Heq as <- <-.
    apply In_enumerate in Hbp. simpl.
    split; [apply lookup_lt_Some in Hbp; lia|].
    rewrite Forall_forall in HQ.
    assert (bp.2 ∈ indices) as Hin by (eapply list_elem_of_lookup_2, Hbp).
    specialize (HQ _ Hin). rewrite Forall_forall in HQ.
    apply list_elem_of_In, HQ in Hq. lia.
Qed.

(** [target_classes[idx] = o] on the tensor filled with [c]: a matched
    query gets the value assigned to it, the others keep [c]. *)
Lemma index_put_classes (c : Z) (B Q : nat) (indices : index_pairs)
    (ys : list Z) g :
  queries_in_range B Q indices -> NoDup (query_pairs indices) ->
  length ys = num_matched indices ->
  torch.index_put2 (Tensor [B; Q] (replicate (B * Q) c) false)
    (Tensor [num_matched indices] (batch_index indices) false,
     Tensor [num_matched indices] (src_index indices) false)
    (Tensor [num_matched indices] ys false) g
  = Ok (Tensor [B; Q]
          (flat_map (fun b =>
             map (fun q =>
                    match list_find (fun bqy : (nat * nat) * Z => bqy.1 = (b, q))
                                    (zip (query_pairs indices) ys) with
                    | Some (_, (_, y)) => y
                    | None => c
                    end) (seq 0 Q)) (seq 0 B))
          false).
Proof.
  intros Hr Hnd Hys. destruct (query_pairs_facts B Q indices Hr) as [Hlen Hqp].
  unfold torch.index_put2, torch.index_grid. cbn [shape data fst snd].
  rewrite decide_True by reflexivity. unfold bind at 1, ret at 1.
  rewrite (bind_ok _ _ _ _ (offsets_matched B Q indices g Hr)).
  unfold torch.assigned. cbn [shape data app].
  rewrite decide_True by reflexivity. unfold bind at 1, ret at 1.
  unfold ret. do 2 f_equal. cbn [torch.numel foldr].
  rewrite length_map, Hlen, chunks_one by assumption.
  set (off := fun bq : nat * nat => (bq.1 * Q + bq.2)%nat).
  assert (Forall (fun o => o < length (replicate (B * Q) c))%nat
            (map off (query_pairs indices))) as Hos.
  { apply Forall_fmap. eapply Forall_impl; [exact Hqp|].
    intros [b q] [Hb Hq]. rewrite length_replicate. unfold off. simpl in *. nia. }
  rewrite writes_blocks by assumption.
  assert (NoDup (map fst (zip (map off (query_pairs indices)) ys))) as Hnd'.
  { change (NoDup ((zip (off <$> query_pairs indices) ys).*1)).
    rewrite fst_zip by (rewrite length_fmap; lia).
    apply NoDup_fmap_2_strong; [|assumption].
    intros [b q] [b' q'] Hin Hin' E. rewrite Forall_forall in Hqp.
    destruct (Hqp _ Hin) as [_ Hq]. destruct (Hqp _ Hin') as [_ Hq'].
    unfold off in E. simpl in *.
    now destruct (offset_inj Q b' q' b q Hq' Hq E) as [-> ->]. }
  apply list_eq. intros p.
  destruct (decide (p < B * Q)%nat) as [Hp|Hp].
  - assert (Q <> 0%nat) as HQ0 by lia.
    pose proof (Nat.div_mod_eq p Q) as Hdm.
    pose proof (Nat.mod_upper_bound p Q HQ0) as Hq.
    assert (p / Q < B)%nat as Hb by (apply Nat.Div0.div_lt_upper_bound; lia).
    replace p with (p / Q * Q + p mod Q)%nat at 1 2 by lia.
    rewrite writes_lookup
      by (rewrite ?length_replicate; first [assumption | lia]).
    unfold off. rewrite written_offsets; [|
      eapply Forall_impl; [exact Hqp|]; intros bq [_ H]; exact H | assumption].
    rewrite (lookup_grid B Q _ (p / Q) (p mod Q)) by assumption.
    destruct (list_find _ _) as [[i [bq y]]|]; [reflexivity|].
    apply lookup_replicate_2. lia.
  - rewrite !lookup_ge_None_2; [reflexivity| |].
    + rewrite length_grid. lia.
    + rewrite writes_length, length_replicate. lia.
Qed.

(** ** Class vectors of a transposed batch *)

Section transpose.
Context {A : Type}.
Implicit Types (d blk : list A).

Lemma row_row (k i j : nat) d :
  (j < k)%nat -> torch.row 1 (i * k + j) d = torch.row 1 j (torch.row k i d).
Proof.
  intros Hj. unfold torch.row. rewrite !Nat.mul_1_r.
  rewrite skipn_firstn_comm, take_take, drop_drop.
  now rewrite Nat.min_l by lia.
Qed.

Lemma flat_map_rows_one (K : nat) d :
  length d = K -> flat_map (fun ci => torch.row 1 ci d) (seq 0 K) = d.
Proof.
  intros Hd. transitivity (concat (torch.chunks 1 K d));
    [|apply chunks_concat; lia].
  now rewrite chunks_seq, flat_map_concat_map.
Qed.

Lemma column_length (Q K j : nat) blk :
  length blk = (Q * K)%nat -> (j < K)%nat ->
  length (flat_map (fun r => torch.row 1 j r) (torch.chunks K Q blk)) = Q.
Proof.
  intros Hblk Hj. rewrite (length_flat_map_const _ _ 1).
  - rewrite chunks_length. lia.
  - intros r Hr. pose proof (chunks_Forall_length K Q blk Hblk) as Hall.
    rewrite Forall_forall in Hall. apply list_elem_of_In, Hall in Hr.
    apply row_length. lia.
Qed.

Lemma transposed_length (Q K : nat) blk :
  length blk = (Q * K)%nat -> length (transposed Q K blk) = (K * Q)%nat.
Proof.
  intros Hblk. unfold transposed.
  rewrite (length_flat_map_const _ _ Q), length_seq; [reflexivity|].
  intros j Hj%in_seq. apply column_length; [assumption | lia].
Qed.

Lemma transposed_entry (Q K ci pos : nat) blk :
  length blk = (Q * K)%nat -> (ci < K)%nat -> (pos < Q)%nat ->
  torch.row 1 (ci * Q + pos) (transposed Q K blk)
  = torch.row 1 ci (torch.row K pos blk).
Proof.
  intros Hblk Hci Hpos. rewrite row_row by assumption.
  unfold transposed. rewrite flat_map_concat_map.
  rewrite (row_of_concat Q _ ci
             (flat_map (fun r => torch.row 1 ci r) (torch.chunks K Q blk))).
  - rewrite flat_map_concat_map. apply row_of_concat.
    + apply Forall_fmap, Forall_forall. intros r Hr. simpl.
      pose proof (chunks_Forall_length K Q blk Hblk) as Hall.
      rewrite Forall_forall in Hall. apply Hall in Hr.
      apply row_length. lia.
    + now rewrite list_lookup_fmap, chunks_row.
  - apply Forall_fmap, Forall_forall. intros j Hj%elem_of_seq. simpl.
    apply column_length; [assumption | lia].
  - now rewrite list_lookup_fmap, lookup_seq_lt.
Qed.

Lemma class_vectors_transposed (B Q K : nat) d :
  length d = (B * (Q * K))%nat ->
  F.class_vectors B K Q
    (flat_map (transposed Q K) (torch.chunks (Q * K) B d))
  = torch.chunks K (B * Q) d.
Proof.
  intros Hd. unfold F.class_vectors.
  pose proof (chunks_Forall_length (Q * K) B d Hd) as Hall.
  pose proof (chunks_length (Q * K) B d) as HlenL.
  rewrite chunks_chunks.
  set (L := torch.chunks (Q * K) B d) in *.
  rewrite (flat_map_concat_map (transposed Q K)).
  rewrite <- HlenL at 1.
  rewrite <- (length_map (transposed Q K) L).
  rewrite chunks_of_concat.
  - rewrite flat_map_of_map, flat_map_concat_map. f_equal.
    apply map_ext_in. intros blk Hblk.
    rewrite Forall_forall in Hall. apply list_elem_of_In, Hall in Hblk.
    rewrite chunks_seq. apply map_ext_in. intros pos Hpos%in_seq.
    rewrite <- (flat_map_rows_one K (torch.row K pos blk))
      by (apply row_length; nia).
    apply flat_map_ext_in. intros ci Hci%in_seq.
    apply transposed_entry; [assumption | lia..].
  - apply Forall_fmap. eapply Forall_impl; [exact Hall|].
    intros blk Hblk. simpl. now apply transposed_length.
Qed.

End transpose.

(** ** The accumulation of the result *)

Lemma merge_app ds1 ds2 acc : merge (ds1 ++ ds2) acc = merge ds2 (merge ds1 acc).
Proof. apply foldl_app. Qed.

Lemma merge_lookup_origin ds acc (k : string) v :
  merge ds acc !! k = Some v ->
  (exists d, In d ds /\ d !! k = Some v) \/ acc !! k = Some v.
Proof.
  revert acc. induction ds as [|d ds IH]; intros acc H; [now right|].
  simpl in H. apply IH in H as [(d' & Hin & Hd')|H].
  - left. exists d'. split; [now right | assumption].
  - apply lookup_union_Some_raw in H as [H|[_ H]]; [|now right].
    left. exists d. split; [now left | assumption].
Qed.

Lemma merge_lookup_acc ds acc (k : string) v :
  acc !! k = Some v ->
  (forall d' v', In d' ds -> d' !! k = Some v' -> v' = v) ->
  merge ds acc !! k = Some v.
Proof.
  revert acc. induction ds as [|d ds IH]; intros acc Ha Hc; [assumption|].
  simpl. apply IH; [|intros; eapply Hc; [right|]; eassumption].
  destruct (d !! k) as [v'|] eqn:E.
  - rewrite (lookup_union_Some_l _ _ _ _ E). f_equal.
    apply (Hc d v'); [now left | assumption].
  - rewrite lookup_union_r by assumption. assumption.
Qed.

Lemma merge_lookup_in ds acc (k : string) d v :
  In d ds -> d !! k = Some v ->
  (forall d' v', In d' ds -> d' !! k = Some v' -> v' = v) ->
  merge ds acc !! k = Some v.
Proof.
  revert acc. induction ds as [|d0 ds IH]; intros acc Hin Hd Hc; [destruct Hin|].
  simpl. destruct Hin as [->|Hin].
  - apply merge_lookup_acc; [now apply lookup_union_Some_l|].
    intros; eapply Hc; [right|]; eassumption.
  - apply IH; [assumption..|]. intros; eapply Hc; [right|]; eassumption.
Qed.

Lemma merge_lookup_is_Some ds acc (k : string) d :
  In d ds -> is_Some (d !! k) -> is_Some (merge ds acc !! k).
Proof.
  revert acc. induction ds as [|d0 ds IH]; intros acc Hin Hd; [destruct Hin|].
  simpl. destruct Hin as [->|Hin]; [|now apply IH].
  clear IH. destruct Hd as [v Hv].
  assert (is_Some ((d ∪ acc) !! k)) as Ha
    by (exists v; now apply lookup_union_Some_l).
  revert Ha. generalize (d ∪ acc). clear. induction ds as [|d ds IH];
    intros acc [v Hv]; [now exists v|].
  simpl. apply IH. destruct (d !! k) as [v'|] eqn:E.
  - exists v'. now apply lookup_union_Some_l.
  - exists v. now rewrite lookup_union_r.
Qed.

(** A loop that updates the result with what each call returns. *)
Lemma foldM_update_inv {A} (f : A -> M loss_dict) (rn : loss_dict -> loss_dict)
    (l : list A) (acc : loss_dict) g res :
  foldM (fun (acc : loss_dict) x => do d <- f x; ret (rn d ∪ acc)) acc l g
  = Ok res ->
  exists ds, Forall2 (fun x d => f x g = Ok d) l ds /\
             res = merge (map rn ds) acc.
Proof.
  revert acc. induction l as [|x l IH]; simpl; intros acc H.
  - exists []. split; [constructor | now inversion H].
  - apply bind_inv in H as (acc' & Hx & H).
    apply bind_inv in Hx as (d & Hd & Hx). inversion Hx; subst acc'.
    apply IH in H as (ds & Hds & ->).
    exists (d :: ds). split; [now constructor | reflexivity].
Qed.

(** A loop whose body [continue]s on some elements runs on the others. *)
Lemma foldM_skip {A S} (P : A -> Prop) `{!forall x, Decision (P x)}
    (F : S -> A -> M S) (l : list A) (acc : S) g :
  foldM (fun acc x => if decide (P x) then ret acc else F acc x) acc l g
  = foldM F acc (filter (fun x => ~ P x) l) g.
Proof.
  revert acc. induction l as [|x l IH]; intros acc; [reflexivity|].
  simpl. rewrite filter_cons. destruct (decide (P x)) as [Hp|Hp].
  - rewrite decide_False by tauto. unfold bind, ret. apply IH.
  - rewrite decide_True by assumption. simpl. unfold bind.
    destruct (F acc x g); [apply IH | reflexivity].
Qed.

Section forward_structure.

Variable ext : imports.
Variable self : SetCriterion.criterion.
Variable get_loss : string -> SetCriterion.loss_fn.
Variable targets : list target.
Variable nb : R.
Variable g : bool.

Lemma layer_loop_inv i aux ind (acc : loss_dict) res :
  foldM (fun (losses : loss_dict) loss =>
           if decide (loss = "masks") then ret losses
           else
             let kwargs := if decide (loss = "labels")
                           then Some false else None in
             do l_dict <- get_loss loss aux targets ind nb kwargs;
             ret (SetCriterion.with_suffix i l_dict ∪ losses))
        acc (SetCriterion.losses self) g = Ok res ->
  exists ds, layer_calls get_loss self targets nb g aux ind ds /\
             res = merge (map (SetCriterion.with_suffix i) ds) acc.
Proof.
  intros H.
  rewrite (foldM_skip (fun loss => loss = "masks")
             (fun (losses : loss_dict) loss =>
                do l_dict <- get_loss loss aux targets ind nb (aux_kwargs loss);
                ret (SetCriterion.with_suffix i l_dict ∪ losses))) in H.
  now apply (foldM_update_inv
               (fun loss => get_loss loss aux targets ind nb (aux_kwargs loss)))
    in H.
Qed.

Lemma layers_loop_inv (l : list (nat * bundle)) (acc : loss_dict) res :
  foldM (fun (losses : loss_dict) '(i, aux_outputs) =>
           do indices <- SetCriterion.matcher self aux_outputs targets;
           foldM (fun (losses : loss_dict) loss =>
                    if decide (loss = "masks") then ret losses
                    else
                      let kwargs := if decide (loss = "labels")
                                    then Some false else None in
                      do l_dict <- get_loss loss aux_outputs targets
                                     indices nb kwargs;
                      ret (SetCriterion.with_suffix i l_dict ∪ losses))
                 losses (SetCriterion.losses self))
        acc l g = Ok res ->
  exists layers,
    Forall2 (fun (ia : nat * bundle) (L : index_pairs * list loss_dict) =>
               SetCriterion.matcher self ia.2 targets g = Ok L.1 /\
               layer_calls get_loss self targets nb g ia.2 L.1 L.2)
            l layers /\
    res = merge (suffixed l layers) acc.
Proof.
  revert acc. induction l as [|[i aux] l IH]; simpl; intros acc H.
  - exists []. split; [constructor | now inversion H].
  - apply bind_inv in H as (acc' & Hx & H).
    apply bind_inv in Hx as (ind & Hm & Hx).
    apply layer_loop_inv in Hx as (ds & Hds & ->).
    apply IH in H as (layers & Hl & ->).
    exists ((ind, ds) :: layers). split; [constructor; [split|]; assumption|].
    unfold suffixed. simpl. now rewrite merge_app.
Qed.

(** The structure of a run of [forward] that returned, on outputs with
    auxiliary layers. *)
Lemma forward_with_inv (outputs : gmap string outval) auxs res :
  SetCriterion.normalization ext outputs targets g = Ok nb ->
  SetCriterion.forward_with ext self get_loss outputs targets g = Ok res ->
  outputs !! "aux_outputs" = Some (OList auxs) ->
  exists indices finals layers,
    Forall2 (fun loss d => get_loss loss (tensors outputs) targets indices
                             nb None g = Ok d)
            (SetCriterion.losses self) finals /\
    Forall2 (fun (ia : nat * bundle) (L : index_pairs * list loss_dict) =>
               SetCriterion.matcher self ia.2 targets g = Ok L.1 /\
               layer_calls get_loss self targets nb g ia.2 L.1 L.2)
            (enumerate auxs) layers /\
    res = merge (finals ++ suffixed (enumerate auxs) layers) ∅.
Proof.
  intros Hn H Ha. unfold SetCriterion.forward_with in H.
  apply bind_inv in H as (indices & _ & H).
  rewrite (bind_ok _ _ _ _ Hn) in H.
  apply bind_inv in H as (base & Hb & H).
  apply (foldM_update_inv
           (fun loss => get_loss loss (tensors outputs) targets indices nb None)
           (fun d => d)) in Hb as (finals & Hf & ->).
  rewrite map_id in H.
  unfold contains in H. rewrite Ha in H.
  rewrite bool_decide_eq_true_2 in H by eauto.
  rewrite (bind_ok _ _ _ auxs) in H by reflexivity.
  apply layers_loop_inv in H as (layers & Hl & ->).
  exists indices, finals, layers. now rewrite merge_app.
Qed.

(** The structure of a run of [forward] that returned, with or without
    auxiliary layers. *)
Lemma forward_with_calls (outputs : gmap string outval) res :
  SetCriterion.normalization ext outputs targets g = Ok nb ->
  SetCriterion.forward_with ext self get_loss outputs targets g = Ok res ->
  exists indices finals,
    SetCriterion.matcher self (outputs_without_aux outputs) targets g
    = Ok indices /\
    Forall2 (fun loss d => get_loss loss (tensors outputs) targets indices
                             nb None g = Ok d)
            (SetCriterion.losses self) finals /\
    (outputs !! "aux_outputs" = None -> res = merge finals ∅) /\
    (forall auxs,
       outputs !! "aux_outputs" = Some (OList auxs) ->
       exists layers,
         Forall2 (fun (ia : nat * bundle)
                      (L : index_pairs * list loss_dict) =>
                    SetCriterion.matcher self ia.2 targets g = Ok L.1 /\
                    layer_calls get_loss self targets nb g ia.2 L.1 L.2)
                 (enumerate auxs) layers /\
         res = merge (finals ++ suffixed (enumerate auxs) layers) ∅).
Proof.
  intros Hn H. unfold SetCriterion.forward_with in H.
  apply bind_inv in H as (indices & Hm & H).
  rewrite (bind_ok _ _ _ _ Hn) in H.
  apply bind_inv in H as (base & Hb & H).
  apply (foldM_update_inv
           (fun loss => get_loss loss (tensors outputs) targets indices nb None)
           (fun d => d)) in Hb as (finals & Hf & ->).
  rewrite map_id in H.
  exists indices, finals. split; [exact Hm|]. split; [exact Hf|].
  unfold contains in H. split.
  - intros Ha. rewrite Ha in H.
    rewrite bool_decide_eq_false_2 in H by (intros [? ?]; discriminate).
    unfold ret in H. now injection H as <-.
  - intros auxs Ha. rewrite Ha in H.
    rewrite bool_decide_eq_true_2 in H by eauto.
    rewrite (bind_ok _ _ _ auxs) in H by reflexivity.
    apply layers_loop_inv in H as (layers & Hl & ->).
    exists layers. split; [exact Hl|]. now rewrite merge_app.
Qed.

End forward_structure.

(** ** Missing fields and unknown loss names *)

Lemma fails_bind {A B} (m : M A) (k : A -> M B) g :
  fails (bind m k g) <-> fails (m g) \/ exists a, m g = Ok a /\ fails (k a g).
Proof.
  unfold bind. destruct (m g) as [a|e]; simpl.
  - split; [intros H; right; eauto | intros [[]|(a' & Ha & H)]; congruence].
  - split; [auto | intros _; exact I].
Qed.

Lemma fails_bind_l {A B} (m : M A) (k : A -> M B) g :
  fails (m g) -> fails (bind m k g).
Proof. intros H. apply fails_bind. now left. Qed.

(** One statement of a body either raises, and so does the body, or
    returns, and the rest of the body runs. *)
Ltac step :=
  cbv zeta;
  lazymatch goal with
  | |- fails (bind ?m ?k ?g) =>
      let a := fresh "a" in
      let E := fresh "E" in
      unfold bind at 1; destruct (m g) as [a|?] eqn:E; [| exact I]
  end.

(** Runs a body up to the statement that [H] says raises. *)
Ltac run_to H :=
  repeat first [ apply fails_bind_l; exact H | step ].

Lemma mapM_fails {A B} (f : A -> M B) (l : list A) (x : A) g :
  In x l -> fails (f x g) -> fails (mapM f l g).
Proof.
  induction l as [|y l IH]; simpl; [tauto|].
  intros [->|Hin] Hf.
  - now apply fails_bind_l.
  - step. apply fails_bind_l. auto.
Qed.

Lemma getitem_missing {V} (d : gmap string V) k g :
  d !! k = None -> fails (getitem d k g).
Proof. unfold getitem. intros ->. exact I. Qed.

Lemma assert_contains_missing {V} (d : gmap string V) k g :
  d !! k = None -> fails (assert (contains d k) g).
Proof.
  intros H. unfold contains. rewrite H.
  rewrite bool_decide_eq_false_2; [exact I | intros [? ?]; discriminate].
Qed.

Section missing_fields.

Variable ext : imports.
Variable self : SetCriterion.criterion.

(** A target that the comprehension over [zip(targets, indices)] reaches
    and that lacks the key makes it raise. *)
Lemma cat_targets_missing key (targets : list target) indices (t : target) i g :
  targets !! i = Some t -> (i < length indices)%nat -> t !! key = None ->
  fails (SetCriterion.cat_targets key targets indices g).
Proof.
  intros Ht Hi Hk. unfold SetCriterion.cat_targets. apply fails_bind_l.
  destruct (lookup_lt_is_Some_2 indices i Hi) as [[src J] HJ].
  apply (mapM_fails _ _ (t, (src, J))).
  - apply list_elem_of_In, list_elem_of_lookup. exists i.
    apply lookup_zip_with_Some. eauto.
  - simpl. apply fails_bind_l. now apply getitem_missing.
Qed.

(** The assertion on the outputs is the first statement of a body. *)
Ltac by_assert :=
  intros ? ? ? ? ? ?; apply fails_bind_l;
  now apply assert_contains_missing.

(** The comprehension over the targets raises somewhere in the body. *)
Ltac by_cat_targets key :=
  let H := fresh "H" in
  intros ? ts ix ? g i t Ht Hi Hk;
  pose proof (cat_targets_missing key ts ix t i g Ht Hi Hk) as H;
  run_to H.

Lemma loss_labels_requires log :
  requires_output
    (fun o t i n => SetCriterion.loss_labels ext self o t i n log)
    "pred_logits" /\
  requires_matched_target
    (fun o t i n => SetCriterion.loss_labels ext self o t i n log) "labels".
Proof.
  split; [by_assert|]. unfold SetCriterion.loss_labels.
  by_cat_targets "labels".
Qed.

Lemma loss_depth_requires :
  requires_output (SetCriterion.loss_depth_multi_bin self) "pred_depth_bin" /\
  requires_output (SetCriterion.loss_depth_multi_bin self) "pred_depth_delta" /\
  requires_matched_target (SetCriterion.loss_depth_multi_bin self) "depth".
Proof.
  split; [by_assert|]. split.
  - intros o t i n g H. unfold SetCriterion.loss_depth_multi_bin.
    step. apply fails_bind_l. now apply assert_contains_missing.
  - unfold SetCriterion.loss_depth_multi_bin. by_cat_targets "depth".
Qed.

Lemma loss_cardinality_requires :
  requires_output SetCriterion.loss_cardinality "pred_logits" /\
  requires_target SetCriterion.loss_cardinality "labels".
Proof.
  split.
  - intros o t i n g H. unfold SetCriterion.loss_cardinality, no_grad.
    apply fails_bind_l. now apply getitem_missing.
  - intros o ts ix n g t Ht Hk.
    unfold SetCriterion.loss_cardinality, no_grad.
    step. apply fails_bind_l. apply (mapM_fails _ _ t); [done|].
    apply fails_bind_l. now apply getitem_missing.
Qed.

Lemma loss_boxes_requires :
  requires_output (SetCriterion.loss_boxes ext) "pred_boxes" /\
  requires_matched_target (SetCriterion.loss_boxes ext) "boxes".
Proof.
  split; [by_assert|]. unfold SetCriterion.loss_boxes.
  by_cat_targets "boxes".
Qed.

Lemma loss_masks_requires :
  requires_output (SetCriterion.loss_masks ext) "pred_masks" /\
  requires_target (SetCriterion.loss_masks ext) "masks".
Proof.
  split; [by_assert|].
  intros o ts ix n g t Ht Hk. unfold SetCriterion.loss_masks.
  do 5 step. apply fails_bind_l. apply (mapM_fails _ _ t); [done|].
  now apply getitem_missing.
Qed.

Lemma loss_bev_requires :
  requires_output SetCriterion.loss_bev "pred_bev" /\
  requires_matched_target SetCriterion.loss_bev "bev".
Proof.
  split; [by_assert|]. unfold SetCriterion.loss_bev. by_cat_targets "bev".
Qed.

Lemma loss_head_requires :
  requires_output SetCriterion.loss_head "pred_head_bev" /\
  requires_matched_target SetCriterion.loss_head "bev".
Proof.
  split; [by_assert|]. unfold SetCriterion.loss_head. by_cat_targets "bev".
Qed.

Lemma loss_feet_requires :
  requires_output SetCriterion.loss_feet "pred_feet_bev" /\
  requires_matched_target SetCriterion.loss_feet "bev".
Proof.
  split; [by_assert|]. unfold SetCriterion.loss_feet. by_cat_targets "bev".
Qed.

Lemma loss_dims_requires :
  requires_output SetCriterion.loss_dims "pred_dim" /\
  requires_matched_target SetCriterion.loss_dims "dim".
Proof.
  split; [by_assert|]. unfold SetCriterion.loss_dims. by_cat_targets "dim".
Qed.

Lemma loss_angles_requires :
  requires_output (SetCriterion.loss_angles ext) "pred_angle" /\
  requires_matched_target (SetCriterion.loss_angles ext) "heading_bin" /\
  requires_matched_target (SetCriterion.loss_angles ext) "heading_res".
Proof.
  split; [|split].
  - intros o t i n g H. unfold SetCriterion.loss_angles.
    step. apply fails_bind_l. now apply getitem_missing.
  - unfold SetCriterion.loss_angles. by_cat_targets "heading_bin".
  - unfold SetCriterion.loss_angles. by_cat_targets "heading_res".
Qed.

(** A name outside the registry fails the assertion of [get_loss]. *)
Lemma get_loss_unknown loss o t i n kw g :
  ~ In loss registry ->
  SetCriterion.get_loss ext self loss o t i n kw g = Raise AssertionError.
Proof.
  intros H. unfold SetCriterion.get_loss.
  replace (SetCriterion.lookup_loss (SetCriterion.loss_map ext self) loss)
    with (@None SetCriterion.loss_fn); [reflexivity|].
  unfold registry in H. simpl in H. simpl.
  repeat (case_decide; [exfalso; apply H; auto 20|]).
  reflexivity.
Qed.

End missing_fields.

(** C7.  Every per-task loss raises when the key it reads is absent from the
    outputs, or from a target dictionary that it reaches, and [get_loss]
    dispatches the ten names of the registry to these losses and fails its
    assertion on any other name: no loss skips or defaults a missing
    field. *)
Theorem missing_field_or_unknown_loss_raises (ext : imports)
    (self : SetCriterion.criterion) :
  let get := SetCriterion.get_loss ext self in
  (* the registry of [get_loss] *)
  (forall loss o t i n kw g,
     ~ In loss registry -> get loss o t i n kw g = Raise AssertionError) /\
  (forall o t i n log,
     get "labels" o t i n (Some log)
     = SetCriterion.loss_labels ext self o t i n log) /\
  (forall o t i n,
     get "labels" o t i n None = SetCriterion.loss_labels ext self o t i n true /\
     get "cardinality" o t i n None = SetCriterion.loss_cardinality o t i n /\
     get "boxes" o t i n None = SetCriterion.loss_boxes ext o t i n /\
     get "masks" o t i n None = SetCriterion.loss_masks ext o t i n /\
     get "bev" o t i n None = SetCriterion.loss_bev o t i n /\
     get "dim" o t i n None = SetCriterion.loss_dims o t i n /\
     get "angle" o t i n None = SetCriterion.loss_angles ext o t i n /\
     get "depth" o t i n None = SetCriterion.loss_depth_multi_bin self o t i n /\
     get "head" o t i n None = SetCriterion.loss_head o t i n /\
     get "feet" o t i n None = SetCriterion.loss_feet o t i n) /\
  (* the fields each loss requires *)
  (forall log,
     let labels := fun o t i n => SetCriterion.loss_labels ext self o t i n log in
     requires_output labels "pred_logits" /\
     requires_matched_target labels "labels") /\
  (requires_output SetCriterion.loss_cardinality "pred_logits" /\
   requires_target SetCriterion.loss_cardinality "labels") /\
  (requires_output (SetCriterion.loss_boxes ext) "pred_boxes" /\
   requires_matched_target (SetCriterion.loss_boxes ext) "boxes") /\
  (requires_output (SetCriterion.loss_masks ext) "pred_masks" /\
   requires_target (SetCriterion.loss_masks ext) "masks") /\
  (requires_output SetCriterion.loss_bev "pred_bev" /\
   requires_matched_target SetCriterion.loss_bev "bev") /\
  (requires_output SetCriterion.loss_head "pred_head_bev" /\
   requires_matched_target SetCriterion.loss_head "bev") /\
  (requires_output SetCriterion.loss_feet "pred_feet_bev" /\
   requires_matched_target SetCriterion.loss_feet "bev") /\
  (requires_output SetCriterion.loss_dims "pred_dim" /\
   requires_matched_target SetCriterion.loss_dims "dim") /\
  (requires_output (SetCriterion.loss_angles ext) "pred_angle" /\
   requires_matched_target (SetCriterion.loss_angles ext) "heading_bin" /\
   requires_matched_target (SetCriterion.loss_angles ext) "heading_res") /\
  (requires_output (SetCriterion.loss_depth_multi_bin self) "pred_depth_bin" /\
   requires_output (SetCriterion.loss_depth_multi_bin self) "pred_depth_delta" /\
   requires_matched_target (SetCriterion.loss_depth_multi_bin self) "depth").
Proof.
  intros get. split; [intros; now apply get_loss_unknown|].
  split; [reflexivity|]. split; [intros; repeat split; reflexivity|].
  split; [intros; apply loss_labels_requires|].
  split; [apply loss_cardinality_requires|].
  split; [apply loss_boxes_requires|].
  split; [apply loss_masks_requires|].
  split; [apply loss_bev_requires|].
  split; [apply loss_head_requires|].
  split; [apply loss_feet_requires|].
  split; [apply loss_dims_requires|].
  split; [apply loss_angles_requires|].
  apply loss_depth_requires.
Qed.

(** ** The normalisation denominator *)

Section normalization.

Variable ext : imports.

Lemma count_labels_inv (targets : list target) g lens :
  mapM (fun t : target =>
          do l <- getitem t "labels"; SetCriterion.v_len l) targets g
  = Ok lens ->
  lens = map num_targets targets.
Proof.
  revert lens. induction targets as [|t ts IH]; simpl; intros lens H.
  - now inversion H.
  - apply bind_inv in H as (n & Hn & H).
    apply bind_inv in H as (ns & Hns & H). inversion H; subst.
    f_equal; [|now apply IH].
    apply bind_inv in Hn as (v & Hv & Hn).
    unfold getitem in Hv. unfold num_targets, SetCriterion.v_len in *.
    destruct (t !! "labels"); [|discriminate]. inversion Hv; subst.
    destruct (torch.v_shape v); now inversion Hn.
Qed.

Lemma count_labels_ok (targets : list target) g :
  labelled targets ->
  mapM (fun t : target =>
          do l <- getitem t "labels"; SetCriterion.v_len l) targets g
  = Ok (map num_targets targets).
Proof.
  intros H. apply mapM_ok. intros t Ht.
  apply list_elem_of_In in Ht.
  destruct (proj1 (Forall_forall _ _) H t Ht) as (v & n & s & Hv & Hs).
  unfold bind, getitem, num_targets, SetCriterion.v_len.
  rewrite Hv. unfold ret. now rewrite Hs.
Qed.

(** What the statements after the count compute. *)
Lemma normalization_tail (outputs : gmap string outval) targets g :
  size (tensors outputs) <> 0%nat ->
  (do_ SetCriterion.first_device outputs;
   let num_boxes : tensor R :=
     Tensor [1%nat] [INR (foldr Nat.add 0%nat (map num_targets targets))]
       false in
   do num_boxes <- (if is_dist_avail_and_initialized ext
                    then all_reduce ext num_boxes else ret num_boxes);
   do avg <- torch.div_scalar num_boxes (INR (get_world_size ext));
   do clamped <- torch.unop (fun x => Rmax x 1) avg;
   SetCriterion.item clamped) g
  = Ok (denominator ext targets).
Proof.
  intros Hne. unfold bind, SetCriterion.first_device.
  assert (size outputs <> 0%nat) as Hne'.
  { intros H0. apply map_size_empty_inv in H0. subst outputs.
    apply Hne. unfold tensors. now rewrite omap_empty. }
  rewrite decide_False by done. rewrite decide_False by done.
  unfold denominator, total_targets, ret.
  destruct (is_dist_avail_and_initialized ext); simpl;
    unfold SetCriterion.item, ret; simpl;
    rewrite Rmax_comm, ?Rplus_0_r; reflexivity.
Qed.

Lemma normalization_inv outputs targets g nb :
  SetCriterion.normalization ext outputs targets g = Ok nb ->
  nb = denominator ext targets.
Proof.
  unfold SetCriterion.normalization. intros H.
  apply bind_inv in H as (lens & Hlens & H).
  apply count_labels_inv in Hlens. subst lens.
  destruct (decide (size (tensors outputs) = 0%nat)) as [H0|H0].
  - apply bind_inv in H as (? & Hd & _).
    unfold SetCriterion.first_device in Hd.
    destruct (decide (size outputs = 0%nat)); [discriminate|].
    rewrite decide_True in Hd by done. discriminate.
  - rewrite normalization_tail in H by done. now inversion H.
Qed.

Lemma normalization_ok outputs targets g :
  labelled targets -> size (tensors outputs) <> 0%nat ->
  SetCriterion.normalization ext outputs targets g
  = Ok (denominator ext targets).
Proof.
  intros Hl Hne. unfold SetCriterion.normalization.
  rewrite (bind_ok _ _ _ _ (count_labels_ok targets g Hl)).
  now apply normalization_tail.
Qed.

End normalization.

(** C1.  [SetCriterion.forward] computes its normalisation once: whenever
    it is computed at all it equals [max(1, T / world_size)], with [T] the
    number of target objects of the batch, summed over the workers when a
    distributed context is active; every call of a loss, for the final layer
    and for the auxiliary layers alike, receives this one number: [forward]
    behaves as if each call were given [denominator], and in a run that
    returns, every requested loss has been called with [denominator], for
    the final layer with the matching of the outputs without
    ['aux_outputs'] and for every auxiliary layer with the matching of that
    layer, and the result is made of what these calls returned and of
    nothing else; with two workers holding [N1] and [N2] targets the
    denominator is [max(1, (N1 + N2) / 2)]. *)
Theorem forward_passes_the_shared_denominator (ext : imports)
    (self : SetCriterion.criterion) (outputs : gmap string outval)
    (targets : list target) (g : bool) :
  (forall nb, SetCriterion.normalization ext outputs targets g = Ok nb ->
              nb = denominator ext targets) /\
  (labelled targets -> size (tensors outputs) <> 0%nat ->
   SetCriterion.normalization ext outputs targets g
   = Ok (denominator ext targets)) /\
  (forall get_loss : string -> SetCriterion.loss_fn,
     SetCriterion.forward_with ext self get_loss outputs targets g
     = SetCriterion.forward_with ext self
         (fun loss o t i _ kw => get_loss loss o t i (denominator ext targets) kw)
         outputs targets g) /\
  (forall (get_loss : string -> SetCriterion.loss_fn) (res : loss_dict),
     SetCriterion.forward_with ext self get_loss outputs targets g = Ok res ->
     exists indices finals,
       SetCriterion.matcher self (outputs_without_aux outputs) targets g
       = Ok indices /\
       Forall2 (fun loss d =>
                  get_loss loss (tensors outputs) targets indices
                    (denominator ext targets) None g = Ok d)
               (SetCriterion.losses self) finals /\
       (outputs !! "aux_outputs" = None -> res = merge finals ∅) /\
       (forall auxs,
          outputs !! "aux_outputs" = Some (OList auxs) ->
          exists layers,
            Forall2 (fun (ia : nat * bundle)
                         (L : index_pairs * list loss_dict) =>
                       SetCriterion.matcher self ia.2 targets g = Ok L.1 /\
                       layer_calls get_loss self targets
                         (denominator ext targets) g ia.2 L.1 L.2)
                    (enumerate auxs) layers /\
            res = merge (finals ++ suffixed (enumerate auxs) layers) ∅)) /\
  (forall N2 : nat,
     is_dist_avail_and_initialized ext = true ->
     get_world_size ext = 2%nat -> peers ext = [INR N2] ->
     denominator ext targets
     = Rmax 1 ((INR (foldr Nat.add 0%nat (map num_targets targets)) + INR N2) / 2)).
Proof.
  split; [intros nb; apply normalization_inv|].
  split; [apply normalization_ok|]. split; [|split].
  - intros get_loss. unfold SetCriterion.forward_with.
    match goal with
    | |- context [SetCriterion.matcher self ?b targets] =>
        destruct (SetCriterion.matcher self b targets g) as [indices|] eqn:Em
    end;
      [rewrite !(bind_ok _ _ _ _ Em) | now rewrite !(bind_raise _ _ _ _ Em)].
    destruct (SetCriterion.normalization ext outputs targets g) as [nb|] eqn:E;
      [rewrite !(bind_ok _ _ _ _ E) | now rewrite !(bind_raise _ _ _ _ E)].
    apply normalization_inv in E. subst nb. reflexivity.
  - intros get_loss res Hrun.
    assert (SetCriterion.normalization ext outputs targets g
            = Ok (denominator ext targets)) as Hn.
    { pose proof Hrun as H. unfold SetCriterion.forward_with in H.
      apply bind_inv in H as (? & _ & H).
      apply bind_inv in H as (nb & Hn & _).
      now rewrite (normalization_inv _ _ _ _ _ Hn) in Hn. }
    exact (forward_with_calls ext self get_loss targets _ g outputs res Hn
             Hrun).
  - intros N2 Hd Hw Hp. unfold denominator, total_targets.
    rewrite Hd, Hw, Hp. simpl. do 2 f_equal. lra.
Qed.

(** Two workers, with three and five target objects: the denominator is
    four on both, not the local count. *)
Example two_workers_denominator :
  let t3 : target := {[ "labels" := VLong (Tensor [3%nat] [1; 2; 3]%Z false) ]} in
  forall ext, is_dist_avail_and_initialized ext = true ->
    get_world_size ext = 2%nat -> peers ext = [5%R] ->
    denominator ext [t3] = 4%R.
Proof.
  intros t3 ext Hd Hw Hp. unfold denominator, total_targets.
  rewrite Hd, Hw, Hp.
  assert (foldr Nat.add 0%nat (map num_targets [t3]) = 3%nat) as ->
    by reflexivity.
  unfold sum_R. simpl. rewrite Rmax_right; lra.
Qed.

(** ** Layer suffixes *)

Lemma append_cons (c : ascii) (s t : string) :
  String c s +:+ t = String c (s +:+ t).
Proof. reflexivity. Qed.

Lemma append_nil (t : string) : "" +:+ t = t.
Proof. reflexivity. Qed.

Lemma digits_no_underscore (d : Decimal.uint) :
  no_underscore (NilEmpty.string_of_uint d).
Proof. induction d; simpl; (split; [discriminate | assumption]) || exact I. Qed.

Lemma underscore_in_append (s t : string) :
  ~ no_underscore (s +:+ String "_" t).
Proof.
  induction s as [|c s IH]; rewrite ?append_cons, ?append_nil; simpl;
    intros [H1 H2]; auto.
Qed.

(** A name splits in one way only at the underscore of its suffix. *)
Lemma append_underscore_inj (s s' d d' : string) :
  no_underscore d -> no_underscore d' ->
  s +:+ String "_" d = s' +:+ String "_" d' -> s = s' /\ d = d'.
Proof.
  intros Hd Hd'. revert s'. induction s as [|c s IH]; intros [|c' s'] H;
    rewrite ?append_cons, ?append_nil in H.
  - inversion H. auto.
  - inversion H; subst. now apply underscore_in_append in Hd.
  - inversion H; subst. now apply underscore_in_append in Hd'.
  - inversion H; subst. destruct (IH s') as [-> ->]; auto.
Qed.

Lemma suffix_inj_both (k k' : string) (i j : nat) :
  k +:+ suffix i = k' +:+ suffix j -> k = k' /\ i = j.
Proof.
  unfold suffix. rewrite !append_cons, !append_nil. intros H.
  apply append_underscore_inj in H as [-> H]; try apply digits_no_underscore.
  split; [reflexivity|]. apply Unsigned.to_uint_inj.
  assert (Some (Nat.to_uint i) = Some (Nat.to_uint j)) as Hs
    by (rewrite <- !NilEmpty.usu; now rewrite H).
  now inversion Hs.
Qed.

#[local] Instance with_suffix_inj (i : nat) :
  Inj (=) (=) (fun k : string => k +:+ suffix i).
Proof. intros k k' H. now apply suffix_inj_both in H. Qed.

Lemma append_assoc (s t u : string) : (s +:+ t) +:+ u = s +:+ t +:+ u.
Proof.
  induction s as [|c s IH]; [reflexivity|].
  rewrite !append_cons. now rewrite IH.
Qed.

Lemma prefix_append (s t : string) : String.prefix s (s +:+ t) = true.
Proof.
  induction s as [|c s IH]; rewrite ?append_cons, ?append_nil; simpl;
    [now destruct t|].
  destruct (ascii_dec c c); [assumption | contradiction].
Qed.

(** No name that a loss returns is another such name with a suffix. *)
Lemma name_not_suffixed (n k : string) (i : nat) :
  In n all_names -> In k all_names -> n <> k +:+ suffix i.
Proof.
  intros Hn Hk E.
  assert (String.prefix (k +:+ "_") n = true) as Hp.
  { rewrite E. unfold suffix. rewrite <- append_assoc. apply prefix_append. }
  clear E. unfold all_names in *. simpl in Hn, Hk.
  repeat (destruct Hn as [<-|Hn]);
    repeat (destruct Hk as [<-|Hk]); try discriminate; contradiction.
Qed.

Lemma names_in_all loss log k : In k (names loss log) -> In k all_names.
Proof.
  unfold names, all_names. repeat case_decide; try destruct log; simpl;
    intuition.
Qed.

(** A name belongs to one loss of the registry only. *)
Lemma names_owner loss loss' log log' k :
  In k (names loss log) -> In k (names loss' log') -> loss = loss'.
Proof.
  unfold names.
  repeat (case_decide; [subst loss|]); try destruct log; simpl;
    try tauto;
    repeat (case_decide; [subst loss'|]); try destruct log'; simpl;
    intuition; try discriminate; congruence.
Qed.

(** ** The names each loss returns *)

(** Inverts the statements of a body that returned. *)
Ltac inv_body H :=
  repeat first
    [ progress (cbv zeta in H)
    | apply bind_inv in H as (? & ? & H)
    | match type of H with
      | (let (_, _) := ?x in _) _ = Ok _ => destruct x
      | match ?x with (_, _) => _ end _ = Ok _ => destruct x
      end ];
  try (unfold ret in H; injection H as <-).

Lemma is_Some_singleton_iff {V} (k k' : string) (v : V) :
  is_Some (({[ k := v ]} : gmap string V) !! k') <-> k = k'.
Proof.
  destruct (decide (k = k')) as [->|Hne].
  - rewrite lookup_singleton_eq. split; eauto.
  - rewrite lookup_singleton_ne by done. split; [intros [? ?]; discriminate | done].
Qed.

Lemma is_Some_insert_iff {V} (m : gmap string V) (k k' : string) (v : V) :
  is_Some (<[ k := v ]> m !! k') <-> k = k' \/ is_Some (m !! k').
Proof.
  destruct (decide (k = k')) as [->|Hne].
  - rewrite lookup_insert_eq. split; eauto.
  - rewrite lookup_insert_ne by done. tauto.
Qed.

Section names.

Variable ext : imports.
Variable self : SetCriterion.criterion.

(** The body of a loss without keyword arguments that returned. *)
Ltac plain_loss Hr kw :=
  destruct kw; [discriminate|]; cbv beta iota delta [SetCriterion.no_kwargs] in Hr.

Lemma get_loss_names loss o t i n kw g d :
  SetCriterion.get_loss ext self loss o t i n kw g = Ok d ->
  forall k, is_Some (d !! k) <-> In k (names loss (default true kw)).
Proof.
  intros Hr k. destruct (decide (In loss registry)) as [Hin|Hnin].
  2: { now rewrite get_loss_unknown in Hr. }
  unfold registry in Hin. simpl in Hin.
  repeat (destruct Hin as [<-|Hin]); [..|contradiction].
  - change (SetCriterion.loss_labels ext self o t i n (default true kw) g
            = Ok d) in Hr.
    unfold SetCriterion.loss_labels in Hr.
    destruct (default true kw); inv_body Hr.
    + rewrite is_Some_insert_iff, is_Some_singleton_iff.
      change (names "labels" true) with ["class_error"; "loss_ce"].
      simpl. tauto.
    + rewrite is_Some_singleton_iff.
      change (names "labels" false) with ["loss_ce"]. simpl. tauto.
  - change (SetCriterion.no_kwargs SetCriterion.loss_cardinality o t i n kw g
            = Ok d) in Hr.
    plain_loss Hr kw. unfold SetCriterion.loss_cardinality, no_grad in Hr.
    inv_body Hr. rewrite is_Some_singleton_iff.
    change (names "cardinality" _) with ["cardinality_error"]. simpl. tauto.
  - change (SetCriterion.no_kwargs (SetCriterion.loss_boxes ext) o t i n kw g
            = Ok d) in Hr.
    plain_loss Hr kw. unfold SetCriterion.loss_boxes in Hr. inv_body Hr.
    rewrite is_Some_insert_iff, is_Some_singleton_iff.
    change (names "boxes" _) with ["loss_giou"; "loss_bbox"]. simpl. tauto.
  - change (SetCriterion.no_kwargs (SetCriterion.loss_masks ext) o t i n kw g
            = Ok d) in Hr.
    plain_loss Hr kw. unfold SetCriterion.loss_masks in Hr. inv_body Hr.
    rewrite is_Some_insert_iff, is_Some_singleton_iff.
    change (names "masks" _) with ["loss_dice"; "loss_mask"]. simpl. tauto.
  - change (SetCriterion.no_kwargs SetCriterion.loss_bev o t i n kw g = Ok d)
      in Hr.
    plain_loss Hr kw. unfold SetCriterion.loss_bev in Hr. inv_body Hr.
    rewrite is_Some_singleton_iff.
    change (names "bev" _) with ["loss_bev"]. simpl. tauto.
  - change (SetCriterion.no_kwargs SetCriterion.loss_dims o t i n kw g = Ok d)
      in Hr.
    plain_loss Hr kw. unfold SetCriterion.loss_dims in Hr. inv_body Hr.
    rewrite is_Some_singleton_iff.
    change (names "dim" _) with ["loss_dim"]. simpl. tauto.
  - change (SetCriterion.no_kwargs (SetCriterion.loss_angles ext) o t i n kw g
            = Ok d) in Hr.
    plain_loss Hr kw. unfold SetCriterion.loss_angles in Hr. inv_body Hr.
    rewrite is_Some_singleton_iff.
    change (names "angle" _) with ["loss_angle"]. simpl. tauto.
  - change (SetCriterion.no_kwargs (SetCriterion.loss_depth_multi_bin self)
              o t i n kw g = Ok d) in Hr.
    plain_loss Hr kw. unfold SetCriterion.loss_depth_multi_bin in Hr.
    inv_body Hr. rewrite is_Some_singleton_iff.
    change (names "depth" _) with ["loss_depth"]. simpl. tauto.
  - change (SetCriterion.no_kwargs SetCriterion.loss_head o t i n kw g = Ok d)
      in Hr.
    plain_loss Hr kw. unfold SetCriterion.loss_head in Hr. inv_body Hr.
    rewrite is_Some_singleton_iff.
    change (names "head" _) with ["loss_head_bev"]. simpl. tauto.
  - change (SetCriterion.no_kwargs SetCriterion.loss_feet o t i n kw g = Ok d)
      in Hr.
    plain_loss Hr kw. unfold SetCriterion.loss_feet in Hr. inv_body Hr.
    rewrite is_Some_singleton_iff.
    change (names "feet" _) with ["loss_feet_bev"]. simpl. tauto.
Qed.

End names.

Lemma In_suffixed l layers D :
  In D (suffixed l layers) <->
  exists j ia L d, l !! j = Some ia /\ layers !! j = Some L /\ In d L.2 /\
                   D = SetCriterion.with_suffix ia.1 d.
Proof.
  unfold suffixed. rewrite in_concat. split.
  - intros (ds & Hds & HD).
    apply list_elem_of_In, list_elem_of_lookup in Hds as (j & Hj).
    apply lookup_zip_with_Some in Hj as (ia & L & -> & Hia & HL).
    apply in_map_iff in HD as (d & <- & Hd).
    exists j, ia, L, d. auto.
  - intros (j & ia & L & d & Hia & HL & Hd & ->).
    exists (map (SetCriterion.with_suffix ia.1) L.2). split.
    + apply list_elem_of_In, list_elem_of_lookup. exists j.
      apply lookup_zip_with_Some. eauto.
    + now apply in_map.
Qed.

Lemma with_suffix_lookup i (d : loss_dict) (name : string) v :
  SetCriterion.with_suffix i d !! name = Some v <->
  exists key, name = key +:+ suffix i /\ d !! key = Some v.
Proof. unfold SetCriterion.with_suffix. apply lookup_kmap_Some, _. Qed.

Lemma names_aux_kwargs loss :
  names loss (default true (aux_kwargs loss)) = names loss false.
Proof.
  unfold aux_kwargs, names. destruct (decide (loss = "labels")); reflexivity.
Qed.

Lemma In_filter_not_masks loss (l : list string) :
  In loss (filter (fun loss => loss <> "masks") l) <-> In loss l /\ loss <> "masks".
Proof. rewrite <- !list_elem_of_In, list_elem_of_filter. tauto. Qed.

Section aux_names.

Variable ext : imports.
Variable self : SetCriterion.criterion.
Variable outputs : gmap string outval.
Variable targets : list target.
Variable g : bool.
Variable nb : R.
Variables (auxs : list bundle) (indices : index_pairs)
          (finals : list loss_dict)
          (layers : list (index_pairs * list loss_dict)).

Let get := SetCriterion.get_loss ext self.

Hypothesis Hfinals :
  Forall2 (fun loss d => get loss (tensors outputs) targets indices nb None g
                         = Ok d)
          (SetCriterion.losses self) finals.
Hypothesis Hlayers :
  Forall2 (fun (ia : nat * bundle) (L : index_pairs * list loss_dict) =>
             SetCriterion.matcher self ia.2 targets g = Ok L.1 /\
             layer_calls get self targets nb g ia.2 L.1 L.2)
          (enumerate auxs) layers.

(** Where an entry of a final-layer dictionary comes from. *)
Lemma final_entry D (name : string) :
  In D finals -> is_Some (D !! name) ->
  exists loss, In loss (SetCriterion.losses self) /\ In name (names loss true).
Proof.
  intros HD Hn. destruct (Forall2_In_r _ _ _ _ Hfinals HD) as (loss & Hl & Hg).
  exists loss. split; [assumption|].
  now apply (get_loss_names ext self _ _ _ _ _ _ _ _ Hg name).
Qed.

(** Where an entry of a suffixed dictionary comes from. *)
Lemma suffixed_entry D :
  In D (suffixed (enumerate auxs) layers) ->
  exists i aux L loss d,
    auxs !! i = Some aux /\ layers !! i = Some L /\
    In loss (SetCriterion.losses self) /\ loss <> "masks" /\
    get loss aux targets L.1 nb (aux_kwargs loss) g = Ok d /\
    D = SetCriterion.with_suffix i d.
Proof.
  intros HD. apply In_suffixed in HD as (j & [i aux] & L & d & Hia & HL & Hd & ->).
  apply enumerate_lookup in Hia as [Hi Ha]. simpl in *. subst i.
  destruct (Forall2_lookup_r _ _ _ _ _ Hlayers HL)
    as ([i' aux'] & Hia & _ & Hc).
  apply enumerate_lookup in Hia as [_ Ha']. simpl in *.
  rewrite Ha in Ha'. injection Ha' as <-.
  destruct (Forall2_In_r _ _ _ _ Hc Hd) as (loss & Hl & Hg).
  apply In_filter_not_masks in Hl as [Hl Hm].
  exists j, aux, L, loss, d. auto 10.
Qed.

(** No entry of the result overrides the entry of a layer with another
    value. *)
Lemma layer_entry_kept i aux L loss d key v :
  auxs !! i = Some aux -> layers !! i = Some L ->
  In loss (SetCriterion.losses self) -> loss <> "masks" ->
  get loss aux targets L.1 nb (aux_kwargs loss) g = Ok d ->
  d !! key = Some v ->
  merge (finals ++ suffixed (enumerate auxs) layers) ∅ !! (key +:+ suffix i)
  = Some v.
Proof.
  intros Ha HL Hl Hm Hg Hk.
  assert (In key (names loss false)) as Hkey.
  { rewrite <- names_aux_kwargs.
    apply (get_loss_names ext self _ _ _ _ _ _ _ _ Hg key). eauto. }
  assert (In d L.2) as Hd.
  { destruct (Forall2_lookup_r _ _ _ _ _ Hlayers HL)
      as ([i' aux'] & Hia & _ & Hc).
    apply enumerate_lookup in Hia as [_ Ha']. simpl in *.
    rewrite Ha in Ha'. injection Ha' as <-.
    assert (In loss (filter (fun loss => loss <> "masks")
                       (SetCriterion.losses self))) as Hf
      by now apply In_filter_not_masks.
    destruct (Forall2_In_l _ _ _ _ Hc Hf) as (d' & Hd' & Hg').
    assert (Ok d = Ok d') as Hdd by (rewrite <- Hg, <- Hg'; reflexivity).
    now injection Hdd as ->. }
  apply (merge_lookup_in _ _ _ (SetCriterion.with_suffix i d)).
  - apply in_or_app. right. apply In_suffixed.
    exists i, (i, aux), L, d. repeat split; [|assumption..].
    now apply enumerate_lookup.
  - apply with_suffix_lookup. eauto.
  - intros D' v' HD' Hv'. apply in_app_or in HD' as [HD'|HD'].
    + destruct (final_entry D' _ HD' (ex_intro _ v' Hv')) as (loss' & _ & Hn).
      exfalso. eapply name_not_suffixed; [| |reflexivity];
        eauto using names_in_all.
    + apply suffixed_entry in HD'
        as (j & aux' & L' & loss' & d' & Ha' & HL' & Hl' & Hm' & Hg' & ->).
      apply with_suffix_lookup in Hv' as (key' & Heq & Hv').
      apply suffix_inj_both in Heq as [<- <-].
      rewrite Ha in Ha'. inversion Ha'; subst aux'.
      rewrite HL in HL'. inversion HL'; subst L'.
      assert (In key (names loss' false)) as Hkey'.
      { rewrite <- names_aux_kwargs.
        apply (get_loss_names ext self _ _ _ _ _ _ _ _ Hg' key). eauto. }
      assert (loss = loss') as <- by (eapply names_owner; eassumption).
      assert (Ok d = Ok d') as Hdd by (rewrite <- Hg, <- Hg'; reflexivity).
      injection Hdd as <-. congruence.
Qed.

End aux_names.

(** C2.  On outputs with auxiliary layers, a run of [SetCriterion.forward]
    that returns has matched every auxiliary bundle on its own and, for
    every requested loss other than ['masks'], has entered what the loss
    returned for layer [i] under its names suffixed with [_i]; the result
    holds the final-layer entries and these suffixed entries only, so that
    no mask loss and no [class_error] appears with a layer suffix. *)
Theorem auxiliary_losses_are_suffixed (ext : imports)
    (self : SetCriterion.criterion) (outputs : gmap string outval)
    (targets : list target) (g : bool) (auxs : list bundle) (res : loss_dict) :
  SetCriterion.forward ext self outputs targets g = Ok res ->
  outputs !! "aux_outputs" = Some (OList auxs) ->
  (forall i aux, auxs !! i = Some aux ->
     exists indices,
       SetCriterion.matcher self aux targets g = Ok indices /\
       forall loss, In loss (SetCriterion.losses self) -> loss <> "masks" ->
         exists d,
           SetCriterion.get_loss ext self loss aux targets indices
             (denominator ext targets) (aux_kwargs loss) g = Ok d /\
           (forall key, is_Some (d !! key) <-> In key (names loss false)) /\
           (forall key v, d !! key = Some v ->
                          res !! (key +:+ suffix i) = Some v)) /\
  (forall name, is_Some (res !! name) ->
     (exists loss, In loss (SetCriterion.losses self) /\
                   In name (names loss true)) \/
     (exists i loss key,
        (i < length auxs)%nat /\ In loss (SetCriterion.losses self) /\
        loss <> "masks" /\ In key (names loss false) /\
        name = key +:+ suffix i)) /\
  (forall loss key, In loss (SetCriterion.losses self) ->
                    In key (names loss true) -> is_Some (res !! key)) /\
  (forall i, res !! ("loss_mask" +:+ suffix i) = None /\
             res !! ("loss_dice" +:+ suffix i) = None /\
             res !! ("class_error" +:+ suffix i) = None).
Proof.
  intros Hrun Haux.
  assert (SetCriterion.normalization ext outputs targets g
          = Ok (denominator ext targets)) as Hn.
  { pose proof Hrun as H. unfold SetCriterion.forward, SetCriterion.forward_with in H.
    apply bind_inv in H as (? & _ & H). apply bind_inv in H as (nb & Hn & _).
    now rewrite (normalization_inv _ _ _ _ _ Hn) in Hn. }
  destruct (forward_with_inv ext self _ targets _ g outputs auxs res Hn Hrun Haux)
    as (indices & finals & layers & Hf & Hl & ->).
  set (nb := denominator ext targets) in *.
  (* where the entries come from *)
  assert (forall name, is_Some (merge (finals ++ suffixed (enumerate auxs) layers) ∅
                                  !! name) ->
            (exists loss, In loss (SetCriterion.losses self) /\
                          In name (names loss true)) \/
            (exists i loss key,
               (i < length auxs)%nat /\ In loss (SetCriterion.losses self) /\
               loss <> "masks" /\ In key (names loss false) /\
               name = key +:+ suffix i)) as Horigin.
  { intros name [v Hv]. apply merge_lookup_origin in Hv as [(D & HD & Hv)|Hv];
      [|now rewrite lookup_empty in Hv].
    apply in_app_or in HD as [HD|HD].
    - left. eapply final_entry; eauto.
    - right.
      destruct (suffixed_entry ext self targets g nb auxs layers Hl D HD)
        as (i & aux & L & loss & d & Ha & HL & Hlo & Hm & Hg & ->).
      apply with_suffix_lookup in Hv as (key & -> & Hk).
      exists i, loss, key. repeat split; try assumption.
      + now apply lookup_lt_Some in Ha.
      + rewrite <- names_aux_kwargs.
        apply (get_loss_names ext self _ _ _ _ _ _ _ _ Hg key). eauto. }
  (* a suffixed name is no entry unless a layer entered it *)
  assert (forall key i, In key all_names ->
            (forall loss, loss <> "masks" -> ~ In key (names loss false)) ->
            merge (finals ++ suffixed (enumerate auxs) layers) ∅
              !! (key +:+ suffix i) = None) as Hnone.
  { intros key i Hall Hkey. apply eq_None_not_Some. intros Hs.
    apply Horigin in Hs as [(loss & _ & Hn')|(j & loss & key' & _ & _ & Hm & Hk & E)].
    - eapply name_not_suffixed; [| |reflexivity]; eauto using names_in_all.
    - apply suffix_inj_both in E as [<- _]. now apply (Hkey loss). }
  split; [|split; [exact Horigin|split]].
  - intros i aux Ha.
    assert (enumerate auxs !! i = Some (i, aux)) as Hia
      by now apply enumerate_lookup.
    destruct (Forall2_lookup_l _ _ _ _ _ Hl Hia) as ([ind ds] & HL & Hm & Hc).
    simpl in Hm, Hc. exists ind. split; [assumption|]. intros loss Hlo Hnm.
    assert (In loss (filter (fun loss => loss <> "masks")
                       (SetCriterion.losses self))) as Hfl
      by now apply In_filter_not_masks.
    destruct (Forall2_In_l _ _ _ _ Hc Hfl) as (d & Hd & Hg).
    exists d. split; [assumption|]. split.
    + intros key. rewrite <- names_aux_kwargs.
      apply (get_loss_names ext self _ _ _ _ _ _ _ _ Hg key).
    + intros key v Hk.
      eapply (layer_entry_kept ext self outputs targets g nb auxs indices
                finals layers Hf Hl i aux (ind, ds) loss d key v); eassumption.
  - intros loss key Hlo Hk.
    destruct (Forall2_In_l _ _ _ _ Hf Hlo) as (d & Hd & Hg).
    apply (merge_lookup_is_Some _ _ _ d); [apply in_or_app; now left|].
    now apply (get_loss_names ext self _ _ _ _ _ _ _ _ Hg key).
  - intros i. repeat split; apply Hnone; try (simpl; auto 20).
    + intros loss Hm Hin. apply Hm.
      apply (names_owner loss "masks" false false "loss_mask" Hin).
      simpl. auto.
    + intros loss Hm Hin. apply Hm.
      apply (names_owner loss "masks" false false "loss_dice" Hin).
      simpl. auto.
    + intros loss _ Hin.
      assert (loss = "labels") as ->
        by (apply (names_owner loss "labels" false true "class_error" Hin);
            simpl; auto).
      simpl in Hin. destruct Hin as [Hin|[]]. discriminate.
Qed.

(** The small instance: the final layer computes its mask loss, the two
    auxiliary bundles hold no mask prediction and are not asked for one. *)
Lemma auxiliary_losses_are_suffixed_witness :
  exists res,
    SetCriterion.forward Instance.imports_1 Instance.criterion_1
      Instance.outputs_1 [Instance.target_1] true = Ok res /\
    is_Some (res !! "loss_mask") /\ is_Some (res !! "class_error") /\
    res !! ("loss_mask" +:+ suffix 1) = None /\
    res !! ("class_error" +:+ suffix 1) = None.
Proof.
  destruct (SetCriterion.forward Instance.imports_1 Instance.criterion_1
              Instance.outputs_1 [Instance.target_1] true) as [res|] eqn:E;
    [|vm_compute in E; discriminate].
  exists res. split; [reflexivity|].
  destruct (auxiliary_losses_are_suffixed Instance.imports_1
              Instance.criterion_1 Instance.outputs_1 [Instance.target_1] true
              [Instance.layer_1; Instance.layer_1] res E eq_refl)
    as (_ & _ & Hfinal & Hnone).
  split; [apply (Hfinal "masks"); simpl; auto|].
  split; [apply (Hfinal "labels"); simpl; auto|].
  split; apply (Hnone 1%nat).
Defined.

(** ** The classification loss *)

(** The weights that [__init__] registers. *)
Lemma empty_weight_entry (C : nat) (eos : R) (y : Z) :
  (0 <= y < Z.of_nat (C + 1))%Z ->
  nth (Z.to_nat y) (<[C := eos]> (replicate (C + 1) 1%R)) 0%R
  = class_weight C eos y.
Proof.
  intros Hy. unfold class_weight. rewrite nth_lookup, list_lookup_insert.
  rewrite length_replicate.
  destruct (decide (y = Z.of_nat C)) as [->|Hne].
  - rewrite Nat2Z.id, decide_True by lia. reflexivity.
  - rewrite decide_False by lia.
    now rewrite lookup_replicate_2 by lia.
Qed.

Lemma map_zip_fst {A B C} (f : A -> B -> C) (xs : list A) (ys : list B) :
  map (fun xy : A * B => f xy.1 xy.2) (zip xs ys) = zip_with f xs ys.
Proof.
  revert ys. induction xs as [|x xs IH]; intros [|y ys]; simpl; try reflexivity.
  now rewrite IH.
Qed.

Lemma map_zip_snd {A B C} (f : B -> C) (xs : list A) (ys : list B) :
  length xs = length ys ->
  map (fun xy : A * B => f xy.2) (zip xs ys) = map f ys.
Proof.
  revert ys. induction xs as [|x xs IH]; intros [|y ys] H; simpl in *;
    try reflexivity; try discriminate.
  rewrite IH by lia. reflexivity.
Qed.

(** The weighted cross-entropy of a batch [B, K, Q], the transposition of
    the rows [d] of scores, against class indices in range. *)
Lemma cross_entropy_transposed (B Q K : nat) (d : list R) (ys : list Z)
    (w : list R) (rg : bool) g :
  length d = (B * (Q * K))%nat -> length ys = (B * Q)%nat ->
  Forall (fun y => 0 <= y < Z.of_nat K)%Z ys ->
  F.cross_entropy
    (Tensor [B; K; Q] (flat_map (transposed Q K) (torch.chunks (Q * K) B d)) rg)
    (Tensor [B; Q] ys false) (Tensor [K] w false) g
  = Ok (Tensor []
          [weighted_cross_entropy (fun y => nth (Z.to_nat y) w 0%R)
             (torch.chunks K (B * Q) d) ys]
          (g && rg)).
Proof.
  intros Hd Hys Hr. unfold F.cross_entropy, F.samples.
  cbn [shape data requires_grad]. rewrite decide_True by reflexivity.
  unfold bind at 1, ret at 1. rewrite decide_True by reflexivity.
  cbn [torch.numel foldr]. rewrite Nat.mul_1_r.
  rewrite class_vectors_transposed by assumption.
  set (w' := fun y => nth (Z.to_nat y) w 0%R).
  rewrite (bind_ok _ _ _
             (map (fun xy : list R * Z =>
                     ((w' xy.2 * - nth (Z.to_nat xy.2) (F.log_softmax_row xy.1) 0)%R,
                      w' xy.2))
                  (zip (torch.chunks K (B * Q) d) ys))).
  - unfold torch.mk. do 3 f_equal. unfold weighted_cross_entropy.
    rewrite !map_map. cbn [fst snd].
    rewrite (map_zip_fst
               (fun x y => (w' y * - nth (Z.to_nat y) (F.log_softmax_row x) 0)%R)).
    rewrite (map_zip_snd w') by (now rewrite chunks_length).
    reflexivity.
  - apply mapM_ok. intros [x y] Hxy. unfold F.nll.
    assert (0 <= y < Z.of_nat K)%Z as Hy.
    { rewrite Forall_forall in Hr. apply Hr.
      apply list_elem_of_In, list_elem_of_lookup in Hxy as (i & Hi).
      apply lookup_zip_with_Some in Hi as (x' & y' & Heq & _ & Hy').
      injection Heq as <- <-. eapply list_elem_of_lookup_2, Hy'. }
    rewrite decide_False by lia. rewrite decide_True by assumption.
    reflexivity.
Qed.

(** *** The target classes *)

Section target_classes.

Variables (C B Q : nat) (Ns : list nat).
Variables (targets : list target) (indices : index_pairs).
Hypothesis Hne : indices <> [].
Hypothesis HB : length Ns = B.
Hypothesis Hfield : label_field C Ns targets.
Hypothesis Hvalid : valid_matching Q Ns indices.

Lemma target_class_range b q :
  (0 <= target_class C targets indices b q < Z.of_nat (C + 1))%Z.
Proof.
  unfold target_class.
  destruct (list_find _ _) as [[i [bq y]]|] eqn:E; [|lia].
  apply list_find_Some in E as (Hi & _).
  apply lookup_zip_with_Some in Hi as (bq' & y' & Heq & _ & Hy).
  injection Heq as <- <-.
  destruct (matched_labels_facts C Ns Q targets indices Hfield Hvalid)
    as [_ Hall].
  rewrite Forall_forall in Hall.
  assert (y ∈ matched_labels targets indices) as Hin
    by (eapply list_elem_of_lookup_2, Hy).
  apply Hall in Hin. lia.
Qed.

Lemma target_classes_range :
  length (target_classes C B Q targets indices) = (B * Q)%nat /\
  Forall (fun y => 0 <= y < Z.of_nat (C + 1))%Z
         (target_classes C B Q targets indices).
Proof.
  split; [apply length_grid|].
  apply Forall_forall. intros y Hy. unfold target_classes in Hy.
  apply list_elem_of_In, in_flat_map in Hy as (b & _ & Hy).
  apply in_map_iff in Hy as (q & <- & _). apply target_class_range.
Qed.

(** A matched query carries the label of its target. *)
Lemma target_class_matched k b q y :
  NoDup (query_pairs indices) ->
  query_pairs indices !! k = Some (b, q) ->
  matched_labels targets indices !! k = Some y ->
  target_class C targets indices b q = y.
Proof.
  intros Hnd Hk Hy. unfold target_class.
  assert (zip (query_pairs indices) (matched_labels targets indices) !! k
          = Some ((b, q), y)) as Hz
    by (apply lookup_zip_with_Some; eauto).
  destruct (list_find _ _) as [[i [bq y']]|] eqn:E.
  - apply list_find_Some in E as (Hi & HP & _). simpl in HP. subst bq.
    apply lookup_zip_with_Some in Hi as (bq' & y'' & Heq & Hq & Hy').
    injection Heq as <- <-.
    assert (i = k) as -> by (eapply NoDup_lookup; eauto).
    congruence.
  - apply list_find_None in E. rewrite Forall_forall in E.
    exfalso. apply (E ((b, q), y)); [|reflexivity].
    eapply list_elem_of_lookup_2, Hz.
Qed.

(** An unmatched query carries the no-object class. *)
Lemma target_class_unmatched b q :
  ~ In (b, q) (query_pairs indices) ->
  target_class C targets indices b q = Z.of_nat C.
Proof.
  intros Hnin. unfold target_class.
  destruct (list_find _ _) as [[i [bq y']]|] eqn:E; [|reflexivity].
  apply list_find_Some in E as (Hi & HP & _). simpl in HP. subst bq.
  apply lookup_zip_with_Some in Hi as (bq' & y'' & Heq & Hq & _).
  injection Heq as <- <-. exfalso. apply Hnin.
  eapply list_elem_of_In, list_elem_of_lookup_2, Hq.
Qed.

End target_classes.

Lemma transpose12_rows {A} (t : tensor A) (B Q K : nat) g :
  shape t = [B; Q; K] ->
  torch.transpose12 t g
  = Ok (Tensor [B; K; Q]
          (flat_map (transposed Q K) (torch.chunks (Q * K) B (data t)))
          (g && requires_grad t)).
Proof.
  intros Hs. unfold torch.transpose12. rewrite Hs. unfold torch.mk.
  cbn [torch.numel foldr]. now rewrite !Nat.mul_1_r.
Qed.

Section labels.

Variable ext : imports.
Variables (C : nat) (matcher : bundle -> list target -> M index_pairs).
Variables (weight_dict : gmap string R) (eos : R) (losses : list string).
Variables (n_bins : option nat) (bin_res : option R).
Variables (B Q : nat) (Ns : list nat).
Variables (outputs : bundle) (targets : list target) (indices : index_pairs).
Variables (logits : tensor R) (num_boxes : R).
Hypothesis Hlogits : outputs !! "pred_logits" = Some logits.
Hypothesis Hs : shape logits = [B; Q; (C + 1)%nat].
Hypothesis Hw : torch.wf logits.
Hypothesis Hne : indices <> [].
Hypothesis HB : length Ns = B.
Hypothesis Hfield : label_field C Ns targets.
Hypothesis Hvalid : valid_matching Q Ns indices.
Hypothesis Hnd : NoDup (query_pairs indices).

Let self : SetCriterion.criterion :=
  SetCriterion.__init__ C matcher weight_dict eos losses n_bins bin_res.

(** [loss_labels] up to the diagnostic. *)
Lemma labels_run (log : bool) g :
  SetCriterion.loss_labels ext self outputs targets indices num_boxes log g
  = let loss_ce :=
      Tensor []
        [weighted_cross_entropy (class_weight C eos)
           (torch.chunks (C + 1) (B * Q) (data logits))
           (target_classes C B Q targets indices)]
        (g && requires_grad logits) in
    (if log then
       do acc <- accuracy ext
                   (Tensor [num_matched indices; (C + 1)%nat]
                      (matched_predictions Q (C + 1) (data logits) indices)
                      (g && requires_grad logits))
                   (Tensor [num_matched indices]
                      (matched_labels targets indices) false);
       do acc0 <- list_getitem acc 0;
       do class_error <- torch.rsub_scalar 100 acc0;
       ret (<[ "class_error" := class_error ]>
              ({[ "loss_ce" := loss_ce ]} : loss_dict))
     else ret ({[ "loss_ce" := loss_ce ]} : loss_dict)) g.
Proof.
  pose proof (valid_matching_in_range _ _ _ Hvalid) as Hr. rewrite HB in Hr.
  destruct (matched_labels_facts C Ns Q targets indices Hfield Hvalid)
    as [Hlen _].
  destruct (target_classes_range C B Q Ns targets indices HB Hfield Hvalid)
    as [Htl Htr].
  unfold SetCriterion.loss_labels, contains, getitem. rewrite Hlogits.
  rewrite bool_decide_eq_true_2 by eauto.
  unfold assert. rewrite (bind_ok _ _ _ tt) by reflexivity.
  rewrite (bind_ok _ _ _ logits) by reflexivity.
  rewrite (bind_ok _ _ _ _
             (src_permutation_ok indices Hne g
                (valid_matching_vectors _ _ _ Hvalid))).
  rewrite (bind_ok _ _ _ _
             (cat_targets_labels C Ns Q targets indices Hne Hfield Hvalid g)).
  rewrite Hs. unfold torch.full at 1, ret at 1, bind at 1.
  unfold SetCriterion.long_source at 1, ret at 1, bind at 1.
  cbn [take torch.numel foldr SetCriterion.num_classes self
       SetCriterion.__init__]. rewrite Nat.mul_1_r.
  rewrite (bind_ok _ _ _ _
             (index_put_classes (Z.of_nat C) B Q indices
                (matched_labels targets indices) g Hr Hnd Hlen)).
  change (flat_map _ (seq 0 B)) with (target_classes C B Q targets indices).
  rewrite (bind_ok _ _ _ _ (transpose12_rows logits B Q (C + 1) g Hs)).
  cbn [SetCriterion.empty_weight self SetCriterion.__init__].
  assert (length (data logits) = (B * (Q * (C + 1)))%nat) as Hd.
  { unfold torch.wf in Hw. rewrite Hw, Hs. simpl. lia. }
  rewrite (bind_ok _ _ _ _
             (cross_entropy_transposed B Q (C + 1) (data logits)
                (target_classes C B Q targets indices) _ _ g Hd Htl Htr)).
  assert (weighted_cross_entropy
            (fun y => nth (Z.to_nat y)
                        (<[C := eos]> (replicate (C + 1) 1%R)) 0%R)
            (torch.chunks (C + 1) (B * Q) (data logits))
            (target_classes C B Q targets indices)
          = weighted_cross_entropy (class_weight C eos)
              (torch.chunks (C + 1) (B * Q) (data logits))
              (target_classes C B Q targets indices)) as ->.
  { unfold weighted_cross_entropy. f_equal.
    - f_equal. revert Htr. generalize (target_classes C B Q targets indices).
      generalize (torch.chunks (C + 1) (B * Q) (data logits)).
      intros xs ys Hys. revert xs.
      induction Hys as [|y ys Hy _ IH]; intros [|x xs]; try reflexivity.
      simpl. now rewrite IH, empty_weight_entry.
    - f_equal. apply map_ext_in. intros y Hy.
      rewrite Forall_forall in Htr. apply list_elem_of_In, Htr in Hy.
      now apply empty_weight_entry. }
  rewrite andb_idem_l. cbv zeta.
  destruct log; [|reflexivity].
  rewrite (bind_ok _ _ _ _
             (index2_matched logits B Q [(C + 1)%nat] indices g Hs Hr)).
  cbn [torch.numel foldr]. rewrite Nat.mul_1_r. reflexivity.
Qed.

End labels.

(** C3.  For a criterion built by [__init__] with [C] object classes,
    [loss_labels] returns as [loss_ce] the weighted cross-entropy, over
    [C + 1] classes, of the logits of every query against its target class:
    the label of the target assigned to a matched query, the no-object
    class [C] for an unmatched one; the weight of a class is one, except
    [eos_coef] for the no-object class.  When it logs it also returns
    [class_error], 100 minus the first result of [accuracy] on the logits of
    the matched queries and their labels: 100 minus their top-1 accuracy. *)
Theorem classification_loss_is_weighted_cross_entropy
    (ext : imports) (C : nat) (matcher : bundle -> list target -> M index_pairs)
    (weight_dict : gmap string R) (eos : R) (losses : list string)
    (n_bins : option nat) (bin_res : option R)
    (outputs : bundle) (targets : list target) (indices : index_pairs)
    (num_boxes : R) (g : bool) (B Q : nat) (Ns : list nat)
    (logits : tensor R) :
  let self :=
    SetCriterion.__init__ C matcher weight_dict eos losses n_bins bin_res in
  outputs !! "pred_logits" = Some logits ->
  shape logits = [B; Q; (C + 1)%nat] -> torch.wf logits ->
  indices <> [] -> length Ns = B -> label_field C Ns targets ->
  valid_matching Q Ns indices -> NoDup (query_pairs indices) ->
  let loss_ce :=
    Tensor []
      [weighted_cross_entropy (class_weight C eos)
         (torch.chunks (C + 1) (B * Q) (data logits))
         (target_classes C B Q targets indices)]
      (g && requires_grad logits) in
  let scores := matched_predictions Q (C + 1) (data logits) indices in
  let labels := matched_labels targets indices in
  (forall y, (0 <= y < Z.of_nat (C + 1))%Z ->
     nth (Z.to_nat y) (data (SetCriterion.empty_weight self)) 0%R
     = if decide (y = Z.of_nat C) then eos else 1%R) /\
  (forall k b q y,
     query_pairs indices !! k = Some (b, q) -> labels !! k = Some y ->
     target_class C targets indices b q = y) /\
  (forall b q, ~ In (b, q) (query_pairs indices) ->
     target_class C targets indices b q = Z.of_nat C) /\
  SetCriterion.loss_labels ext self outputs targets indices num_boxes false g
  = Ok {[ "loss_ce" := loss_ce ]} /\
  (forall acc rest,
     accuracy ext
       (Tensor [num_matched indices; (C + 1)%nat] scores
          (g && requires_grad logits))
       (Tensor [num_matched indices] labels false) g
     = Ok (acc :: rest) ->
     SetCriterion.loss_labels ext self outputs targets indices num_boxes true g
     = Ok (<[ "class_error" :=
                Tensor (shape acc) (map (fun a => 100 - a)%R (data acc))
                  (g && requires_grad acc) ]>
             {[ "loss_ce" := loss_ce ]})) /\
  (accuracy ext = Instance.accuracy_top1 ->
   SetCriterion.loss_labels ext self outputs targets indices num_boxes true g
   = Ok (<[ "class_error" :=
              Tensor [] [(100 - top1_accuracy (C + 1) scores labels)%R] false ]>
           {[ "loss_ce" := loss_ce ]})).
Proof.
  intros self Hlogits Hs Hw Hne HB Hfield Hvalid Hnd loss_ce scores labels.
  pose proof (labels_run ext C matcher weight_dict eos losses n_bins bin_res
                B Q Ns outputs targets indices logits num_boxes Hlogits Hs Hw
                Hne HB Hfield Hvalid Hnd) as Hrun.
  cbv zeta in Hrun. fold self in Hrun. fold loss_ce in Hrun.
  fold scores in Hrun. fold labels in Hrun.
  split; [|split; [|split; [|split; [|split]]]].
  - intros y Hy. apply empty_weight_entry, Hy.
  - intros k b q y. now apply target_class_matched.
  - apply target_class_unmatched.
  - apply (Hrun false g).
  - intros acc rest Hacc. rewrite (Hrun true g).
    rewrite (bind_ok _ _ _ _ Hacc).
    rewrite (bind_ok _ _ _ acc) by reflexivity.
    reflexivity.
  - intros Hext. rewrite (Hrun true g), Hext.
    unfold Instance.accuracy_top1, no_grad, list_getitem, torch.rsub_scalar,
      torch.unop, torch.mk, bind, ret, torch.scalar_tensor.
    cbn [shape data requires_grad map lookup list_lookup].
    rewrite andb_false_r.
    destruct (matched_labels_facts C Ns Q targets indices Hfield Hvalid)
      as [Hlen _].
    fold labels in Hlen.
    match goal with
    | |- context [(100 - ?v)%R] =>
        assert (v = top1_accuracy (C + 1) scores labels) as ->;
          [|reflexivity]
    end.
    unfold top1_accuracy. rewrite Hlen.
    destruct (decide (num_matched indices = 0%nat)) as [E|E]; [|reflexivity].
    rewrite E in *. apply nil_length_inv in Hlen.
    rewrite Hlen. simpl. unfold Rdiv. now rewrite Rmult_0_r, Rmult_0_l.
Qed.

(** One image, two queries and one object class: query 0 is matched with
    the only target, of class 0, and query 1 is to predict no object. *)
Lemma classification_loss_is_weighted_cross_entropy_witness :
  SetCriterion.loss_labels Instance.imports_1 Instance.criterion_1
    Instance.layer_1 [Instance.target_1] Instance.indices_1 1 false true
  = Ok {[ "loss_ce" :=
            Tensor []
              [weighted_cross_entropy (class_weight 1 (1 / 10))
                 [[1; 0]; [0; 1]]%R
                 (target_classes 1 1 2 [Instance.target_1] Instance.indices_1)]
              true ]}.
Proof.
  refine (proj1 (proj2 (proj2 (proj2
            (classification_loss_is_weighted_cross_entropy
               Instance.imports_1 1 (fun _ _ => ret Instance.indices_1) ∅
               (1 / 10) ["labels"; "cardinality"; "masks"; "bev"]
               (Some 9%nat) (Some 10%R)
               Instance.layer_1 [Instance.target_1] Instance.indices_1 1 true
               1 2 [1%nat] (Tensor [1; 2; 2]%nat [1; 0; 0; 1]%R true)
               _ _ _ _ _ _ _ _)))));
    try reflexivity; try discriminate.
  - constructor; [|constructor].
    exists (Tensor [1%nat] [0%Z] false).
    repeat split; try reflexivity. repeat constructor; lia.
  - constructor; [|constructor].
    repeat split; try reflexivity; repeat constructor; lia.
  - repeat constructor. intros H. inversion H.
Defined.

(** ** The dimension loss *)

Section dims.

Variables (B Q D : nat) (Ns : list nat).
Variables (targets : list target) (indices : index_pairs).
Variable num_boxes : R.
Variable pred : tensor R.
Hypothesis Hne : indices <> [].
Hypothesis HB : length Ns = B.
Hypothesis Hfield : float_field "dim" [D] Ns targets.
Hypothesis Hvalid : valid_matching Q Ns indices.
Hypothesis Hshape : shape pred = [B; Q; D].
Hypothesis Hwf : torch.wf pred.

Let P := matched_predictions Q D (data pred) indices.
Let T := matched_targets "dim" D targets indices.
Let M := num_matched indices.



End dims.




(** ** The cardinality error *)

(** The per-image counts that [sum(1)] returns on the comparison of the
    arg-max classes with the no-object class. *)
Lemma card_pred_data (B Q K : nat) (d : list R) :
  flat_map (fun blk =>
     map (fun pos =>
            torch.count_true
              (flat_map (fun r => torch.row 1 pos r) (torch.chunks 1 Q blk)))
         (seq 0 1))
     (torch.chunks (Q * 1) B
        (map (fun x => bool_decide (x <> (Z.of_nat K - 1)%Z))
           (map torch.row_argmax (torch.chunks K (torch.numel [B; Q]) d))))
  = map (predicted_count Q K) (torch.chunks (Q * K) B d).
Proof.
  replace (torch.numel [B; Q]) with (B * Q)%nat by (simpl; lia).
  rewrite Nat.mul_1_r, chunks_chunks, map_map.
  set (f := fun r => bool_decide (torch.row_argmax r <> (Z.of_nat K - 1)%Z)).
  set (L := torch.chunks (Q * K) B d).
  assert (map f (concat (map (torch.chunks K Q) L))
          = concat (map (fun blk => map f (torch.chunks K Q blk)) L)) as ->.
  { induction L as [|blk L IH]; simpl; [reflexivity|].
    now rewrite map_app, IH. }
  assert (length L = B) as HL by apply chunks_length.
  rewrite <- HL at 1. rewrite <- (length_map (fun blk => map f (torch.chunks K Q blk))).
  rewrite chunks_of_concat.
  - rewrite flat_map_of_map.
    assert (map (predicted_count Q K) L
            = flat_map (fun blk => [predicted_count Q K blk]) L) as ->
      by (clear; induction L; simpl; [reflexivity | now f_equal]).
    apply flat_map_ext_in. intros blk _. simpl. f_equal.
    unfold predicted_count. fold f. f_equal. apply flat_map_row_one.
    now rewrite length_map, chunks_length.
  - apply Forall_forall. intros r Hr.
    apply list_elem_of_In, in_map_iff in Hr as (blk & <- & _).
    now rewrite length_map, chunks_length.
Qed.

Lemma sum_R_zeros (l : list R) : Forall (fun x => x = 0%R) l -> sum_R l = 0%R.
Proof.
  induction 1 as [|x l -> _ IH]; [reflexivity|].
  unfold sum_R in *. simpl. rewrite IH. lra.
Qed.

Lemma map_IZR_of_nat (l : list nat) : map IZR (map Z.of_nat l) = map INR l.
Proof. rewrite map_map. apply map_ext. intros n. now rewrite INR_IZR_INZ. Qed.

Lemma cardinality_run (outputs : bundle) (targets : list target)
    (indices : index_pairs) (num_boxes : R) (g : bool) (Q K : nat)
    (logits : tensor R) :
  outputs !! "pred_logits" = Some logits ->
  shape logits = [length targets; Q; K] -> (1 <= K)%nat ->
  labelled targets ->
  SetCriterion.loss_cardinality outputs targets indices num_boxes g
  = Ok {[ "cardinality_error" :=
            Tensor [] [cardinality_error Q K logits targets] false ]}.
Proof.
  intros Hl Hs HK Hlab.
  unfold SetCriterion.loss_cardinality, no_grad, getitem. rewrite Hl.
  unfold bind at 1. unfold ret at 1.
  rewrite (bind_ok _ _ _ _ (count_labels_ok targets false Hlab)).
  unfold torch.as_tensor at 1. unfold bind at 1. unfold ret at 1.
  unfold torch.argmax_last, torch.last_dim. rewrite Hs.
  cbn [last removelast]. unfold bind at 1. unfold bind at 1. unfold ret at 1.
  rewrite decide_False by lia. unfold bind at 1. unfold ret at 1.
  unfold bind at 1. unfold ret at 1.
  cbv [torch.ne_scalar torch.sum_bool_dim1 torch.float bind ret
       shape data requires_grad].
  replace (torch.numel []) with 1%nat by reflexivity.
  rewrite card_pred_data.
  unfold F.l1_loss, F.l1_loss_none, torch.sub. rewrite !bind_assoc.
  rewrite !length_map.
  rewrite (bind_ok _ _ _ _ (binop_literal _ _ _ _ _ _ false)).
  cbv [torch.abs torch.unop torch.mk torch.mean bind ret
       shape data requires_grad andb].
  do 4 f_equal. unfold cardinality_error, mean_R.
  rewrite map_IZR_of_nat, map_zip_with.
  assert (forall (cs : list Z) (ns : list nat),
            zip_with (fun x y => Rabs (x - y)) (map IZR cs) (map INR ns)
            = zip_with (fun c n => Rabs (IZR c - INR n)) cs ns) as ->;
    [|reflexivity].
  induction cs as [|c cs IH]; intros [|n ns]; simpl; try reflexivity.
  now rewrite IH.
Qed.

(** C6.  [loss_cardinality] returns the mean over the images of the
    absolute difference between the number of queries whose arg-max class
    is not the last (no-object) class and the number of target objects of
    the image; the error is zero when the two counts agree on every image;
    and the result tracks no gradient, in any grad mode. *)
Theorem cardinality_error_is_mean_count_difference
    (outputs : bundle) (targets : list target) (indices : index_pairs)
    (num_boxes : R) (g : bool) (Q K : nat) (logits : tensor R) :
  outputs !! "pred_logits" = Some logits ->
  shape logits = [length targets; Q; K] -> (1 <= K)%nat ->
  labelled targets ->
  SetCriterion.loss_cardinality outputs targets indices num_boxes g
  = Ok {[ "cardinality_error" :=
            Tensor [] [cardinality_error Q K logits targets] false ]} /\
  (Forall2 (fun c (t : target) => c = Z.of_nat (num_targets t))
     (map (predicted_count Q K)
          (torch.chunks (Q * K) (length targets) (data logits)))
     targets ->
   cardinality_error Q K logits targets = 0%R).
Proof.
  intros Hl Hs HK Hlab. split; [now apply cardinality_run|].
  intros Heq. unfold cardinality_error, mean_R.
  set (cs := map (predicted_count Q K) _) in *. clearbody cs.
  rewrite sum_R_zeros; [lra|]. clear -Heq.
  induction Heq as [|c t cs ts -> _ IH]; simpl; constructor; [|assumption].
  rewrite INR_IZR_INZ, Rminus_diag. apply Rabs_R0.
Qed.

(** The small instance, in grad mode and on logits that track gradients:
    the result tracks none. *)
Lemma cardinality_error_is_mean_count_difference_witness :
  SetCriterion.loss_cardinality Instance.layer_1 [Instance.target_1]
    Instance.indices_1 1 true
  = Ok {[ "cardinality_error" :=
            Tensor []
              [cardinality_error 2 2
                 (Tensor [1; 2; 2]%nat [1; 0; 0; 1]%R true)
                 [Instance.target_1]]
              false ]}.
Proof.
  refine (proj1 (cardinality_error_is_mean_count_difference Instance.layer_1
                   [Instance.target_1] Instance.indices_1 1 true 2 2
                   (Tensor [1; 2; 2]%nat [1; 0; 0; 1]%R true) _ _ _ _));
    try reflexivity; try lia.
  constructor; [|constructor].
  exists (VLong (Tensor [1%nat] [0%Z] false)), 1%nat, []. split; reflexivity.
Defined.

(** ** Post-processing *)


Lemma chunks_flat_map_rows {A} (k n : nat) (f : list A -> list A)
    (rows : list (list A)) :
  length rows = n -> Forall (fun r => length (f r) = k) rows ->
  torch.chunks k n (flat_map f rows) = map f rows.
Proof.
  intros Hn Hall. rewrite flat_map_concat_map, <- Hn.
  rewrite <- (length_map f rows). apply chunks_of_concat.
  now apply Forall_fmap.
Qed.



(** *** The scale factors *)

Lemma row_one_lookup {A} (i : nat) (l : list A) (x : A) :
  l !! i = Some x -> torch.row 1 i l = [x].
Proof.
  intros H. unfold torch.row. rewrite Nat.mul_1_r.
  pose proof (take_drop_middle _ _ _ H) as Hmid.
  pose proof (lookup_lt_Some _ _ _ H) as Hlt.
  rewrite <- Hmid at 1.
  rewrite drop_app_length' by (rewrite length_take; lia).
  reflexivity.
Qed.

Lemma flat_map_singleton {A B} (f : A -> B) (l : list A) :
  flat_map (fun x => [f x]) l = map f l.
Proof. induction l as [|x l IH]; simpl; [reflexivity | now rewrite IH]. Qed.




(** *** Scaling the boxes *)










(** ** The three point losses *)

Section point_losses.

Variables (B Q D : nat) (Ns : list nat).
Variables (targets : list target) (indices : index_pairs).
Variable num_boxes : R.
Hypothesis HD : (2 <= D)%nat.
Hypothesis Hne : indices <> [].
Hypothesis HB : length Ns = B.
Hypothesis Hfield : float_field "bev" [D] Ns targets.
Hypothesis Hvalid : valid_matching Q Ns indices.

(** The statements that the three losses share, from the prediction
    [pred] on. *)
Lemma point_loss_body (pred : tensor R) (name : string) g :
  shape pred = [B; Q; D] -> torch.wf pred ->
  (do idx <- SetCriterion._get_src_permutation_idx indices;
   do matched <- torch.index2 pred idx;
   do src_bev <- torch.squeeze matched;
   do target_bev_v <- SetCriterion.cat_targets "bev" targets indices;
   let target_bev := torch.to_float target_bev_v in
   do loss <- F.l1_loss_none src_bev target_bev;
   do loss_sum <- torch.sum loss;
   do v <- torch.div_scalar loss_sum num_boxes;
   ret ({[ name := v ]} : loss_dict)) g
  = Ok {[ name :=
            Tensor [] [point_distance D targets indices num_boxes
                         (matched_predictions Q D (data pred) indices)]
              (g && requires_grad pred) ]}.
Proof.
  intros Hs Hw.
  pose proof (valid_matching_in_range _ _ _ Hvalid) as Hr. rewrite HB in Hr.
  rewrite (bind_ok _ _ _ _
             (src_permutation_ok indices Hne g
                (valid_matching_vectors _ _ _ Hvalid))).
  rewrite (bind_ok _ _ _ _ (index2_matched pred B Q [D] indices g Hs Hr)).
  pose proof (length_matched_predictions pred B Q [D] indices Hs Hw Hr) as HlP.
  replace (torch.numel [D]) with D in * by (simpl; lia).
  unfold torch.squeeze at 1. unfold torch.mk at 1. unfold bind at 1.
  cbn [shape data requires_grad]. rewrite squeeze_matched by assumption.
  rewrite (bind_ok _ _ _ _
             (cat_targets_float "bev" [D] Ns Q targets indices Hne Hfield
                Hvalid g)).
  cbv zeta. cbn [torch.to_float].
  replace (torch.numel [D]) with D by (simpl; lia).
  set (P := matched_predictions Q D (data pred) indices) in *.
  set (T := matched_targets "bev" D targets indices).
  unfold F.l1_loss_none, torch.sub.
  assert (torch.binop Rminus
            (Tensor (if decide (num_matched indices = 1%nat) then [D]
                     else [num_matched indices; D]) P
               (g && (g && requires_grad pred)))
            (Tensor [num_matched indices; D] T false) g
          = Ok (Tensor [num_matched indices; D] (zip_with Rminus P T)
                  (g && requires_grad pred))) as Hsub.
  { destruct (decide (num_matched indices = 1%nat)) as [E|E].
    - rewrite E in *.
      rewrite (binop_row_vs_matrix _ _ _ D); try reflexivity.
      + cbn [data requires_grad]. f_equal. f_equal.
        rewrite orb_false_r. now rewrite !andb_idem_l.
      + unfold torch.wf. cbn [data shape]. rewrite HlP. simpl. lia.
      + unfold torch.wf. cbn [data shape]. unfold T.
        replace D with (torch.numel [D]) at 1 by (simpl; lia).
        rewrite (length_matched_targets "bev" [D] Ns Q targets indices
                   Hfield Hvalid), E.
        reflexivity.
    - rewrite binop_same_shape by reflexivity.
      cbn [data requires_grad shape]. f_equal. f_equal.
      rewrite orb_false_r. now rewrite !andb_idem_l. }
  rewrite bind_assoc, (bind_ok _ _ _ _ Hsub).
  cbv [torch.abs torch.unop torch.mk torch.sum torch.div_scalar bind ret
       data requires_grad shape].
  do 2 f_equal. simpl map.
  f_equal; [|now rewrite !andb_idem_l].
  unfold point_distance. fold T. do 3 f_equal. apply map_zip_with.
Qed.

End point_losses.

(** C9.  [loss_bev], [loss_head] and [loss_feet] each return the L1
    distance between their own predicted point, gathered over the matched
    queries, and the same field of the targets, the ["bev"] point, summed
    and divided by the denominator; so the three values are equal whenever
    the three gathered predictions are. *)
Theorem point_losses_share_the_bev_target
    (outputs : bundle) (targets : list target) (indices : index_pairs)
    (num_boxes : R) (g : bool) (B Q D : nat) (Ns : list nat)
    (bev head feet : tensor R) :
  outputs !! "pred_bev" = Some bev ->
  outputs !! "pred_head_bev" = Some head ->
  outputs !! "pred_feet_bev" = Some feet ->
  shape bev = [B; Q; D] -> shape head = [B; Q; D] -> shape feet = [B; Q; D] ->
  torch.wf bev -> torch.wf head -> torch.wf feet ->
  (2 <= D)%nat -> indices <> [] -> length Ns = B ->
  float_field "bev" [D] Ns targets -> valid_matching Q Ns indices ->
  let distance (pred : tensor R) :=
    point_distance D targets indices num_boxes
      (matched_predictions Q D (data pred) indices) in
  SetCriterion.loss_bev outputs targets indices num_boxes g
  = Ok {[ "loss_bev" := Tensor [] [distance bev] (g && requires_grad bev) ]} /\
  SetCriterion.loss_head outputs targets indices num_boxes g
  = Ok {[ "loss_head_bev" :=
            Tensor [] [distance head] (g && requires_grad head) ]} /\
  SetCriterion.loss_feet outputs targets indices num_boxes g
  = Ok {[ "loss_feet_bev" :=
            Tensor [] [distance feet] (g && requires_grad feet) ]} /\
  (matched_predictions Q D (data bev) indices
   = matched_predictions Q D (data head) indices ->
   matched_predictions Q D (data head) indices
   = matched_predictions Q D (data feet) indices ->
   distance bev = distance head /\ distance head = distance feet).
Proof.
  intros Hb Hh Hf Hsb Hsh Hsf Hwb Hwh Hwf HD Hne HB Hfield Hvalid distance.
  split; [|split; [|split; [|intros Hbh Hhf; split]]].
  - unfold SetCriterion.loss_bev, contains, getitem. rewrite Hb.
    rewrite bool_decide_eq_true_2 by eauto.
    unfold assert. rewrite (bind_ok _ _ _ tt) by reflexivity.
    pose proof (point_loss_body B Q D Ns targets indices num_boxes HD Hne HB
                  Hfield Hvalid bev "loss_bev" g Hsb Hwb) as H.
    unfold bind in H |- *. unfold ret at 1. exact H.
  - unfold SetCriterion.loss_head, contains, getitem. rewrite Hh.
    rewrite bool_decide_eq_true_2 by eauto.
    unfold assert. rewrite (bind_ok _ _ _ tt) by reflexivity.
    pose proof (point_loss_body B Q D Ns targets indices num_boxes HD Hne HB
                  Hfield Hvalid head "loss_head_bev" g Hsh Hwh) as H.
    unfold bind in H |- *. unfold ret at 1. exact H.
  - unfold SetCriterion.loss_feet, contains, getitem. rewrite Hf.
    rewrite bool_decide_eq_true_2 by eauto.
    unfold assert. rewrite (bind_ok _ _ _ tt) by reflexivity.
    pose proof (point_loss_body B Q D Ns targets indices num_boxes HD Hne HB
                  Hfield Hvalid feet "loss_feet_bev" g Hsf Hwf) as H.
    unfold bind in H |- *. unfold ret at 1. exact H.
  - unfold distance. now rewrite Hbh.
  - unfold distance. now rewrite Hhf.
Qed.

(** The small instance: one matched pair, so that [squeeze] drops the
    batch dimension of the prediction and the L1 loss broadcasts it back. *)
Lemma point_losses_share_the_bev_target_witness :
  SetCriterion.loss_bev Instance.layer_1 [Instance.target_1]
    Instance.indices_1 1 true
  = Ok {[ "loss_bev" :=
            Tensor []
              [point_distance 2 [Instance.target_1] Instance.indices_1 1
                 (matched_predictions 2 2 [1; 2; 3; 4]%R Instance.indices_1)]
              true ]}.
Proof.
  refine (proj1 (point_losses_share_the_bev_target Instance.layer_1
                   [Instance.target_1] Instance.indices_1 1 true 1 2 2 [1%nat]
                   (Tensor [1; 2; 2]%nat [1; 2; 3; 4]%R true)
                   (Tensor [1; 2; 2]%nat [1; 2; 5; 6]%R true)
                   (Tensor [1; 2; 2]%nat [1; 2; 0; 0]%R true)
                   _ _ _ _ _ _ _ _ _ _ _ _ _ _));
    try reflexivity; try lia; try discriminate.
  - constructor; [|constructor].
    exists (Tensor [1; 2]%nat [1; 1]%R false). repeat split; reflexivity.
  - constructor; [|constructor].
    repeat split; try reflexivity; repeat constructor; lia.
Defined.

(** ** The depth loss *)

Lemma trunc_nonneg (x : R) : (0 <= x)%R -> torch.trunc x = Int_part x.
Proof. intros H. unfold torch.trunc. now destruct (Rle_dec 0 x). Qed.

Lemma trunc_neg (x : R) : (x < 0)%R -> torch.trunc x = (- Int_part (- x))%Z.
Proof. intros H. unfold torch.trunc. destruct (Rle_dec 0 x); [lra | reflexivity]. Qed.

(** Truncation towards zero: its value between two integers. *)
Lemma trunc_spec_nonneg (x : R) (z : Z) :
  (0 <= x)%R -> (IZR z <= x < IZR z + 1)%R -> torch.trunc x = z.
Proof.
  intros H0 H. rewrite trunc_nonneg by assumption. symmetry.
  apply Int_part_spec. lra.
Qed.

Lemma trunc_spec_neg (x : R) (z : Z) :
  (x < 0)%R -> (IZR z - 1 < x <= IZR z)%R -> torch.trunc x = z.
Proof.
  intros H0 H. rewrite trunc_neg by assumption.
  rewrite <- (Int_part_spec (- x) (- z)); [lia|].
  rewrite opp_IZR. lra.
Qed.

(** For a non-negative depth and a positive resolution the bin is the
    floor of the quotient, and it is below [n] exactly when the depth is
    below [n * res]. *)
Lemma depth_bin_nonneg (n : nat) (res d : R) :
  (0 < res)%R -> (0 <= d)%R ->
  depth_bin res d = Int_part (d / res) /\
  (0 <= depth_bin res d)%Z /\
  ((depth_bin res d < Z.of_nat n)%Z <-> (d < INR n * res)%R).
Proof.
  intros Hres Hd. unfold depth_bin.
  assert (0 <= d / res)%R as Hq.
  { unfold Rdiv. apply Rmult_le_pos; [assumption|].
    apply Rlt_le. now apply Rinv_0_lt_compat. }
  rewrite trunc_nonneg by assumption.
  destruct (base_Int_part (d / res)) as [Hlo Hhi].
  assert (0 <= Int_part (d / res))%Z as Hnn.
  { apply le_IZR. destruct (Z_lt_le_dec (Int_part (d / res)) 0) as [Hneg|]; [|now apply IZR_le].
    assert (Int_part (d / res) <= -1)%Z as Hle by lia.
    apply IZR_le in Hle. lra. }
  repeat split; [assumption|..].
  - intros Hlt. assert (Int_part (d / res) + 1 <= Z.of_nat n)%Z as Hle by lia.
    apply IZR_le in Hle. rewrite plus_IZR, <- INR_IZR_INZ in Hle.
    apply (Rmult_lt_reg_r (/ res)); [now apply Rinv_0_lt_compat|].
    rewrite Rmult_assoc, Rinv_r by lra. unfold Rdiv in *. lra.
  - intros Hlt. apply lt_IZR. rewrite <- INR_IZR_INZ.
    assert (d / res < INR n)%R.
    { apply (Rmult_lt_reg_r res); [assumption|].
      unfold Rdiv. rewrite Rmult_assoc, Rinv_l by lra. lra. }
    lra.
Qed.

(** *** The indexed write of the one-hot targets *)

Lemma mapM_raise {A B} (f : A -> M B) (l : list A) (e : exn) g :
  Forall (fun x => is_ok (f x g) \/ f x g = Raise e) l ->
  Exists (fun x => f x g = Raise e) l ->
  mapM f l g = Raise e.
Proof.
  induction 1 as [|x l Hx Hl IH]; intros Hex; [inversion Hex|].
  simpl. unfold bind. destruct (f x g) as [y|e'] eqn:E.
  - apply Exists_cons in Hex as [Hex|Hex]; [congruence|].
    now rewrite (IH Hex).
  - destruct Hx as [[]|Hx]. congruence.
Qed.

Lemma wrap_index_in (n : nat) (c : Z) g :
  (- Z.of_nat n <= c < Z.of_nat n)%Z ->
  torch.wrap_index n c g = Ok (wrapped n c).
Proof.
  intros H. unfold wrapped. destruct (decide (0 <= c)%Z).
  - apply wrap_index_ok. lia.
  - apply wrap_index_neg. lia.
Qed.

Lemma wrapped_lt (n : nat) (c : Z) :
  (- Z.of_nat n <= c < Z.of_nat n)%Z -> (wrapped n c < n)%nat.
Proof. intros H. unfold wrapped. destruct (decide (0 <= c)%Z); lia. Qed.

Lemma row_offsets_zip (n b : nat) (cs : list Z) :
  map (fun mc : nat * Z => (mc.1 * n + wrapped n mc.2)%nat)
      (zip (seq b (length cs)) cs)
  = row_offsets n b cs.
Proof.
  revert b. induction cs as [|c cs IH]; intros b; [reflexivity|].
  simpl. f_equal. apply IH.
Qed.

(** Row [b + m] of a zero matrix gets its 1 at column [wrapped n c]. *)
Lemma write_one_hot_rows (n b : nat) (cs : list Z) (pre : list R) :
  length pre = (b * n)%nat ->
  Forall (fun c => - Z.of_nat n <= c < Z.of_nat n)%Z cs ->
  foldl (fun d o => torch.write_block 1 o [1%R] d)
        (pre ++ replicate (length cs * n) 0%R) (row_offsets n b cs)
  = pre ++ flat_map (one_hot n) cs.
Proof.
  intros Hpre Hcs. revert b pre Hpre.
  induction Hcs as [|c cs Hc _ IH]; intros b pre Hpre; [reflexivity|].
  cbn [length row_offsets foldl flat_map].
  pose proof (wrapped_lt n c Hc) as Hw.
  assert (torch.write_block 1 (b * n + wrapped n c) [1%R]
            (pre ++ replicate (S (length cs) * n) 0%R)
          = (pre ++ one_hot n c) ++ replicate (length cs * n) 0%R) as ->.
  { unfold torch.write_block. rewrite !Nat.mul_1_r.
    replace (S (length cs) * n)%nat with (n + length cs * n)%nat by lia.
    rewrite replicate_add. unfold one_hot. fold (wrapped n c).
    rewrite insert_replicate_lt by assumption.
    rewrite (take_app_add' pre) by (symmetry; assumption).
    replace (b * n + wrapped n c + 1)%nat with (b * n + (wrapped n c + 1))%nat
      by lia.
    rewrite (drop_app_add' pre) by (symmetry; assumption).
    rewrite take_app_le by (rewrite length_replicate; lia).
    rewrite drop_app_le by (rewrite length_replicate; lia).
    rewrite take_replicate, drop_replicate, Nat.min_l by lia.
    replace (n - (wrapped n c + 1))%nat with (n - S (wrapped n c))%nat by lia.
    rewrite <- !app_assoc. reflexivity. }
  rewrite app_assoc. apply IH.
  rewrite length_app, Hpre. unfold one_hot.
  rewrite length_insert, length_replicate. lia.
Qed.

Lemma offsets_rows_ok (M n : nat) (cs : list Z) g :
  length cs = M ->
  Forall (fun c => - Z.of_nat n <= c < Z.of_nat n)%Z cs ->
  torch.offsets M n (zip (map Z.of_nat (seq 0 M)) cs) g
  = Ok (row_offsets n 0 cs).
Proof.
  intros Hl Hcs. unfold torch.offsets.
  rewrite (mapM_ok _ (fun ic : Z * Z =>
                        (Z.to_nat ic.1 * n + wrapped n ic.2)%nat)).
  - f_equal. rewrite <- Hl. generalize 0%nat. clear.
    induction cs as [|c cs IH]; intros b; [reflexivity|].
    simpl. rewrite Nat2Z.id. f_equal. apply IH.
  - intros [i c] Hic. apply list_elem_of_In, list_elem_of_lookup in Hic as (k & Hk).
    apply lookup_zip_with_Some in Hk as (i' & c' & Heq & Hi & Hc).
    injection Heq as <- <-.
    rewrite list_lookup_fmap in Hi.
    destruct (seq 0 M !! k) as [m|] eqn:Hm; [|discriminate].
    injection Hi as <-. apply lookup_seq in Hm as [-> Hk].
    rewrite Forall_forall in Hcs.
    assert (- Z.of_nat n <= c < Z.of_nat n)%Z as Hc'.
    { apply Hcs. eapply list_elem_of_lookup_2, Hc. }
    rewrite (bind_ok _ _ _ k) by (rewrite wrap_index_ok by lia; f_equal; lia).
    rewrite (bind_ok _ _ _ _ (wrap_index_in n c g Hc')).
    simpl. now rewrite Nat2Z.id.
Qed.

Lemma offsets_rows_raise (M n : nat) (cs : list Z) g :
  length cs = M ->
  ~ Forall (fun c => - Z.of_nat n <= c < Z.of_nat n)%Z cs ->
  torch.offsets M n (zip (map Z.of_nat (seq 0 M)) cs) g = Raise IndexError.
Proof.
  intros Hl Hcs. unfold torch.offsets.
  assert (forall i c, In (i, c) (zip (map Z.of_nat (seq 0 M)) cs) ->
            (0 <= i < Z.of_nat M)%Z /\ In c cs) as Hin.
  { intros i c Hic.
    apply list_elem_of_In, list_elem_of_lookup in Hic as (k & Hk).
    apply lookup_zip_with_Some in Hk as (i' & c' & Heq & Hi & Hc).
    injection Heq as <- <-. rewrite list_lookup_fmap in Hi.
    destruct (seq 0 M !! k) as [m|] eqn:Hm; [|discriminate].
    injection Hi as <-. apply lookup_seq in Hm as [-> Hk]. split; [lia|].
    eapply list_elem_of_In, list_elem_of_lookup_2, Hc. }
  apply mapM_raise.
  - apply Forall_forall. intros [i c] Hic%list_elem_of_In.
    destruct (Hin _ _ Hic) as [Hi _].
    rewrite (bind_ok _ _ _ (Z.to_nat i)) by (now apply wrap_index_ok).
    destruct (decide (- Z.of_nat n <= c < Z.of_nat n)%Z) as [Hc|Hc].
    + left. now rewrite (bind_ok _ _ _ _ (wrap_index_in n c g Hc)).
    + right. now rewrite (bind_raise _ _ _ IndexError)
        by (apply wrap_index_out; lia).
  - apply not_Forall_Exists in Hcs; [|intros c; apply _].
    apply Exists_exists in Hcs as (c & Hc & Hout).
    apply list_elem_of_lookup in Hc as (k & Hk).
    apply Exists_exists. exists (Z.of_nat k, c). split.
    + apply list_elem_of_lookup. exists k. apply lookup_zip_with_Some.
      exists (Z.of_nat k), c. repeat split; [|assumption].
      rewrite list_lookup_fmap, lookup_seq_lt; [reflexivity|].
      apply lookup_lt_Some in Hk. lia.
    + apply lookup_lt_Some in Hk. unfold compose in Hout.
      rewrite (bind_ok _ _ _ k) by (rewrite wrap_index_ok by lia; f_equal; lia).
      now rewrite (bind_raise _ _ _ IndexError) by (apply wrap_index_out; lia).
Qed.

(** The one-hot targets: row [m] of the zero matrix gets a 1 in the column
    of the [m]-th class; a class outside [-n, n) raises. *)
Lemma index_fill_one_hot (M n : nat) (cs : list Z) (rg : bool) g :
  length cs = M ->
  torch.index_fill2 (Tensor [M; n] (replicate (M * n) 0%R) rg)
    (Tensor [M] (map Z.of_nat (seq 0 M)) false, Tensor [M] cs false) 1%R g
  = if decide (Forall (fun c => - Z.of_nat n <= c < Z.of_nat n)%Z cs)
    then Ok (Tensor [M; n] (flat_map (one_hot n) cs) rg)
    else Raise IndexError.
Proof.
  intros Hl. unfold torch.index_fill2, torch.index_grid.
  cbn [shape data fst snd]. rewrite decide_True by reflexivity.
  unfold bind at 1, ret at 1.
  destruct (decide (Forall _ cs)) as [Hcs|Hcs].
  - rewrite (bind_ok _ _ _ _ (offsets_rows_ok M n cs g Hl Hcs)).
    unfold ret. do 2 f_equal. cbn [torch.numel foldr replicate].
    rewrite <- Hl. apply (write_one_hot_rows n 0 cs []); [reflexivity|assumption].
  - now rewrite (bind_raise _ _ _ _ (offsets_rows_raise M n cs g Hl Hcs)).
Qed.

(** *** The two losses *)

Lemma zip_with_diag {A B C D} (f : C -> C -> D) (h : A -> B -> C)
    (l : list A) (k : list B) :
  zip_with f (zip_with h l k) (zip_with h l k)
  = zip_with (fun x y => f (h x y) (h x y)) l k.
Proof.
  revert k. induction l as [|x l IH]; intros [|y k]; simpl; try reflexivity.
  now rewrite IH.
Qed.

Lemma zip_with_map_r {A B C D} (f : A -> C -> D) (h : B -> C)
    (l : list A) (k : list B) :
  zip_with f l (map h k) = zip_with (fun x y => f x (h y)) l k.
Proof.
  revert k. induction l as [|x l IH]; intros [|y k]; simpl; try reflexivity.
  now rewrite IH.
Qed.

Lemma mse_same_shape (s : list nat) (P T : list R) (r1 r2 : bool) g :
  F.mse_loss (Tensor s P r1) (Tensor s T r2) g
  = Ok (Tensor [] [mean_R (zip_with (fun p t => (p - t) * (p - t))%R P T)]
          (g && (r1 || r2))).
Proof.
  unfold F.mse_loss, torch.sub, torch.mul.
  rewrite (bind_ok _ _ _ _ (binop_literal Rminus s P T r1 r2 g)).
  rewrite (bind_ok _ _ _ _ (binop_literal Rmult s _ _ _ _ g)).
  unfold torch.mean, torch.mk. cbn [data requires_grad].
  rewrite zip_with_diag. unfold mean_R. do 2 f_equal.
  now destruct g, r1, r2.
Qed.

Lemma class_vectors_one {A} (M n : nat) (d : list A) :
  length d = (M * n)%nat -> F.class_vectors M n 1 d = torch.chunks n M d.
Proof.
  intros Hd. unfold F.class_vectors. rewrite Nat.mul_1_r.
  pose proof (chunks_Forall_length n M d Hd) as Hall.
  revert Hall. generalize (torch.chunks n M d). clear.
  induction 1 as [|blk l Hblk _ IH]; [reflexivity|].
  cbn [flat_map seq map app] in IH |- *. rewrite IH. f_equal.
  transitivity (concat (torch.chunks 1 n blk)); [|apply chunks_concat; lia].
  rewrite chunks_seq, flat_map_concat_map. f_equal.
  apply map_ext. intros i. f_equal. lia.
Qed.

Lemma residual_data (res : R) (T : list R) :
  map (fun x => x - res / 2)%R
    (zip_with Rminus T
       (map (fun c => c * res)%R
          (map IZR (map torch.trunc (map (fun x => x / res)%R T)))))
  = map (depth_residual res) T.
Proof. induction T as [|d T IH]; simpl; [reflexivity | now rewrite IH]. Qed.

Section depth.

Variables (self : SetCriterion.criterion) (res : R).
Variables (B Q n : nat) (Ns : list nat).
Variables (outputs : bundle) (targets : list target) (indices : index_pairs).
Variables (bin delta : tensor R) (num_boxes : R).
Hypothesis Hres : SetCriterion.depth_bin_res self = Some res.
Hypothesis Hbin : outputs !! "pred_depth_bin" = Some bin.
Hypothesis Hdelta : outputs !! "pred_depth_delta" = Some delta.
Hypothesis Hsb : shape bin = [B; Q; n].
Hypothesis Hsd : shape delta = [B; Q; 1%nat].
Hypothesis Hwb : torch.wf bin.
Hypothesis Hwd : torch.wf delta.
Hypothesis Hne : indices <> [].
Hypothesis HB : length Ns = B.
Hypothesis Hfield : float_field "depth" [] Ns targets.
Hypothesis Hvalid : valid_matching Q Ns indices.

Let depths := matched_targets "depth" 1 targets indices.
Let scores := matched_predictions Q n (data bin) indices.
Let deltas := matched_predictions Q 1 (data delta) indices.

(** With a single matched pair [squeeze] leaves the scores of the pair
    without their row dimension, and the write with two indices
    raises. *)
Lemma depth_single_pair g :
  num_matched indices = 1%nat ->
  SetCriterion.loss_depth_multi_bin self outputs targets indices num_boxes g
  = Raise IndexError.
Proof.
  intros HM.
  pose proof (valid_matching_in_range _ _ _ Hvalid) as Hr. rewrite HB in Hr.
  unfold SetCriterion.loss_depth_multi_bin, contains, getitem.
  rewrite Hbin, Hdelta. rewrite !bool_decide_eq_true_2 by eauto.
  unfold assert. rewrite !(bind_ok _ _ _ tt) by reflexivity.
  rewrite (bind_ok _ _ _ _
             (src_permutation_ok indices Hne g
                (valid_matching_vectors _ _ _ Hvalid))).
  rewrite (bind_ok _ _ _ bin) by reflexivity.
  rewrite (bind_ok _ _ _ _ (index2_matched bin B Q [n] indices g Hsb Hr)).
  unfold torch.squeeze at 1. unfold torch.mk at 1. unfold bind at 1.
  cbn [shape data requires_grad].
  rewrite (bind_ok _ _ _ delta) by reflexivity.
  rewrite (bind_ok _ _ _ _ (index2_matched delta B Q [1%nat] indices g Hsd Hr)).
  unfold torch.squeeze at 1. unfold torch.mk at 1. unfold bind at 1.
  cbn [shape data requires_grad].
  rewrite (bind_ok _ _ _ _
             (cat_targets_float "depth" [] Ns Q targets indices Hne Hfield
                Hvalid g)).
  cbv zeta. unfold SetCriterion.bin_res. rewrite Hres.
  rewrite (bind_ok _ _ _ res) by reflexivity.
  unfold torch.div_scalar, torch.unop at 1, torch.mk at 1, bind at 1.
  unfold torch.float at 1, ret at 1, bind at 1.
  unfold torch.unop at 1, torch.mk at 1, bind at 1.
  unfold torch.sub, torch.binop at 1.
  cbn [torch.to_float torch.long shape data requires_grad].
  rewrite decide_True by reflexivity.
  unfold torch.mk at 1, bind at 1.
  unfold torch.unop at 1, torch.mk at 1, bind at 1.
  unfold torch.zeros_like at 1, ret at 1, bind at 1.
  cbn [shape data requires_grad].
  rewrite HM, !filter_cons, filter_nil. rewrite decide_False by tauto.
  destruct (decide (n <> 1%nat)); reflexivity.
Qed.

(** With any other number of matched pairs the call returns the combined
    loss when every bin is one that the write accepts, and the write
    raises otherwise. *)
Lemma depth_run g :
  num_matched indices <> 1%nat -> (2 <= n)%nat ->
  SetCriterion.loss_depth_multi_bin self outputs targets indices num_boxes g
  = if decide (Forall (bin_in_range n res) depths) then
      Ok {[ "loss_depth" :=
              Tensor []
                [(delta_loss res deltas depths / 2
                  + bin_loss n res scores depths / 2)%R]
                (g && (requires_grad delta || requires_grad bin)) ]}
    else Raise IndexError.
Proof.
  intros HM Hn.
  pose proof (valid_matching_in_range _ _ _ Hvalid) as Hr. rewrite HB in Hr.
  pose proof (length_matched_predictions bin B Q [n] indices Hsb Hwb Hr)
    as Hlb.
  pose proof (length_matched_targets "depth" [] Ns Q targets indices Hfield
                Hvalid) as HlT.
  cbn [torch.numel foldr] in Hlb, HlT. rewrite Nat.mul_1_r in Hlb, HlT.
  fold scores in Hlb. fold depths in HlT.
  unfold SetCriterion.loss_depth_multi_bin, contains, getitem.
  rewrite Hbin, Hdelta. rewrite !bool_decide_eq_true_2 by eauto.
  unfold assert. rewrite !(bind_ok _ _ _ tt) by reflexivity.
  rewrite (bind_ok _ _ _ _
             (src_permutation_ok indices Hne g
                (valid_matching_vectors _ _ _ Hvalid))).
  rewrite (bind_ok _ _ _ bin) by reflexivity.
  rewrite (bind_ok _ _ _ _ (index2_matched bin B Q [n] indices g Hsb Hr)).
  unfold torch.squeeze at 1. unfold torch.mk at 1. unfold bind at 1.
  cbn [shape data requires_grad].
  rewrite squeeze_matched, decide_False by assumption.
  rewrite (bind_ok _ _ _ delta) by reflexivity.
  rewrite (bind_ok _ _ _ _ (index2_matched delta B Q [1%nat] indices g Hsd Hr)).
  unfold torch.squeeze at 1. unfold torch.mk at 1. unfold bind at 1.
  cbn [shape data requires_grad].
  rewrite !filter_cons, filter_nil.
  rewrite (decide_True (P := num_matched indices <> 1%nat)) by assumption.
  rewrite (decide_False (P := 1%nat <> 1%nat)) by tauto.
  rewrite (bind_ok _ _ _ _
             (cat_targets_float "depth" [] Ns Q targets indices Hne Hfield
                Hvalid g)).
  cbv zeta. unfold SetCriterion.bin_res. rewrite Hres.
  rewrite (bind_ok _ _ _ res) by reflexivity.
  cbn [torch.numel foldr]. rewrite !Nat.mul_1_r.
  fold scores deltas depths.
  unfold torch.div_scalar at 1, torch.unop at 1, torch.mk at 1, bind at 1.
  unfold torch.float at 1, ret at 1, bind at 1.
  unfold torch.unop at 1, torch.mk at 1, bind at 1.
  cbn [torch.to_float torch.long shape data requires_grad].
  unfold torch.sub. rewrite (bind_ok _ _ _ _ (binop_literal Rminus _ _ _ _ _ g)).
  unfold torch.unop at 1, torch.mk at 1, bind at 1.
  cbn [shape data requires_grad]. rewrite residual_data.
  unfold torch.zeros_like at 1, ret at 1, bind at 1.
  unfold torch.size0 at 1, ret at 1, bind at 1.
  unfold torch.arange at 1, ret at 1, bind at 1.
  cbn [shape data requires_grad]. rewrite Hlb.
  pose proof (index_fill_one_hot (num_matched indices) n
                (map torch.trunc (map (fun x => x / res)%R depths)) false g)
    as Hfill.
  rewrite !length_map in Hfill. specialize (Hfill HlT).
  assert (Forall (fun c => - Z.of_nat n <= c < Z.of_nat n)%Z
            (map torch.trunc (map (fun x => x / res)%R depths))
          <-> Forall (bin_in_range n res) depths) as Hiff.
  { rewrite !Forall_fmap. apply Forall_iff. intros d. reflexivity. }
  destruct (decide (Forall (bin_in_range n res) depths)) as [Hok|Hout].
  - rewrite decide_True in Hfill by (now apply Hiff).
    rewrite (bind_ok _ _ _ _ Hfill).
    rewrite (bind_ok _ _ _ _ (mse_same_shape _ _ _ _ _ g)).
    unfold F.cross_entropy_prob. cbn [shape data requires_grad].
    rewrite decide_True by reflexivity.
    unfold torch.mk at 1, bind at 1.
    unfold torch.div_scalar, torch.unop, torch.mk, bind, torch.add.
    cbn [shape data requires_grad map].
    rewrite binop_literal. unfold ret. do 2 f_equal.
    cbn [zip_with torch.numel foldr]. rewrite Nat.mul_1_r.
    f_equal; [|now destruct g, (requires_grad delta), (requires_grad bin)].
    f_equal. unfold delta_loss, bin_loss. f_equal.
    + f_equal. f_equal. now rewrite zip_with_map_r.
    + rewrite HlT. f_equal. f_equal.
      rewrite !class_vectors_one.
      * rewrite flat_map_concat_map.
        set (cls := map torch.trunc (map (fun x => x / res)%R depths)).
        assert (torch.chunks n (num_matched indices)
                  (concat (map (one_hot n) cls))
                = map (one_hot n) cls) as ->.
        { replace (num_matched indices)
            with (length (map (one_hot n) cls))
            by (unfold cls; now rewrite !length_map).
          apply chunks_of_concat, Forall_fmap, Forall_forall.
          intros c _. simpl. unfold one_hot.
          now rewrite length_insert, length_replicate. }
        unfold cls. now rewrite !zip_with_map_r.
      * rewrite (length_flat_map_const _ _ n).
        -- now rewrite !length_map, HlT.
        -- intros c _. unfold one_hot.
           now rewrite length_insert, length_replicate.
      * assumption.
  - rewrite decide_False in Hfill by (now rewrite Hiff).
    now rewrite (bind_raise _ _ _ _ Hfill).
Qed.

End depth.

(** *** The small instances *)

Lemma depth_instance_field (d1 d2 : R) :
  float_field "depth" [] [2%nat]
    [({[ "depth" := VFloat (Tensor [2%nat] [d1; d2] false) ]} : target)].
Proof.
  constructor; [|constructor].
  exists (Tensor [2%nat] [d1; d2] false). repeat split; reflexivity.
Qed.

Lemma depth_instance_matching : valid_matching 2 [2%nat] Instance.indices_2.
Proof.
  constructor; [|constructor].
  repeat split; try reflexivity; repeat constructor; lia.
Qed.

Lemma depth_instance_bins :
  depth_bin 10 5 = 0%Z /\ depth_bin 10 25 = 2%Z /\ depth_bin 10 (-15) = (-1)%Z.
Proof.
  unfold depth_bin. repeat split.
  - apply trunc_spec_nonneg; lra.
  - apply trunc_spec_nonneg; lra.
  - apply trunc_spec_neg; lra.
Qed.

(** C10.  With at least two matched pairs, at least two bins and a
    resolution other than zero, [loss_depth_multi_bin] writes its 1s at the
    bins [int(d / depth_bin_res)] of the matched depths [d], in rows of as
    many bins as the predicted tensor has; the call returns exactly when
    every such bin lies in [-n, n), a negative bin counting from the last
    one, and raises [IndexError] otherwise.  For a depth [d >= 0] and a
    positive resolution the bin is in range exactly when
    [d < n * depth_bin_res].  (With a resolution of zero the quotient is no
    real number and the statement does not apply.) *)
Theorem depth_write_is_total_iff_bins_in_range
    (self : SetCriterion.criterion) (outputs : bundle)
    (targets : list target) (indices : index_pairs) (num_boxes : R)
    (g : bool) (B Q n : nat) (Ns : list nat) (res : R)
    (bin delta : tensor R) :
  SetCriterion.depth_bin_res self = Some res -> res <> 0%R ->
  outputs !! "pred_depth_bin" = Some bin ->
  outputs !! "pred_depth_delta" = Some delta ->
  shape bin = [B; Q; n] -> shape delta = [B; Q; 1%nat] -> torch.wf bin ->
  length Ns = B -> float_field "depth" [] Ns targets ->
  valid_matching Q Ns indices ->
  (2 <= num_matched indices)%nat -> (2 <= n)%nat ->
  let depths := matched_targets "depth" 1 targets indices in
  let run :=
    SetCriterion.loss_depth_multi_bin self outputs targets indices num_boxes g
  in
  (is_ok run <-> Forall (bin_in_range n res) depths) /\
  (~ Forall (bin_in_range n res) depths -> run = Raise IndexError) /\
  (Forall (bin_in_range n res) depths ->
   exists loss,
     run = Ok {[ "loss_depth" := loss ]} /\
     data loss
     = [(delta_loss res (matched_predictions Q 1 (data delta) indices) depths
         / 2
         + sum_R (zip_with
                    (fun x d =>
                       - sum_R (zip_with Rmult (one_hot n (depth_bin res d))
                                  (F.log_softmax_row x)))%R
                    (torch.chunks n (length depths)
                       (matched_predictions Q n (data bin) indices))
                    depths)
           / INR (length depths) / 2)%R]) /\
  (forall d, (0 < res)%R -> (0 <= d)%R ->
             (bin_in_range n res d <-> (d < INR n * res)%R)).
Proof.
  intros Hres Hnz Hbin Hdelta Hsb Hsd Hwb HB Hfield Hvalid HM Hn depths run.
  assert (indices <> []) as Hne.
  { intros ->. cbn in HM. lia. }
  assert (num_matched indices <> 1%nat) as HM1 by lia.
  pose proof (depth_run self res B Q n Ns outputs targets indices bin delta
                num_boxes Hres Hbin Hdelta Hsb Hsd Hwb Hne HB Hfield Hvalid g
                HM1 Hn) as Hrun.
  fold depths in Hrun. fold run in Hrun.
  split; [split | split; [|split; [|intros d Hres0 Hd; split]]].
  - intros Hok. rewrite Hrun in Hok.
    destruct (decide (Forall (bin_in_range n res) depths));
      [assumption | destruct Hok].
  - intros Hall. rewrite Hrun, decide_True by assumption. exact I.
  - intros Hout. now rewrite Hrun, decide_False.
  - intros Hall. rewrite Hrun, decide_True by assumption.
    eexists. split; reflexivity.
  - intros [_ Hlt]. now apply (depth_bin_nonneg n res d).
  - intros Hlt. destruct (depth_bin_nonneg n res d) as (_ & Hnn & Hiff);
      try assumption.
    split; [lia | now apply Hiff].
Qed.

(** Two matched pairs at depths 5 and 25, in bins 0 and 2 of three. *)
Lemma depth_write_is_total_iff_bins_in_range_witness :
  is_ok (SetCriterion.loss_depth_multi_bin Instance.criterion_depth
           Instance.depth_layer [Instance.depth_target_2] Instance.indices_2
           1 true)
  <-> Forall (bin_in_range 3 10)
        (matched_targets "depth" 1 [Instance.depth_target_2]
           Instance.indices_2).
Proof.
  refine (proj1 (depth_write_is_total_iff_bins_in_range
                   Instance.criterion_depth Instance.depth_layer
                   [Instance.depth_target_2] Instance.indices_2 1 true
                   1 2 3 [2%nat] 10
                   (Tensor [1; 2; 3]%nat [1; 0; 0; 0; 1; 0]%R true)
                   (Tensor [1; 2; 1]%nat [1; 2]%R true)
                   _ _ _ _ _ _ _ _ _ _ _ _));
    try reflexivity; try (simpl; lia).
  - lra.
  - apply depth_instance_field.
  - apply depth_instance_matching.
Defined.

(** A matched depth of -15 has bin [int(-1.5) = -1]: the write wraps to the
    last bin and the call returns, although the bin is negative. *)
Lemma negative_bin_wraps_around :
  is_ok (SetCriterion.loss_depth_multi_bin Instance.criterion_depth
           Instance.depth_layer [Instance.depth_target_behind]
           Instance.indices_2 1 true) /\
  ~ Forall (fun d => (0 <= depth_bin 10 d < 3)%Z)
      (matched_targets "depth" 1 [Instance.depth_target_behind]
         Instance.indices_2).
Proof.
  destruct depth_instance_bins as (H5 & _ & H15).
  split.
  - rewrite (depth_run Instance.criterion_depth 10 1 2 3 [2%nat]
               Instance.depth_layer [Instance.depth_target_behind]
               Instance.indices_2
               (Tensor [1; 2; 3]%nat [1; 0; 0; 0; 1; 0]%R true)
               (Tensor [1; 2; 1]%nat [1; 2]%R true) 1);
      try reflexivity; try (simpl; lia); try discriminate.
    + rewrite decide_True; [exact I|].
      change (Forall (bin_in_range 3 10) [(-15)%R; 5%R]).
      repeat constructor; unfold bin_in_range; rewrite ?H5, ?H15; lia.
    + apply depth_instance_field.
    + apply depth_instance_matching.
  - change (~ Forall (fun d => (0 <= depth_bin 10 d < 3)%Z) [(-15)%R; 5%R]).
    intros H. apply Forall_cons in H as [H _]. rewrite H15 in H. lia.
Qed.

(** C4.  A single matched pair, at depth 5 with three bins of resolution
    10: the matched set is not empty and the depth lies in bin 0, but
    [squeeze] drops the row dimension of the matched scores and the write
    of the one-hot target raises. *)
Theorem single_matched_pair_raises :
  num_matched Instance.indices_1 = 1%nat /\
  matched_targets "depth" 1 [Instance.depth_target_1] Instance.indices_1
  = [5%R] /\
  depth_bin 10 5 = 0%Z /\
  SetCriterion.loss_depth_multi_bin Instance.criterion_depth
    Instance.depth_layer [Instance.depth_target_1] Instance.indices_1 1 true
  = Raise IndexError.
Proof.
  split; [reflexivity|]. split; [reflexivity|].
  split; [apply depth_instance_bins|].
  apply (depth_single_pair Instance.criterion_depth 10 1 2 3 [1%nat]
           Instance.depth_layer [Instance.depth_target_1] Instance.indices_1
           (Tensor [1; 2; 3]%nat [1; 0; 0; 0; 1; 0]%R true)
           (Tensor [1; 2; 1]%nat [1; 2]%R true) 1);
    try reflexivity; try discriminate.
  - constructor; [|constructor].
    exists (Tensor [1%nat] [5%R] false). repeat split; reflexivity.
  - constructor; [|constructor].
    repeat split; try reflexivity; repeat constructor; lia.
Qed.

(** X1.  With at least two matched pairs, at least two bins and matched
    depths [0 <= d < n * depth_bin_res], [loss_depth_multi_bin] returns
    [delta_loss / 2 + bin_loss / 2]: the bin of a depth is the floor of
    [d / depth_bin_res], its residual is
    [d - bin * depth_bin_res - depth_bin_res / 2], the bin loss is the
    cross-entropy against the one-hot vectors of the bins and the delta loss
    the mean-squared error against the residuals. *)
Theorem depth_loss_is_half_delta_plus_half_bin
    (self : SetCriterion.criterion) (outputs : bundle)
    (targets : list target) (indices : index_pairs) (num_boxes : R)
    (g : bool) (B Q n : nat) (Ns : list nat) (res : R)
    (bin delta : tensor R) :
  SetCriterion.depth_bin_res self = Some res -> (0 < res)%R ->
  outputs !! "pred_depth_bin" = Some bin ->
  outputs !! "pred_depth_delta" = Some delta ->
  shape bin = [B; Q; n] -> shape delta = [B; Q; 1%nat] -> torch.wf bin ->
  length Ns = B -> float_field "depth" [] Ns targets ->
  valid_matching Q Ns indices ->
  (2 <= num_matched indices)%nat -> (2 <= n)%nat ->
  let depths := matched_targets "depth" 1 targets indices in
  Forall (fun d => 0 <= d < INR n * res)%R depths ->
  SetCriterion.loss_depth_multi_bin self outputs targets indices num_boxes g
  = Ok {[ "loss_depth" :=
            Tensor []
              [(delta_loss res (matched_predictions Q 1 (data delta) indices)
                  depths / 2
                + bin_loss n res (matched_predictions Q n (data bin) indices)
                    depths / 2)%R]
              (g && (requires_grad delta || requires_grad bin)) ]} /\
  Forall (fun d => depth_bin res d = Int_part (d / res) /\
                   (IZR (depth_bin res d) <= d / res
                    < IZR (depth_bin res d) + 1)%R)
         depths.
Proof.
  intros Hres Hpos Hbin Hdelta Hsb Hsd Hwb HB Hfield Hvalid HM Hn depths Hd.
  assert (indices <> []) as Hne.
  { intros ->. cbn in HM. lia. }
  assert (num_matched indices <> 1%nat) as HM1 by lia.
  split.
  - rewrite (depth_run self res B Q n Ns outputs targets indices bin delta
               num_boxes Hres Hbin Hdelta Hsb Hsd Hwb Hne HB Hfield Hvalid g
               HM1 Hn).
    fold depths. rewrite decide_True; [reflexivity|].
    eapply Forall_impl; [exact Hd|]. intros d [H0 Hlt]. simpl.
    destruct (depth_bin_nonneg n res d Hpos H0) as (_ & Hnn & Hiff).
    split; [lia | now apply Hiff].
  - eapply Forall_impl; [exact Hd|]. intros d [H0 _]. simpl.
    destruct (depth_bin_nonneg n res d Hpos H0) as (-> & _).
    split; [reflexivity|].
    destruct (base_Int_part (d / res)). lra.
Qed.

Lemma depth_loss_is_half_delta_plus_half_bin_witness :
  SetCriterion.loss_depth_multi_bin Instance.criterion_depth
    Instance.depth_layer [Instance.depth_target_2] Instance.indices_2 1 true
  = Ok {[ "loss_depth" :=
            Tensor []
              [(delta_loss 10 [1; 2] [5; 25] / 2
                + bin_loss 3 10 [1; 0; 0; 0; 1; 0] [5; 25] / 2)%R] true ]}.
Proof.
  refine (proj1 (depth_loss_is_half_delta_plus_half_bin
                   Instance.criterion_depth Instance.depth_layer
                   [Instance.depth_target_2] Instance.indices_2 1 true
                   1 2 3 [2%nat] 10
                   (Tensor [1; 2; 3]%nat [1; 0; 0; 0; 1; 0]%R true)
                   (Tensor [1; 2; 1]%nat [1; 2]%R true)
                   _ _ _ _ _ _ _ _ _ _ _ _ _));
    try reflexivity; try (simpl; lia); try lra.
  - apply depth_instance_field.
  - apply depth_instance_matching.
  - change (Forall (fun d => 0 <= d < INR 3 * 10)%R [5; 25]%R).
    repeat constructor; simpl; lra.
Defined.

(** * Further properties of the code *)

(** ** The permutation indices *)

Lemma mapM_map {A B C} (f : B -> M C) (h : A -> B) (l : list A) g :
  mapM f (map h l) g = mapM (fun x => f (h x)) l g.
Proof.
  induction l as [|x l IH]; [reflexivity|].
  simpl. unfold bind. destruct (f (h x) g); [|reflexivity].
  now rewrite IH.
Qed.

Lemma mapM_ext {A B} (f h : A -> M B) (l : list A) g :
  (forall x, f x g = h x g) -> mapM f l g = mapM h l g.
Proof.
  intros H. induction l as [|x l IH]; [reflexivity|].
  simpl. unfold bind. rewrite H. destruct (h x g); [|reflexivity].
  now rewrite IH.
Qed.

Lemma enumerate_map {A B} (h : A -> B) (l : list A) :
  enumerate (map h l) = map (fun ix : nat * A => (ix.1, h ix.2)) (enumerate l).
Proof.
  unfold enumerate. rewrite length_map. generalize 0%nat.
  induction l as [|x l IH]; intros s; [reflexivity|].
  simpl. now rewrite IH.
Qed.

(** The target permutation is the source permutation of the swapped
    matching. *)
Lemma tgt_permutation_swapped (indices : index_pairs) g :
  SetCriterion._get_tgt_permutation_idx indices g
  = SetCriterion._get_src_permutation_idx (swapped indices) g.
Proof.
  unfold SetCriterion._get_tgt_permutation_idx,
    SetCriterion._get_src_permutation_idx, swapped.
  rewrite enumerate_map, !map_map. cbn [fst snd].
  unfold bind at 1 4. rewrite mapM_map.
  match goal with
  | |- _ = match mapM ?f _ _ with Ok _ => _ | Raise _ => _ end =>
      rewrite (mapM_ext f (fun x : nat * (tensor Z * tensor Z) =>
                             let '(i, (_, tgt)) := x in
                             torch.full_like tgt (Z.of_nat i)))
        by (now intros [i [src tgt]])
  end.
  reflexivity.
Qed.

Lemma image_target_pairs_swapped (indices : index_pairs) :
  image_target_pairs indices = image_query_pairs (swapped indices).
Proof.
  unfold image_target_pairs, image_query_pairs, swapped.
  now rewrite enumerate_map, flat_map_of_map.
Qed.

(** X2.  For a non-empty list of pairs of index vectors,
    [_get_src_permutation_idx] and [_get_tgt_permutation_idx] return two
    vectors each, as long as the matching has pairs; read together, entry by
    entry, they are the (image, query) pairs and the (image, target) pairs
    of the matching, image by image.  On an empty list both raise
    [ValueError], which [torch.cat] raises on an empty list. *)
Theorem permutation_indices_list_the_matched_pairs
    (indices : index_pairs) (g : bool) :
  indices <> [] ->
  Forall (fun p : tensor Z * tensor Z => vector p.1 /\ vector p.2) indices ->
  (exists bs qs bt jt,
     SetCriterion._get_src_permutation_idx indices g = Ok (bs, qs) /\
     SetCriterion._get_tgt_permutation_idx indices g = Ok (bt, jt) /\
     vector bs /\ vector qs /\ vector bt /\ vector jt /\
     zip (data bs) (data qs) = image_query_pairs indices /\
     zip (data bt) (data jt) = image_target_pairs indices /\
     length (data bs) = length (data qs) /\
     length (data bt) = length (data jt)) /\
  SetCriterion._get_src_permutation_idx [] g = Raise ValueError /\
  SetCriterion._get_tgt_permutation_idx [] g = Raise ValueError.
Proof.
  intros Hne Hv. split; [|split; reflexivity].
  assert (swapped indices <> []) as Hne'
    by (unfold swapped; intros E; now apply map_eq_nil in E).
  assert (Forall (fun p : tensor Z * tensor Z => vector p.1) indices) as Hv1
    by (eapply Forall_impl; [exact Hv | now intros p [? _]]).
  assert (Forall (fun p : tensor Z * tensor Z => vector p.1) (swapped indices))
    as Hv2.
  { unfold swapped. apply Forall_fmap.
    eapply Forall_impl; [exact Hv | now intros p [_ ?]]. }
  eexists _, _, _, _.
  split; [apply (src_permutation_ok indices Hne g Hv1)|].
  split; [rewrite tgt_permutation_swapped;
          apply (src_permutation_ok _ Hne' g Hv2)|].
  cbn [data]. unfold vector. cbn [shape data requires_grad].
  rewrite !length_batch_index, !length_src_index.
  rewrite image_target_pairs_swapped, !zip_batch_src.
  repeat split; reflexivity.
Qed.

(** A batch of two images: a pair in the first, none in the second. *)
Lemma permutation_indices_list_the_matched_pairs_witness :
  exists bs qs bt jt,
    SetCriterion._get_src_permutation_idx two_image_matching true
    = Ok (bs, qs) /\
    SetCriterion._get_tgt_permutation_idx two_image_matching true
    = Ok (bt, jt) /\
    vector bs /\ vector qs /\ vector bt /\ vector jt /\
    zip (data bs) (data qs) = image_query_pairs two_image_matching /\
    zip (data bt) (data jt) = image_target_pairs two_image_matching /\
    length (data bs) = length (data qs) /\
    length (data bt) = length (data jt).
Proof.
  refine (proj1 (permutation_indices_list_the_matched_pairs
                   two_image_matching true _ _)).
  - discriminate.
  - repeat constructor.
Defined.

(** ** What [PostProcess.forward] rejects *)

(** X3.  [PostProcess.forward] raises [KeyError] when the outputs lack
    ['pred_logits'] or ['pred_boxes'], [AssertionError] when the logits and
    the sizes differ in their first dimension or when the sizes have a
    second dimension other than 2, and [IndexError] when the sizes have no
    second dimension; nothing is computed before these checks. *)
Theorem postprocess_checks_its_inputs
    (ext : imports) (outputs : bundle) (sizes : tensor R) (g : bool) :
  (outputs !! "pred_logits" = None ->
   PostProcess.forward ext outputs sizes g = Raise KeyError) /\
  (is_Some (outputs !! "pred_logits") -> outputs !! "pred_boxes" = None ->
   PostProcess.forward ext outputs sizes g = Raise KeyError) /\
  (forall logits boxes B s B' s',
     outputs !! "pred_logits" = Some logits ->
     outputs !! "pred_boxes" = Some boxes ->
     shape logits = B :: s -> shape sizes = B' :: s' ->
     (B <> B' -> PostProcess.forward ext outputs sizes g = Raise AssertionError)
     /\
     (B = B' -> s' = [] ->
      PostProcess.forward ext outputs sizes g = Raise IndexError) /\
     (B = B' -> forall c s'', s' = c :: s'' -> c <> 2%nat ->
      PostProcess.forward ext outputs sizes g = Raise AssertionError)).
Proof.
  unfold PostProcess.forward, no_grad, getitem.
  split; [|split].
  - intros ->. reflexivity.
  - intros [logits ->] ->. reflexivity.
  - intros logits boxes B s B' s' -> -> Hs Hss.
    cbv [bind ret torch.len list_getitem assert raise]. rewrite Hs, Hss.
    split; [|split].
    + intros Hne. now rewrite bool_decide_eq_false_2.
    + intros <- ->. now rewrite bool_decide_eq_true_2.
    + intros <- c s'' -> Hc. rewrite bool_decide_eq_true_2 by reflexivity.
      cbn [lookup list_lookup].
      now rewrite bool_decide_eq_false_2.
Qed.

(** ** How [SetCriterion.forward] fails *)

Lemma foldM_raise {A S} (f : S -> A -> M S) (pre rest : list A) (x : A)
    (e : exn) (s : S) g :
  Forall (fun y => forall s', is_ok (f s' y g)) pre ->
  (forall s', f s' x g = Raise e) ->
  foldM f s (pre ++ x :: rest) g = Raise e.
Proof.
  intros Hpre Hx. revert s.
  induction Hpre as [|y pre Hy _ IH]; intros s; simpl.
  - unfold bind. now rewrite Hx.
  - unfold bind. specialize (Hy s). destruct (f s y g); [apply IH | destruct Hy].
Qed.

(** X4.  [SetCriterion.forward] raises what the matcher raises; when the
    matcher returns, it raises [KeyError] as soon as one target has no
    ['labels'], whatever losses are requested, and [StopIteration] on an
    empty outputs dictionary. *)
Theorem forward_fails_before_any_loss
    (ext : imports) (self : SetCriterion.criterion)
    (outputs : gmap string outval) (targets : list target) (g : bool) :
  (forall e,
     SetCriterion.matcher self (outputs_without_aux outputs) targets g
     = Raise e ->
     SetCriterion.forward ext self outputs targets g = Raise e) /\
  (is_ok (SetCriterion.matcher self (outputs_without_aux outputs) targets g) ->
   (Forall (fun t : target =>
              forall v, t !! "labels" = Some v -> torch.v_shape v <> [])
           targets ->
    Exists (fun t : target => t !! "labels" = None) targets ->
    SetCriterion.forward ext self outputs targets g = Raise KeyError) /\
   (labelled targets -> outputs = ∅ ->
    SetCriterion.forward ext self outputs targets g = Raise StopIteration)).
Proof.
  unfold SetCriterion.forward, SetCriterion.forward_with, outputs_without_aux.
  split.
  - intros e He. now rewrite (bind_raise _ _ _ _ He).
  - intros Hm.
    destruct (SetCriterion.matcher self _ targets g) as [indices|] eqn:Em;
      [|destruct Hm].
    rewrite (bind_ok _ _ _ _ Em). split.
    + intros Hshape Hmiss.
      rewrite (bind_raise _ _ _ KeyError); [reflexivity|].
      unfold SetCriterion.normalization.
      rewrite (bind_raise _ _ _ KeyError); [reflexivity|].
      apply mapM_raise.
      * apply Forall_forall. intros t Ht.
        rewrite Forall_forall in Hshape. specialize (Hshape t Ht).
        unfold bind, getitem, SetCriterion.v_len.
        destruct (t !! "labels") as [v|]; [left | now right].
        unfold ret. specialize (Hshape v eq_refl).
        now destruct (torch.v_shape v).
      * eapply Exists_impl; [exact Hmiss|]. intros t Ht. simpl.
        unfold bind, getitem. now rewrite Ht.
    + intros Hl ->.
      rewrite (bind_raise _ _ _ StopIteration); [reflexivity|].
      unfold SetCriterion.normalization.
      rewrite (bind_ok _ _ _ _ (count_labels_ok targets g Hl)).
      reflexivity.
Qed.

(** X5.  When the matcher and the normalisation return, [forward] raises
    [AssertionError] at the first requested loss that is not in the registry
    of [get_loss], provided the losses before it return. *)
Theorem forward_rejects_an_unknown_loss
    (ext : imports) (self : SetCriterion.criterion)
    (outputs : gmap string outval) (targets : list target) (g : bool)
    (indices : index_pairs) (num_boxes : R) (pre rest : list string)
    (name : string) :
  SetCriterion.matcher self (outputs_without_aux outputs) targets g
  = Ok indices ->
  SetCriterion.normalization ext outputs targets g = Ok num_boxes ->
  SetCriterion.losses self = pre ++ name :: rest ->
  ~ In name registry ->
  Forall (fun loss =>
            is_ok (SetCriterion.get_loss ext self loss (tensors outputs)
                     targets indices num_boxes None g)) pre ->
  SetCriterion.forward ext self outputs targets g = Raise AssertionError.
Proof.
  intros Hm Hn Hl Hname Hpre.
  unfold SetCriterion.forward, SetCriterion.forward_with.
  unfold outputs_without_aux in Hm.
  rewrite (bind_ok _ _ _ _ Hm), (bind_ok _ _ _ _ Hn), Hl.
  rewrite (bind_raise _ _ _ AssertionError); [reflexivity|].
  apply foldM_raise.
  - eapply Forall_impl; [exact Hpre|]. intros loss Hok s'. simpl in *.
    unfold bind.
    now destruct (SetCriterion.get_loss ext self loss _ targets indices
                    num_boxes None g).
  - intros s'. unfold bind.
    now rewrite (get_loss_unknown ext self name _ _ _ _ _ g Hname).
Qed.

(** The cardinality error is computed, then ['giou'] is refused. *)
Lemma forward_rejects_an_unknown_loss_witness :
  SetCriterion.forward Instance.imports_1 criterion_giou Instance.outputs_1
    [Instance.target_1] true
  = Raise AssertionError.
Proof.
  refine (forward_rejects_an_unknown_loss Instance.imports_1 criterion_giou
            Instance.outputs_1 [Instance.target_1] true Instance.indices_1
            (denominator Instance.imports_1 [Instance.target_1])
            ["cardinality"] [] "giou" eq_refl _ eq_refl _ _).
  - apply normalization_ok.
    + repeat constructor.
      exists (VLong (Tensor [1%nat] [0%Z] false)), 1%nat, [].
      split; reflexivity.
    + vm_compute. discriminate.
  - unfold registry. simpl. intros H.
    repeat (destruct H as [H|H]; [discriminate|]). exact H.
  - repeat constructor.
Defined.

(** ** The depth loss of a criterion built without a bin resolution *)

(** X6.  [depth_bin_res] is [None] unless [__init__] is given one; the depth
    loss of such a criterion raises [TypeError], at the division of the
    target depths by the resolution, on inputs on which everything before
    that division succeeds. *)
Theorem depth_loss_needs_a_bin_resolution
    (self : SetCriterion.criterion) (outputs : bundle)
    (targets : list target) (indices : index_pairs) (num_boxes : R)
    (g : bool) (B Q n : nat) (Ns : list nat) (bin delta : tensor R) :
  SetCriterion.depth_bin_res self = None ->
  outputs !! "pred_depth_bin" = Some bin ->
  outputs !! "pred_depth_delta" = Some delta ->
  shape bin = [B; Q; n] -> shape delta = [B; Q; 1%nat] ->
  indices <> [] -> length Ns = B -> float_field "depth" [] Ns targets ->
  valid_matching Q Ns indices ->
  SetCriterion.loss_depth_multi_bin self outputs targets indices num_boxes g
  = Raise TypeError.
Proof.
  intros Hres Hbin Hdelta Hsb Hsd Hne HB Hfield Hvalid.
  pose proof (valid_matching_in_range _ _ _ Hvalid) as Hr. rewrite HB in Hr.
  unfold SetCriterion.loss_depth_multi_bin, contains, getitem.
  rewrite Hbin, Hdelta. rewrite !bool_decide_eq_true_2 by eauto.
  unfold assert. rewrite !(bind_ok _ _ _ tt) by reflexivity.
  rewrite (bind_ok _ _ _ _
             (src_permutation_ok indices Hne g
                (valid_matching_vectors _ _ _ Hvalid))).
  rewrite (bind_ok _ _ _ bin) by reflexivity.
  rewrite (bind_ok _ _ _ _ (index2_matched bin B Q [n] indices g Hsb Hr)).
  unfold torch.squeeze at 1. unfold torch.mk at 1. unfold bind at 1.
  rewrite (bind_ok _ _ _ delta) by reflexivity.
  rewrite (bind_ok _ _ _ _ (index2_matched delta B Q [1%nat] indices g Hsd Hr)).
  unfold torch.squeeze at 1. unfold torch.mk at 1. unfold bind at 1.
  rewrite (bind_ok _ _ _ _
             (cat_targets_float "depth" [] Ns Q targets indices Hne Hfield
                Hvalid g)).
  cbv zeta. unfold SetCriterion.bin_res. rewrite Hres. reflexivity.
Qed.

Lemma depth_loss_needs_a_bin_resolution_witness :
  SetCriterion.loss_depth_multi_bin criterion_giou Instance.depth_layer
    [Instance.depth_target_2] Instance.indices_2 1 true
  = Raise TypeError.
Proof.
  refine (depth_loss_needs_a_bin_resolution criterion_giou
            Instance.depth_layer [Instance.depth_target_2] Instance.indices_2
            1 true 1 2 3 [2%nat]
            (Tensor [1; 2; 3]%nat [1; 0; 0; 0; 1; 0]%R true)
            (Tensor [1; 2; 1]%nat [1; 2]%R true)
            eq_refl eq_refl eq_refl eq_refl eq_refl _ eq_refl _ _).
  - discriminate.
  - apply depth_instance_field.
  - apply depth_instance_matching.
Defined.

(** ** The box losses *)

Lemma diag_data (M : nat) (d : list R) :
  length d = (M * M)%nat ->
  flat_map (fun i => torch.row 1 (i * M + i) d) (seq 0 (Nat.min M M))
  = map (fun k => nth (k * M + k) d 0%R) (seq 0 M).
Proof.
  intros Hd. rewrite Nat.min_id, <- flat_map_singleton.
  apply flat_map_ext_in. intros i Hi%in_seq.
  apply row_one_lookup.
  destruct (nth_lookup_or_length d (i * M + i) 0%R) as [H|H]; [exact H|nia].
Qed.

(** X7.  [loss_boxes] returns as [loss_bbox] the L1 distance between the
    matched predicted boxes and their target boxes, summed and divided by
    the denominator, and as [loss_giou] the sum of [1 - GIoU] over the
    diagonal of the pairwise GIoU matrix of the converted boxes, divided by
    the denominator: matched pair [k] is compared with target [k] only. *)
Theorem box_losses_compare_matched_pairs
    (ext : imports) (outputs : bundle) (targets : list target)
    (indices : index_pairs) (num_boxes : R) (g : bool) (B Q : nat)
    (Ns : list nat) (boxes sx tx giou : tensor R) :
  outputs !! "pred_boxes" = Some boxes ->
  shape boxes = [B; Q; 4%nat] ->
  indices <> [] -> length Ns = B -> float_field "boxes" [4%nat] Ns targets ->
  valid_matching Q Ns indices ->
  let M := num_matched indices in
  let P := matched_predictions Q 4 (data boxes) indices in
  let T := matched_targets "boxes" 4 targets indices in
  box_cxcywh_to_xyxy ext (Tensor [M; 4%nat] P (g && requires_grad boxes)) g
  = Ok sx ->
  box_cxcywh_to_xyxy ext (Tensor [M; 4%nat] T false) g = Ok tx ->
  generalized_box_iou ext sx tx g = Ok giou ->
  shape giou = [M; M] -> torch.wf giou ->
  SetCriterion.loss_boxes ext outputs targets indices num_boxes g
  = Ok (<[ "loss_giou" :=
             Tensor [] [giou_loss M (data giou) num_boxes]
               (g && requires_grad giou) ]>
          {[ "loss_bbox" :=
               Tensor [] [box_distance P T num_boxes]
                 (g && requires_grad boxes) ]}).
Proof.
  intros Hboxes Hs Hne HB Hfield Hvalid M P T Hsx Htx Hgiou Hsg Hwg.
  pose proof (valid_matching_in_range _ _ _ Hvalid) as Hr. rewrite HB in Hr.
  unfold SetCriterion.loss_boxes, contains, getitem. rewrite Hboxes.
  rewrite bool_decide_eq_true_2 by eauto.
  unfold assert. rewrite (bind_ok _ _ _ tt) by reflexivity.
  rewrite (bind_ok _ _ _ _
             (src_permutation_ok indices Hne g
                (valid_matching_vectors _ _ _ Hvalid))).
  rewrite (bind_ok _ _ _ boxes) by reflexivity.
  rewrite (bind_ok _ _ _ _ (index2_matched boxes B Q [4%nat] indices g Hs Hr)).
  rewrite (bind_ok _ _ _ _
             (cat_targets_float "boxes" [4%nat] Ns Q targets indices Hne
                Hfield Hvalid g)).
  cbv zeta. cbn [torch.to_float torch.numel foldr]. change (4 * 1)%nat with 4%nat.
  fold M P T.
  unfold F.l1_loss_none, torch.sub.
  rewrite bind_assoc, (bind_ok _ _ _ _ (binop_literal Rminus _ _ _ _ _ g)).
  unfold torch.abs at 1, torch.unop at 1, torch.mk at 1, bind at 1.
  unfold torch.sum at 1, torch.mk at 1, bind at 1.
  unfold torch.div_scalar at 1, torch.unop at 1, torch.mk at 1, bind at 1.
  cbn [shape data requires_grad map].
  rewrite (bind_ok _ _ _ _ Hsx), (bind_ok _ _ _ _ Htx), (bind_ok _ _ _ _ Hgiou).
  unfold torch.diag. rewrite Hsg.
  unfold torch.rsub_scalar, torch.sum, torch.div_scalar, torch.unop, torch.mk,
    bind, ret.
  cbn [shape data requires_grad map].
  assert (length (data giou) = (M * M)%nat) as Hd.
  { unfold torch.wf in Hwg. rewrite Hwg, Hsg. simpl. lia. }
  rewrite (diag_data M (data giou) Hd), !map_map, map_zip_with.
  unfold giou_loss, box_distance.
  replace (g && (g && (g && (g && requires_grad giou))))
    with (g && requires_grad giou) by (now destruct g).
  replace (g && (g && (g && (g && (g && requires_grad boxes || false)))))
    with (g && requires_grad boxes)
    by (now destruct g, (requires_grad boxes)).
  reflexivity.
Qed.

(** One matched pair, with the box conversion modelled from the
    specification and a constant stand-in for the GIoU. *)
Lemma box_losses_compare_matched_pairs_witness :
  SetCriterion.loss_boxes Instance.imports_1 Instance.post_outputs
    [box_target] Instance.indices_1 1 true
  = Ok (<[ "loss_giou" := Tensor [] [giou_loss 1 [1%R] 1] true ]>
          {[ "loss_bbox" :=
               Tensor [] [box_distance [1; 1; 2; 2]%R [1; 1; 2; 2]%R 1]
                 true ]}).
Proof.
  refine (box_losses_compare_matched_pairs Instance.imports_1
            Instance.post_outputs [box_target] Instance.indices_1 1 true 1 2
            [1%nat]
            (Tensor [1; 2; 4]%nat [1; 1; 2; 2; 3; 3; 2; 2]%R true)
            (Tensor [1; 4]%nat
               [1 - 2 / 2; 1 - 2 / 2; 1 + 2 / 2; 1 + 2 / 2]%R true)
            (Tensor [1; 4]%nat
               [1 - 2 / 2; 1 - 2 / 2; 1 + 2 / 2; 1 + 2 / 2]%R false)
            (Tensor [1; 1]%nat [1%R] true)
            eq_refl eq_refl _ eq_refl _ _ eq_refl eq_refl eq_refl eq_refl
            eq_refl).
  - discriminate.
  - constructor; [|constructor].
    exists (Tensor [1; 4]%nat [1; 1; 2; 2]%R false).
    repeat split; reflexivity.
  - constructor; [|constructor].
    repeat split; try reflexivity; repeat constructor; lia.
Defined.

(** ** The angle loss *)

Lemma sum_zip_zeros (r : list R) (n : nat) :
  sum_R (zip_with Rmult r (replicate n 0%R)) = 0%R.
Proof.
  revert n. induction r as [|x r IH]; intros [|n]; try reflexivity.
  cbn [replicate zip_with]. unfold sum_R in *. cbn [foldr]. rewrite IH. lra.
Qed.

(** The product with a one-hot row selects one entry. *)
Lemma one_hot_select (n y : nat) (r : list R) :
  (y < n)%nat -> length r = n ->
  sum_R (zip_with Rmult r (<[y := 1%R]> (replicate n 0%R))) = nth y r 0%R.
Proof.
  revert n y. induction r as [|x r IH]; intros [|n] [|y] Hy Hr;
    simpl in Hr; try lia.
  - cbn [replicate]. simpl. fold (sum_R (zip_with Rmult r (replicate n 0%R))).
    rewrite sum_zip_zeros. lra.
  - cbn [replicate]. simpl.
    fold (sum_R (zip_with Rmult r (<[y := 1%R]> (replicate n 0%R)))).
    rewrite (IH n y) by lia. lra.
Qed.

Lemma scatter_one_hot_ok (ext : imports) (c : nat) (cls : list Z) g :
  cuda_tensors ext = true ->
  Forall (fun y => 0 <= y < Z.of_nat c)%Z cls ->
  SetCriterion.scatter_one_hot ext c (Tensor [length cls] cls false) g
  = Ok (Tensor [length cls; c]
          (flat_map (fun y => <[Z.to_nat y := 1%R]> (replicate c 0%R)) cls)
          false).
Proof.
  intros Hcuda Hcls. unfold SetCriterion.scatter_one_hot. rewrite Hcuda.
  cbn [data].
  rewrite (bind_ok _ _ _
             (map (fun y => <[Z.to_nat y := 1%R]> (replicate c 0%R)) cls)).
  - unfold ret. now rewrite flat_map_concat_map.
  - apply mapM_ok. intros y Hy%list_elem_of_In.
    rewrite Forall_forall in Hcls. now rewrite decide_True by auto.
Qed.

Lemma cross_entropy_rows (M c : nat) (d : list R) (cls : list Z) (rg : bool)
    g :
  length d = (M * c)%nat -> length cls = M ->
  Forall (fun y => 0 <= y < Z.of_nat c)%Z cls ->
  F.cross_entropy_none (Tensor [M; c] d rg) (Tensor [M] cls false) g
  = Ok (Tensor [M]
          (zip_with (fun x y => - nth (Z.to_nat y) (F.log_softmax_row x) 0)%R
             (torch.chunks c M d) cls)
          (g && rg)).
Proof.
  intros Hd Hl Hcls. unfold F.cross_entropy_none, F.samples.
  cbn [shape data requires_grad]. rewrite decide_True by reflexivity.
  unfold bind at 1, ret at 1. cbn [torch.numel foldr].
  rewrite class_vectors_one by assumption.
  rewrite (bind_ok _ _ _
             (map (fun xy : list R * Z =>
                     ((- nth (Z.to_nat xy.2) (F.log_softmax_row xy.1) 0)%R,
                      1%R))
                  (zip (torch.chunks c M d) cls))).
  - unfold torch.mk. do 2 f_equal. rewrite map_map. cbn [fst].
    apply (map_zip_fst
             (fun x y => (- nth (Z.to_nat y) (F.log_softmax_row x) 0)%R)).
  - apply mapM_ok. intros [x y] Hxy. unfold F.nll.
    assert (0 <= y < Z.of_nat c)%Z as Hy.
    { rewrite Forall_forall in Hcls. apply Hcls.
      apply list_elem_of_In, list_elem_of_lookup in Hxy as (i & Hi).
      apply lookup_zip_with_Some in Hi as (x' & y' & Heq & _ & Hy').
      injection Heq as <- <-. eapply list_elem_of_lookup_2, Hy'. }
    rewrite decide_False by lia. rewrite decide_True by assumption.
    unfold ret. cbn [fst snd].
    rewrite (nth_lookup_Some _ _ _ 1%R) by (apply lookup_replicate_2; lia).
    f_equal. f_equal. lra.
Qed.

(** The data of the angle loss, pair by pair. *)
Lemma heading_losses (X : list (list R)) (Tc Tr : list R) :
  Forall (fun x => length x = 24%nat) X ->
  length Tc = length X -> length Tr = length X ->
  Forall (fun c => 0 <= torch.trunc c < 12)%Z Tc ->
  zip_with Rplus
    (zip_with (fun x y => - nth (Z.to_nat y) (F.log_softmax_row x) 0)%R
       (map (fun blk => take 12 (drop 0 blk)) X) (map torch.trunc Tc))
    (zip_with (fun s r => Rabs (s - r))
       (map sum_R
          (torch.chunks 12 (length X)
             (zip_with Rmult
                (flat_map (fun blk => take 12 (drop 12 blk)) X)
                (flat_map (fun y => <[Z.to_nat y := 1%R]> (replicate 12 0%R))
                   (map torch.trunc Tc)))))
       Tr)
  = zip_with (fun x (cr : R * R) => heading_loss x cr.1 cr.2) X (zip Tc Tr).
Proof.
  intros HX. revert Tc Tr.
  induction HX as [|x X Hx _ IH]; intros [|c Tc] [|r Tr] Hc Hr Hcls;
    simpl in Hc, Hr; try lia; [reflexivity|].
  apply Forall_cons in Hcls as [Hc0 Hcls].
  cbn [map flat_map length torch.chunks zip zip_with].
  assert (length (take 12 (drop 12 x)) = 12%nat) as Hl1
    by (rewrite length_take, length_drop; lia).
  assert (length (<[Z.to_nat (torch.trunc c) := 1%R]> (replicate 12 0%R))
          = 12%nat) as Hl2
    by (now rewrite length_insert, length_replicate).
  rewrite zip_with_app by lia.
  rewrite take_app_length', drop_app_length'
    by (rewrite length_zip_with; lia).
  cbn [map zip_with]. f_equal.
  - unfold heading_loss. rewrite drop_0. f_equal. f_equal.
    rewrite (one_hot_select 12) by (lia || assumption).
    f_equal. rewrite nth_lookup, nth_lookup.
    rewrite lookup_take_lt, lookup_drop by lia. reflexivity.
  - apply IH; (lia || assumption).
Qed.

(** *** Gathering an int64 field of the matched targets *)

Lemma trunc_IZR (z : Z) : torch.trunc (IZR z) = z.
Proof.
  destruct (Z_lt_le_dec z 0) as [Hz|Hz].
  - apply trunc_spec_neg; [now apply IZR_lt|]. lra.
  - apply trunc_spec_nonneg; [now apply IZR_le|]. lra.
Qed.

Lemma row_map {A B} (f : A -> B) (k i : nat) (d : list A) :
  torch.row k i (map f d) = map f (torch.row k i d).
Proof. unfold torch.row. now rewrite <- fmap_drop, <- fmap_take. Qed.

Section long_targets.

Variables (key : string) (Ns : list nat) (Q : nat).
Variables (targets : list target) (indices : index_pairs).
Hypothesis Hne : indices <> [].
Hypothesis Hfield : long_field key Ns targets.
Hypothesis Hvalid : valid_matching Q Ns indices.

Lemma zipped_long_facts b (t : target) p :
  targets !! b = Some t -> indices !! b = Some p ->
  exists N v, t !! key = Some (VLong v) /\ shape v = [N] /\ torch.wf v /\
              requires_grad v = false /\ valid_pair Q N p.
Proof.
  intros Ht Hp.
  destruct (Forall2_lookup_r _ _ _ _ _ Hfield Ht) as (N & HN & v & Hv).
  destruct (Forall2_lookup_l _ _ _ _ _ Hvalid HN) as (p' & Hp' & Hvp).
  assert (Some p = Some p') as Heq
    by (etransitivity; [symmetry; exact Hp | exact Hp']).
  injection Heq as <-. exists N, v. tauto.
Qed.

Lemma length_longs_indices : length targets = length indices.
Proof.
  rewrite <- (Forall2_length _ _ _ Hfield). apply (Forall2_length _ _ _ Hvalid).
Qed.

(** The entries of one image that its target indices select. *)
Let longs_of (t : target) (J : list Z) : list Z :=
  flat_map (fun j =>
              match t !! key with
              | Some (VLong v) => torch.row 1 (Z.to_nat j) (data v)
              | _ => []
              end) J.

(** The field as [cat_targets] gathers it: an int64 vector, whose entries
    are those of [matched_targets]. *)
Lemma cat_targets_long g :
  exists zs,
    SetCriterion.cat_targets key targets indices g
    = Ok (VLong (Tensor [num_matched indices] zs false)) /\
    map IZR zs = matched_targets key 1 targets indices.
Proof.
  exists (flat_map (fun bj : nat * nat =>
                      match targets !! bj.1 with
                      | Some t =>
                          match t !! key with
                          | Some (VLong v) => torch.row 1 bj.2 (data v)
                          | _ => []
                          end
                      | None => []
                      end) (target_pairs indices)).
  split.
  - unfold SetCriterion.cat_targets.
    set (h := fun tp : target * (tensor Z * tensor Z) =>
                Tensor [length (data tp.2.2)]
                  (longs_of tp.1 (data tp.2.2)) false).
    assert (forall tp, In tp (zip targets indices) ->
              exists b, targets !! b = Some tp.1 /\ indices !! b = Some tp.2)
      as Hzip.
    { intros [t p] Htp.
      apply list_elem_of_In, list_elem_of_lookup in Htp as (b & Hb).
      apply lookup_zip_with_Some in Hb as (t' & p' & Heq & Ht & Hp).
      injection Heq as -> ->. eauto. }
    rewrite (bind_ok _ _ _
               (map (fun tp => VLong (h tp)) (zip targets indices))).
    2: { apply mapM_ok. intros [t [src J]] Htp.
         destruct (Hzip _ Htp) as (b & Ht & Hp). simpl in Ht, Hp.
         destruct (zipped_long_facts b t (src, J) Ht Hp)
           as (N & v & Hk & Hs & Hw & Hg & (_ & HJ & _ & _ & Hr)).
         unfold getitem. rewrite Hk. unfold bind at 1. unfold ret at 1.
         simpl. rewrite (bind_ok _ _ _ _ (index0_ok v J N [] g Hs HJ Hr)).
         unfold ret, h, longs_of. simpl. rewrite Hk, Hg, andb_false_r.
         reflexivity. }
    unfold torch.v_cat.
    assert (zip targets indices <> []) as Hzne.
    { pose proof length_longs_indices as Hl. intros E.
      apply (f_equal length) in E. rewrite length_zip_with in E.
      apply Hne, nil_length_inv. simpl in E. lia. }
    replace (forallb torch.is_long
               (map (fun tp => VLong (h tp)) (zip targets indices))) with true
      by (symmetry; apply forallb_forall; intros v Hv;
          apply in_map_iff in Hv as (tp & <- & _); reflexivity).
    assert (concat (map torch.long_part
                      (map (fun tp => VLong (h tp)) (zip targets indices)))
            = map h (zip targets indices)) as ->.
    { rewrite map_map. simpl. clear.
      induction (zip targets indices) as [|tp l IH]; simpl; [reflexivity|].
      now rewrite IH. }
    assert (Forall (fun t : tensor Z =>
                      exists n, shape t = [n] /\
                                length (data t) = (n * torch.numel [])%nat)
                   (map h (zip targets indices))) as Hall.
    { apply Forall_forall. intros t' Ht'.
      apply list_elem_of_In, in_map_iff in Ht' as ([t [src J]] & <- & Htp).
      destruct (Hzip _ Htp) as (b & Ht & Hp). simpl in Ht, Hp.
      destruct (zipped_long_facts b t (src, J) Ht Hp)
        as (N & v & Hk & Hs & Hw & Hg & (_ & HJ & _ & _ & Hr)).
      exists (length (data J)). split; [reflexivity|]. simpl.
      unfold longs_of. rewrite Hk.
      now apply (index0_wf v (data J) N []). }
    assert (map h (zip targets indices) <> []) as Hmne
      by (intros E; now apply map_eq_nil in E).
    rewrite (bind_ok _ _ _ _ (cat_ok _ [] g Hmne Hall)).
    unfold ret. do 2 f_equal. f_equal.
    + f_equal. rewrite <- (num_matched_targets Q Ns indices Hvalid).
      rewrite !map_map. simpl.
      rewrite <- (map_snd_enumerate indices) at 2. rewrite map_map.
      f_equal. apply map_zip_enumerate; [apply length_longs_indices|].
      reflexivity.
    + rewrite !map_map. simpl. unfold target_pairs.
      rewrite flat_map_of_flat_map, flat_map_concat_map. f_equal.
      apply map_zip_enumerate; [apply length_longs_indices|].
      intros b t [src J] Ht _. simpl. rewrite flat_map_of_map.
      unfold longs_of.
      apply flat_map_ext_in. intros j _. simpl. now rewrite Ht.
    + rewrite existsb_requires_grad_false; [apply andb_false_r|].
      apply Forall_forall. intros t' Ht'.
      now apply list_elem_of_In, in_map_iff in Ht' as (tp & <- & _).
  - unfold matched_targets. rewrite map_of_flat_map.
    apply flat_map_ext_in. intros [b j] _. cbn [fst snd].
    destruct (targets !! b) as [t|] eqn:Ht; [|reflexivity].
    destruct (Forall2_lookup_r _ _ _ _ _ Hfield Ht)
      as (N & _ & v & Hk & _).
    rewrite Hk. cbn [torch.to_float data]. now rewrite row_map.
Qed.

Lemma length_matched_longs :
  length (matched_targets key 1 targets indices) = num_matched indices.
Proof.
  unfold matched_targets.
  rewrite (length_flat_map_const _ _ 1).
  - rewrite Nat.mul_1_r. rewrite <- (num_matched_targets Q Ns indices Hvalid).
    unfold target_pairs. rewrite <- (map_snd_enumerate indices) at 2.
    induction (enumerate indices) as [|bp l IH]; simpl; [reflexivity|].
    now rewrite length_app, length_map, IH.
  - intros [b j] Hbj. unfold target_pairs in Hbj.
    apply in_flat_map in Hbj as (bp & Hbp & Hbj).
    apply in_map_iff in Hbj as (j' & Heq & Hj). injection Heq as <- <-.
    apply In_enumerate in Hbp.
    destruct (lookup_lt_is_Some_2 targets bp.1) as [t Ht].
    { rewrite length_longs_indices. now apply lookup_lt_Some in Hbp. }
    destruct (zipped_long_facts _ t _ Ht Hbp)
      as (N & v & Hk & Hs & Hw & Hg & (_ & _ & _ & _ & Hr)).
    simpl. rewrite Ht, Hk. cbn [torch.to_float data]. apply row_length.
    rewrite Forall_forall in Hr. apply list_elem_of_In, Hr in Hj.
    unfold torch.wf in Hw. rewrite length_map, Hw, Hs. simpl. lia.
Qed.

End long_targets.

(** X8.  [loss_angles] reads the 24 predicted entries of each matched query
    as 12 bin scores followed by 12 residuals.  The heading bins of the
    targets are int64 or floating tensors, converted with [long()].  With
    the tensors on a CUDA device it returns the sum over the matched pairs
    of the cross-entropy of the bin scores against the target heading bin
    plus the distance between the residual predicted for that bin and the
    target residual, divided by the denominator.  With the tensors on the
    CPU it raises [RuntimeError], because the one-hot mask is moved to the
    CUDA device whatever the device of the other tensors is. *)
Theorem angle_loss_is_bin_cross_entropy_plus_residual_distance
    (ext : imports) (outputs : bundle) (targets : list target)
    (indices : index_pairs) (num_boxes : R) (g : bool) (B Q : nat)
    (Ns : list nat) (angle : tensor R) :
  outputs !! "pred_angle" = Some angle ->
  shape angle = [B; Q; 24%nat] -> torch.wf angle ->
  indices <> [] -> length Ns = B ->
  long_field "heading_bin" Ns targets \/
  float_field "heading_bin" [] Ns targets ->
  float_field "heading_res" [] Ns targets ->
  valid_matching Q Ns indices ->
  let P := matched_predictions Q 24 (data angle) indices in
  let Tc := matched_targets "heading_bin" 1 targets indices in
  let Tr := matched_targets "heading_res" 1 targets indices in
  Forall (fun c => 0 <= torch.trunc c < 12)%Z Tc ->
  (cuda_tensors ext = true ->
   SetCriterion.loss_angles ext outputs targets indices num_boxes g
   = Ok {[ "loss_angle" :=
             Tensor [] [angle_loss P Tc Tr num_boxes]
               (g && requires_grad angle) ]}) /\
  (cuda_tensors ext = false ->
   SetCriterion.loss_angles ext outputs targets indices num_boxes g
   = Raise RuntimeError).
Proof.
  intros Hangle Hs Hw Hne HB Hfc Hfr Hvalid P Tc Tr Hcls.
  enough (SetCriterion.loss_angles ext outputs targets indices num_boxes g
          = if cuda_tensors ext
            then Ok {[ "loss_angle" :=
                         Tensor [] [angle_loss P Tc Tr num_boxes]
                           (g && requires_grad angle) ]}
            else Raise RuntimeError) as Hboth.
  { split; intros Hc; rewrite Hboth, Hc; reflexivity. }
  pose proof (valid_matching_in_range _ _ _ Hvalid) as Hr. rewrite HB in Hr.
  pose proof (length_matched_predictions angle B Q [24%nat] indices Hs Hw Hr)
    as HlP.
  pose proof (length_matched_targets "heading_res" [] Ns Q targets indices Hfr
                Hvalid) as HlR.
  set (M := num_matched indices) in *.
  (* the heading bins, of either type *)
  assert (exists vc,
            SetCriterion.cat_targets "heading_bin" targets indices g = Ok vc /\
            torch.long vc = Tensor [M] (map torch.trunc Tc) false /\
            length Tc = M) as (vc & Hvc & Hlong & HlC).
  { destruct Hfc as [Hfc|Hfc].
    - destruct (cat_targets_long "heading_bin" Ns Q targets indices Hne Hfc
                  Hvalid g) as (zs & Hzs & Hmap).
      exists (VLong (Tensor [M] zs false)). split; [exact Hzs|]. split.
      + cbn [torch.long]. f_equal. unfold Tc. rewrite <- Hmap, map_map.
        rewrite <- (map_id zs) at 1. apply map_ext. intros z.
        now rewrite trunc_IZR.
      + apply (length_matched_longs "heading_bin" Ns Q targets indices Hfc
                 Hvalid).
    - eexists. split; [|split].
      + apply (cat_targets_float "heading_bin" [] Ns Q targets indices Hne Hfc
                 Hvalid g).
      + reflexivity.
      + pose proof (length_matched_targets "heading_bin" [] Ns Q targets
                      indices Hfc Hvalid) as H.
        cbn [torch.numel foldr] in H. now rewrite Nat.mul_1_r in H. }
  cbn [torch.numel foldr] in HlP, HlR.
  rewrite Nat.mul_1_r in HlR. change (24 * 1)%nat with 24%nat in HlP.
  fold P in HlP. fold Tr in HlR.
  unfold SetCriterion.loss_angles, getitem. rewrite Hangle.
  rewrite (bind_ok _ _ _ _
             (src_permutation_ok indices Hne g
                (valid_matching_vectors _ _ _ Hvalid))).
  rewrite (bind_ok _ _ _ angle) by reflexivity.
  rewrite (bind_ok _ _ _ _ (index2_matched angle B Q [24%nat] indices g Hs Hr)).
  rewrite (bind_ok _ _ _ _ Hvc).
  rewrite (bind_ok _ _ _ _
             (cat_targets_float "heading_res" [] Ns Q targets indices Hne Hfr
                Hvalid g)).
  rewrite Hlong.
  cbn [torch.numel foldr torch.to_float].
  change (24 * 1)%nat with 24%nat. fold P Tr M.
  unfold torch.view_rows at 1. cbn [data requires_grad].
  rewrite HlP, Nat.Div0.mod_mul, Nat.div_mul by lia.
  rewrite decide_True by (split; [lia | reflexivity]).
  unfold torch.mk at 1, bind at 1.
  unfold torch.view_flat at 1, torch.mk at 1, bind at 1.
  unfold torch.view_flat at 1, torch.mk at 1, bind at 1.
  cbn [data requires_grad]. rewrite length_map, HlC, HlR.
  rewrite !andb_false_r.
  unfold torch.slice1 at 1, torch.mk at 1, bind at 1.
  cbn [shape data requires_grad torch.numel foldr Nat.min Nat.max Nat.sub].
  change (24 * 1)%nat with 24%nat. change (12 * 1)%nat with 12%nat.
  change (0 * 1)%nat with 0%nat.
  pose proof (chunks_Forall_length 24 M P HlP) as HX.
  pose proof (chunks_length 24 M P) as HlX.
  set (X := torch.chunks 24 M P) in *.
  assert (Forall (fun c => 0 <= c < Z.of_nat 12)%Z (map torch.trunc Tc))
    as Hcls'.
  { apply Forall_fmap. eapply Forall_impl; [exact Hcls|].
    intros c Hc. simpl in *. lia. }
  assert (length (flat_map (fun blk => take 12 (drop 0 blk)) X)
          = (M * 12)%nat) as Hl12.
  { rewrite (length_flat_map_const _ _ 12), HlX; [reflexivity|].
    intros x Hx%list_elem_of_In. rewrite Forall_forall in HX.
    apply HX in Hx. rewrite length_take, length_drop. lia. }
  assert (length (map torch.trunc Tc) = M) as HlT
    by (now rewrite length_map).
  rewrite (bind_ok _ _ _ _
             (cross_entropy_rows M 12
                (flat_map (fun blk => take 12 (drop 0 blk)) X)
                (map torch.trunc Tc) _ g Hl12 HlT Hcls')).
  rewrite (chunks_flat_map_rows 12 M (fun blk => take 12 (drop 0 blk)) X HlX)
    by (eapply Forall_impl; [exact HX|]; intros x Hx; simpl in *;
        rewrite length_take, length_drop; lia).
  unfold torch.slice1 at 1, torch.mk at 1, bind at 1.
  cbn [shape data requires_grad torch.numel foldr Nat.min Nat.max Nat.sub].
  change (24 * 1)%nat with 24%nat. change (12 * 1)%nat with 12%nat.
  fold X.
  destruct (cuda_tensors ext) eqn:Hcuda.
  2: { apply bind_raise. unfold SetCriterion.scatter_one_hot.
       now rewrite Hcuda. }
  pose proof (scatter_one_hot_ok ext 12 (map torch.trunc Tc) g Hcuda Hcls')
    as Hoh.
  rewrite length_map, HlC in Hoh.
  rewrite (bind_ok _ _ _ _ Hoh).
  unfold torch.mul. rewrite (bind_ok _ _ _ _ (binop_literal Rmult _ _ _ _ _ g)).
  unfold torch.sum_dim1 at 1, torch.mk at 1, bind at 1.
  cbn [shape data requires_grad torch.numel foldr seq map].
  change (12 * 1)%nat with 12%nat.
  set (prod := zip_with Rmult _ _).
  assert (length prod = (M * 12)%nat) as Hlp.
  { unfold prod. rewrite length_zip_with.
    rewrite !(length_flat_map_const _ _ 12), HlX, length_map, HlC; [lia| |].
    - intros y _. now rewrite length_insert, length_replicate.
    - intros x Hx%list_elem_of_In. rewrite Forall_forall in HX.
      apply HX in Hx. rewrite length_take, length_drop. lia. }
  assert (flat_map
            (fun blk => [sum_R (flat_map (fun r => torch.row 1 0 r)
                                  (torch.chunks 1 12 blk))])
            (torch.chunks 12 M prod)
          = map sum_R (torch.chunks 12 M prod)) as ->.
  { rewrite <- flat_map_singleton. apply flat_map_ext_in.
    intros blk Hblk%list_elem_of_In.
    pose proof (chunks_Forall_length 12 M prod Hlp) as Hall.
    rewrite Forall_forall in Hall. apply Hall in Hblk.
    now rewrite flat_map_row_one. }
  unfold F.l1_loss_none, torch.sub.
  rewrite bind_assoc, (bind_ok _ _ _ _ (binop_literal Rminus _ _ _ _ _ g)).
  unfold torch.abs at 1, torch.unop at 1, torch.mk at 1, bind at 1.
  cbn [shape data requires_grad].
  unfold torch.add. rewrite (bind_ok _ _ _ _ (binop_literal Rplus _ _ _ _ _ g)).
  unfold torch.sum, torch.div_scalar, torch.unop, torch.mk, bind, ret.
  cbn [shape data requires_grad map].
  rewrite map_zip_with.
  unfold prod. rewrite <- HlX at 1.
  rewrite (heading_losses X Tc Tr HX) by (assumption || lia).
  unfold angle_loss. rewrite HlC. fold X.
  do 3 f_equal. now destruct g, (requires_grad angle).
Qed.

(** One matched pair, with the int64 heading bin 1 and the residual 1/4, on
    a CUDA device. *)
Lemma angle_loss_is_bin_cross_entropy_plus_residual_distance_witness :
  SetCriterion.loss_angles Instance.imports_1 angle_outputs [heading_target]
    Instance.indices_1 1 true
  = Ok {[ "loss_angle" :=
            Tensor []
              [angle_loss
                 (matched_predictions 2 24
                    (replicate 12 0%R ++ [0; 1; 0; 0; 0; 0; 0; 0; 0; 0; 0; 0]%R
                     ++ replicate 24 0%R)%list Instance.indices_1)
                 [1%R] [(1 / 4)%R] 1]
              true ]}.
Proof.
  refine (proj1 (angle_loss_is_bin_cross_entropy_plus_residual_distance
                   Instance.imports_1
                   angle_outputs [heading_target] Instance.indices_1 1 true 1 2
                   [1%nat]
                   (Tensor [1; 2; 24]%nat
                      (replicate 12 0%R
                       ++ [0; 1; 0; 0; 0; 0; 0; 0; 0; 0; 0; 0]%R
                       ++ replicate 24 0%R)%list true)
                   eq_refl eq_refl eq_refl _ eq_refl _ _ _ _) eq_refl).
  - discriminate.
  - left. constructor; [|constructor].
    exists (Tensor [1%nat] [1%Z] false). repeat split; reflexivity.
  - constructor; [|constructor].
    exists (Tensor [1%nat] [(1 / 4)%R] false). repeat split; reflexivity.
  - constructor; [|constructor].
    repeat split; try reflexivity; repeat constructor; lia.
  - change (Forall (fun c => 0 <= torch.trunc c < 12)%Z [1%R]).
    repeat constructor; rewrite (trunc_spec_nonneg 1 1); simpl; lra || lia.
Defined.

(** ** The multi-layer perceptron *)

Lemma numel_snoc (s : list nat) (b : nat) :
  torch.numel (s ++ [b]) = (torch.numel s * b)%nat.
Proof.
  induction s as [|n s IH]; simpl; [lia|].
  unfold torch.numel in *. simpl. rewrite IH. lia.
Qed.

Lemma linear_row_length (l : nn.Linear) (x : list R) :
  length (nn.bias l) = nn.out_features l ->
  length (nn.linear_row l x) = nn.out_features l.
Proof.
  intros Hb. unfold nn.linear_row.
  rewrite length_zip_with, length_map, chunks_length. lia.
Qed.

(** A linear layer replaces the last dimension. *)
Lemma Linear_forward_shape (l : nn.Linear) (x : tensor R) (s : list nat) g :
  shape x = s ++ [nn.in_features l] ->
  length (nn.bias l) = nn.out_features l ->
  exists y, nn.Linear_forward l x g = Ok y /\
            shape y = s ++ [nn.out_features l] /\ torch.wf y /\
            requires_grad y = g && (requires_grad x || nn.trainable l).
Proof.
  intros Hs Hb. unfold nn.Linear_forward. rewrite Hs, last_snoc.
  rewrite decide_True by reflexivity. rewrite removelast_last.
  eexists. split; [reflexivity|]. split; [reflexivity|]. split; [|reflexivity].
  unfold torch.wf. simpl. rewrite numel_snoc.
  rewrite (length_flat_map_const _ _ (nn.out_features l)).
  - now rewrite chunks_length.
  - intros r _. now apply linear_row_length.
Qed.

Lemma Linear_forward_mismatch (l : nn.Linear) (x : tensor R) g :
  last (shape x) <> Some (nn.in_features l) ->
  nn.Linear_forward l x g = Raise RuntimeError.
Proof.
  intros Hs. unfold nn.Linear_forward.
  destruct (last (shape x)) as [c|]; [|reflexivity].
  rewrite decide_False; [reflexivity | congruence].
Qed.

Lemma relu_shape (x : tensor R) g :
  torch.wf x ->
  exists y, nn.relu x g = Ok y /\ shape y = shape x /\ torch.wf y /\
            requires_grad y = g && requires_grad x.
Proof.
  intros Hx. eexists. split; [reflexivity|].
  split; [reflexivity|]. split; [|reflexivity].
  unfold torch.wf in *. simpl. now rewrite length_map.
Qed.

(** The loop of [forward], from any position [j] on. *)
Lemma layers_run (n : Z) (b : nat) (g : bool) (L : list nn.Linear) :
  forall (j a : nat) (s : list nat) (x : tensor R),
    chained a L b -> shape x = s ++ [a] -> torch.wf x ->
    exists y,
      foldM (fun x '(i, layer) =>
               if decide (Z.of_nat i < n - 1)%Z
               then do y <- nn.Linear_forward layer x; nn.relu y
               else nn.Linear_forward layer x)
            x (zip (seq j (length L)) L) g = Ok y /\
      shape y = s ++ [b] /\ torch.wf y /\
      (L <> [] -> requires_grad y = g).
Proof.
  induction L as [|l L IH]; intros j a s x Hc Hs Hx.
  - simpl in Hc. subst b. exists x. simpl. unfold ret. now repeat split.
  - destruct Hc as (Hin & Hb & Ht & Hc). subst a.
    destruct (Linear_forward_shape l x s g Hs Hb) as (y & Hy & Hsy & Hwy & Hgy).
    rewrite Ht, orb_true_r, andb_true_r in Hgy.
    assert (exists z,
              (if decide (Z.of_nat j < n - 1)%Z
               then do y <- nn.Linear_forward l x; nn.relu y
               else nn.Linear_forward l x) g = Ok z /\
              shape z = s ++ [nn.out_features l] /\ torch.wf z /\
              requires_grad z = g) as (z & Hz & Hsz & Hwz & Hgz).
    { case_decide.
      - destruct (relu_shape y g Hwy) as (z & Hz & Hsz & Hwz & Hgz).
        exists z. rewrite (bind_ok _ _ _ _ Hy).
        repeat split; try assumption; [congruence|].
        rewrite Hgz, Hgy. now destruct g.
      - exists y. now repeat split. }
    destruct (IH (S j) _ s z Hc Hsz Hwz) as (w & Hw & Hsw & Hww & Hgw).
    exists w. cbn [length seq zip zip_with foldM].
    rewrite (bind_ok _ _ _ _ Hz). repeat split; try assumption.
    intros _. destruct L as [|l' L]; [|now apply Hgw].
    simpl in Hw. unfold ret in Hw. injection Hw as <-. exact Hgz.
Qed.

Lemma layers_raise (n : Z) (g : bool) (l : nn.Linear) (L : list nn.Linear)
    (x : tensor R) :
  last (shape x) <> Some (nn.in_features l) ->
  foldM (fun x '(i, layer) =>
           if decide (Z.of_nat i < n - 1)%Z
           then do y <- nn.Linear_forward layer x; nn.relu y
           else nn.Linear_forward layer x)
        x (enumerate (l :: L)) g = Raise RuntimeError.
Proof.
  intros Hs. unfold enumerate. cbn [length seq zip zip_with foldM].
  apply bind_raise. case_decide.
  - apply bind_raise. now apply Linear_forward_mismatch.
  - now apply Linear_forward_mismatch.
Qed.

(** The layers that [__init__] creates, from position [j] on. *)
Lemma layer_dims_step (a hidden output m : nat) :
  zip (a :: replicate (S m) hidden) (replicate (S m) hidden ++ [output])
  = (a, hidden)
      :: zip (hidden :: replicate m hidden) (replicate m hidden ++ [output]).
Proof. reflexivity. Qed.

Lemma init_chained (init : nat -> nat -> nat -> list R * list R)
    (hidden output m : nat) :
  sized init ->
  forall j a,
    chained a
      (map (fun '(i, (n, k)) => nn.new_Linear (init i n k) n k)
         (zip (seq j (length (zip (a :: replicate m hidden)
                                  (replicate m hidden ++ [output]))))
              (zip (a :: replicate m hidden)
                   (replicate m hidden ++ [output]))))
      output.
Proof.
  intros Hi. induction m as [|m IH]; intros j a.
  - simpl. repeat split. apply Hi.
  - rewrite layer_dims_step. cbn [length seq zip zip_with map].
    cbn [chained nn.new_Linear nn.in_features nn.out_features nn.bias
         nn.trainable].
    repeat split; [apply Hi|]. apply IH.
Qed.

(** X9.  An [MLP] holds [max(num_layers - 1, 0) + 1] linear layers; on an
    input whose last dimension has [input_dim] entries it returns a tensor
    of the same shape but for the last dimension, which has [output_dim]
    entries; on any other input it raises [RuntimeError]; and with
    [num_layers <= 1] it is one linear layer from [input_dim] to
    [output_dim] with no activation, whatever [hidden_dim] is. *)
Theorem mlp_maps_the_last_dimension
    (init : nat -> nat -> nat -> list R * list R)
    (input_dim hidden_dim output_dim : nat) (num_layers : Z)
    (x : tensor R) (g : bool) :
  sized init -> torch.wf x ->
  let m := MLP.__init__ init input_dim hidden_dim output_dim num_layers in
  length (MLP.layers m) = S (Z.to_nat (num_layers - 1)) /\
  (forall s, shape x = s ++ [input_dim] ->
     exists y, MLP.forward m x g = Ok y /\ shape y = s ++ [output_dim] /\
               torch.wf y /\ requires_grad y = g) /\
  (last (shape x) <> Some input_dim ->
   MLP.forward m x g = Raise RuntimeError) /\
  ((num_layers <= 1)%Z ->
   MLP.forward m x g
   = nn.Linear_forward
       (nn.new_Linear (init 0%nat input_dim output_dim) input_dim output_dim)
       x g).
Proof.
  intros Hi Hx m.
  assert (length (MLP.layer_dims input_dim hidden_dim output_dim num_layers)
          = S (Z.to_nat (num_layers - 1))) as Hlen.
  { unfold MLP.layer_dims. cbv zeta. rewrite length_zip_with, length_app.
    cbn [length]. rewrite length_replicate. lia. }
  assert (length (MLP.layers m) = S (Z.to_nat (num_layers - 1))) as HL.
  { unfold m, MLP.__init__, enumerate. cbn [MLP.layers].
    rewrite length_map, length_zip_with, length_seq. lia. }
  split; [exact HL|]. split; [|split].
  - intros s Hs.
    pose proof (init_chained init hidden_dim output_dim
                  (Z.to_nat (num_layers - 1)) Hi 0%nat input_dim) as Hc.
    destruct (layers_run num_layers output_dim g _ 0%nat input_dim s x Hc Hs Hx)
      as (y & Hy & Hsy & Hwy & Hgy).
    exists y. repeat split; try assumption.
    apply Hgy. intros E. fold (MLP.layer_dims input_dim hidden_dim output_dim
                                  num_layers) in E.
    apply (f_equal (@length _)) in E. unfold enumerate in E.
    rewrite length_map, length_zip_with, length_seq in E. simpl in E. lia.
  - intros Hs. unfold MLP.forward.
    destruct (MLP.layers m) as [|l L] eqn:E; [discriminate|].
    apply layers_raise.
    unfold m, MLP.__init__, MLP.layer_dims, enumerate in E. cbn [MLP.layers] in E.
    destruct (Z.to_nat (num_layers - 1)); simpl in E; injection E as <- _;
      exact Hs.
  - intros Hn. unfold MLP.forward, m, MLP.__init__, MLP.layer_dims, enumerate.
    cbn [MLP.layers MLP.num_layers].
    replace (Z.to_nat (num_layers - 1)) with 0%nat by lia.
    cbn [replicate app zip zip_with length seq map foldM].
    rewrite decide_False by lia.
    unfold bind, ret. now destruct (nn.Linear_forward _ x g).
Qed.

(** A perceptron of three layers, as the box head uses it, on two queries
    of two features each. *)
Lemma mlp_maps_the_last_dimension_witness :
  exists y,
    MLP.forward (MLP.__init__ unit_init 2 3 4 3)
      (Tensor [2; 2]%nat [1; -1; 0; 2]%R false) true = Ok y /\
    shape y = [2; 4]%nat /\ torch.wf y /\ requires_grad y = true.
Proof.
  refine (proj1 (proj2 (mlp_maps_the_last_dimension unit_init 2 3 4 3
                          (Tensor [2; 2]%nat [1; -1; 0; 2]%R false) true _ _))
                [2%nat] eq_refl).
  - intros i n k. unfold unit_init. simpl. now rewrite !length_replicate.
  - reflexivity.
Defined.

(** ** The dictionaries that [DETR.forward] returns *)

Lemma row_take {A} (k i n : nat) (d : list A) :
  (i < n)%nat -> torch.row k i (take (n * k) d) = torch.row k i d.
Proof.
  intros Hi. unfold torch.row. rewrite !take_drop_commute, take_take.
  do 2 f_equal. nia.
Qed.

Lemma last_layer_ok (t : tensor R) (L : nat) (s : list nat) g :
  shape t = L :: s -> (1 <= L)%nat ->
  DETR.last_layer t g = Ok (layer_slice g (L - 1) t).
Proof.
  intros Hs HL. unfold DETR.last_layer, layer_slice. rewrite Hs.
  rewrite decide_False by lia. reflexivity.
Qed.

Lemma last_layer_none (t : tensor R) (s : list nat) g :
  shape t = 0%nat :: s -> DETR.last_layer t g = Raise IndexError.
Proof. intros Hs. unfold DETR.last_layer. now rewrite Hs. Qed.

(** [t[:-1]], one slice per layer. *)
Lemma slices_ok (t : tensor R) (L : nat) (s : list nat) g :
  shape t = L :: s ->
  (do t' <- DETR.but_last t; torch.iter t') g
  = Ok (map (fun i => layer_slice g i t) (seq 0 (L - 1))).
Proof.
  intros Hs. unfold DETR.but_last. rewrite Hs.
  unfold bind at 1. unfold torch.mk at 1. unfold torch.iter. cbn [shape data].
  apply mapM_ok. intros i Hi. apply in_seq in Hi.
  unfold torch.mk, layer_slice. rewrite Hs. cbn [tail requires_grad].
  rewrite row_take by lia. do 2 f_equal. now destruct g.
Qed.

Lemma zip_map_same {A B C} (f : A -> B) (h : A -> C) (l : list A) :
  zip (map f l) (map h l) = map (fun x => (f x, h x)) l.
Proof. induction l as [|x l IH]; simpl; [reflexivity | now f_equal]. Qed.

Lemma tensors_fmap (b : bundle) : tensors (OTensor <$> b) = b.
Proof.
  apply map_eq. intros k. unfold tensors.
  rewrite lookup_omap, lookup_fmap. now destruct (b !! k).
Qed.

Lemma tensors_insert_list (o : gmap string outval) (k : string)
    (l : list bundle) :
  tensors o !! k = None -> tensors (<[ k := OList l ]> o) = tensors o.
Proof.
  intros Hk. unfold tensors in *.
  rewrite omap_insert_None by reflexivity. now apply delete_id.
Qed.

(** The dictionary for [L >= 1] decoder layers. *)
Lemma forward_outputs_ok (aux_loss : bool) (a b c d e f h1 h2 h3 : tensor R)
    (L : nat) (g : bool) :
  Forall (fun t : tensor R => exists s, shape t = L :: s)
         [a; b; c; d; e; f; h1; h2; h3] ->
  (1 <= L)%nat ->
  exists out,
    DETR.forward_outputs aux_loss a b c d e f h1 h2 h3 g = Ok out /\
    tensors out = layer_outputs g (L - 1) a b c d e f h1 h2 h3 /\
    out !! "aux_outputs"
    = if aux_loss
      then Some (OList (map (fun i => layer_outputs g i a b c d e f h1 h2 h3)
                            (seq 0 (L - 1))))
      else None.
Proof.
  intros H HL. rewrite !Forall_cons in H.
  destruct H as ((sa & Ha) & (sb & Hb) & (sc & Hc) & (sd & Hd) & (se & He)
                 & (sf & Hf) & (s1 & H1) & (s2 & H2) & (s3 & H3) & _).
  unfold DETR.forward_outputs.
  repeat (erewrite bind_ok; [|eapply last_layer_ok; eassumption]).
  fold (layer_outputs g (L - 1) a b c d e f h1 h2 h3).
  destruct aux_loss.
  - assert (DETR._set_aux_loss a b c d e f h1 h2 h3 g
            = Ok (map (fun i => layer_outputs g i a b c d e f h1 h2 h3)
                      (seq 0 (L - 1)))) as Haux.
    { unfold DETR._set_aux_loss.
      repeat (erewrite bind_ok; [|eapply slices_ok; eassumption]).
      unfold ret. now rewrite !zip_map_same, map_map. }
    rewrite (bind_ok _ _ _ _ Haux). unfold ret.
    eexists. split; [reflexivity|]. split.
    + rewrite tensors_insert_list; [apply tensors_fmap|].
      now rewrite tensors_fmap.
    + now rewrite lookup_insert_eq.
  - eexists. split; [reflexivity|]. split; [apply tensors_fmap|].
    now rewrite lookup_fmap.
Qed.



(** ** The weights that [build] gives the losses *)

Lemma suffixed_weights_lookup (i : nat) (wd : gmap string R) (name : string)
    (v : R) :
  build.suffixed_weights i wd !! name = Some v <->
  exists key, name = key +:+ suffix i /\ wd !! key = Some v.
Proof.
  unfold build.suffixed_weights. apply lookup_kmap_Some.
  intros k k' E. now apply suffix_inj_both in E.
Qed.

(** The loop that fills [aux_weight_dict]. *)
Lemma aux_weights_origin (wd : gmap string R) (name : string) (v : R)
    (l : list nat) :
  forall acc : gmap string R,
    foldl (fun (aux : gmap string R) i => build.suffixed_weights i wd ∪ aux)
          acc l !! name = Some v ->
    (exists i, In i l /\ build.suffixed_weights i wd !! name = Some v) \/
    acc !! name = Some v.
Proof.
  induction l as [|i l IH]; intros acc H; simpl in H; [now right|].
  apply IH in H as [(j & Hj & H)|H]; [left; exists j; split; [now right|done]|].
  apply lookup_union_Some_raw in H as [H|[_ H]]; [|now right].
  left. exists i. split; [now left | done].
Qed.

Lemma aux_weights_entry (wd : gmap string R) (name : string) (v : R)
    (l : list nat) :
  (forall i v', build.suffixed_weights i wd !! name = Some v' -> v' = v) ->
  forall acc : gmap string R,
    acc !! name = Some v \/
    (exists i, In i l /\ build.suffixed_weights i wd !! name = Some v) ->
    foldl (fun (aux : gmap string R) i => build.suffixed_weights i wd ∪ aux)
          acc l !! name = Some v.
Proof.
  intros Hfun. induction l as [|i l IH]; intros acc H; simpl.
  - destruct H as [H|(i & [] & _)]. exact H.
  - apply IH. destruct H as [H|(j & [<-|Hj] & H)].
    + left. apply lookup_union_Some_raw.
      destruct (build.suffixed_weights i wd !! name) as [v'|] eqn:E.
      * left. f_equal. now apply (Hfun i).
      * now right.
    + left. apply lookup_union_Some_raw. now left.
    + right. now exists j.
Qed.

Lemma base_weights_names (a : build.args) (k : string) :
  is_Some (build.base_weights a !! k) <->
  In k (weighted_names (build.masks a)).
Proof.
  unfold build.base_weights, weighted_names.
  destruct (build.masks a); cbv zeta;
    rewrite ?is_Some_insert_iff, is_Some_singleton_iff; simpl; intuition.
Qed.

Lemma weighted_in_all (m : bool) (k : string) :
  In k (weighted_names m) -> In k all_names.
Proof.
  unfold weighted_names, all_names. destruct m; simpl; intuition.
Qed.

(** The entries of [weight_dict]. *)
Lemma weight_dict_lookup (a : build.args) (name : string) (v : R) :
  build.weight_dict a !! name = Some v <->
  build.base_weights a !! name = Some v \/
  (build.aux_loss a = true /\
   exists k i, (Z.of_nat i < build.dec_layers a - 1)%Z /\
               name = k +:+ suffix i /\
               build.base_weights a !! k = Some v).
Proof.
  unfold build.weight_dict. cbv zeta.
  destruct (build.aux_loss a); [|intuition; discriminate].
  set (wd := build.base_weights a).
  set (n := Z.to_nat (build.dec_layers a - 1)).
  rewrite lookup_union_Some_raw. split.
  - intros [H|[_ H]]; [|now left]. right. split; [reflexivity|].
    apply aux_weights_origin in H as [(i & Hi & H)|H];
      [|now rewrite lookup_empty in H].
    apply suffixed_weights_lookup in H as (k & -> & Hk).
    apply in_seq in Hi. exists k, i. repeat split; [lia | assumption].
  - intros [H|(_ & k & i & Hi & -> & Hk)].
    + right. split; [|exact H]. apply eq_None_not_Some. intros [v' Hv'].
      apply aux_weights_origin in Hv' as [(i & _ & Hv')|Hv'];
        [|now rewrite lookup_empty in Hv'].
      apply suffixed_weights_lookup in Hv' as (k & -> & Hk).
      eapply (name_not_suffixed (k +:+ suffix i) k i); [| |reflexivity];
        eapply weighted_in_all, base_weights_names; eauto.
    + left. apply aux_weights_entry.
      * intros j v' Hv'.
        apply suffixed_weights_lookup in Hv' as (k' & E & Hk').
        apply suffix_inj_both in E as [<- _]. unfold wd in *. congruence.
      * right. exists i. split; [apply in_seq; unfold n; lia|].
        apply suffixed_weights_lookup. now exists k.
Qed.

(** X11.  The weights that [build] gives: the nine losses of the model have
    one, the two mask losses have one when [args.masks] is set; with
    [args.aux_loss] every such name followed by [_i], for
    [0 <= i < dec_layers - 1], has the weight of the name, and nothing else
    has a weight.  So [class_error] and [cardinality_error] have none, with
    or without a layer suffix. *)
Theorem weights_are_those_of_the_losses_and_their_layers (a : build.args) :
  (forall k, is_Some (build.base_weights a !! k) <->
             In k (weighted_names (build.masks a))) /\
  (forall name v,
     build.weight_dict a !! name = Some v <->
     build.base_weights a !! name = Some v \/
     (build.aux_loss a = true /\
      exists k i, (Z.of_nat i < build.dec_layers a - 1)%Z /\
                  name = k +:+ suffix i /\
                  build.base_weights a !! k = Some v)) /\
  (forall i,
     build.weight_dict a !! "class_error" = None /\
     build.weight_dict a !! "cardinality_error" = None /\
     build.weight_dict a !! ("class_error" +:+ suffix i) = None /\
     build.weight_dict a !! ("cardinality_error" +:+ suffix i) = None).
Proof.
  assert (forall key, In key all_names ->
            ~ In key (weighted_names (build.masks a)) ->
            build.weight_dict a !! key = None /\
            forall i, build.weight_dict a !! (key +:+ suffix i) = None)
    as Hnone.
  { intros key Hall Hkey. split; [|intros i]; apply eq_None_not_Some;
      intros [v Hv];
      apply weight_dict_lookup in Hv as [Hv|(_ & k & j & _ & E & Hk)].
    - apply Hkey, base_weights_names. eauto.
    - eapply (name_not_suffixed key k j); [assumption| |exact E].
      eapply weighted_in_all, base_weights_names; eauto.
    - eapply (name_not_suffixed (key +:+ suffix i) key i); [|assumption|reflexivity].
      eapply weighted_in_all, base_weights_names; eauto.
    - apply suffix_inj_both in E as [<- _].
      apply Hkey, base_weights_names. eauto. }
  split; [apply base_weights_names|]. split; [apply weight_dict_lookup|].
  intros i.
  destruct (Hnone "class_error") as [H1 H2];
    [simpl; auto 20 | destruct (build.masks a); simpl; intuition discriminate|].
  destruct (Hnone "cardinality_error") as [H3 H4];
    [simpl; auto 20 | destruct (build.masks a); simpl; intuition discriminate|].
  auto.
Qed.

(** ** The criterion that [build] returns *)

Lemma build_losses_registered (a : build.args) (loss : string) :
  In loss (build.losses a) -> In loss registry.
Proof.
  unfold build.losses, registry. destruct (build.masks a); simpl; intuition.
Qed.

(** What a requested loss returns, the two diagnostics apart, is weighted. *)
Lemma build_names_weighted (a : build.args) (loss key : string) (log : bool) :
  In loss (build.losses a) -> In key (names loss log) ->
  key = "class_error" \/ key = "cardinality_error" \/
  In key (weighted_names (build.masks a)).
Proof.
  unfold build.losses, weighted_names. intros Hl Hk.
  destruct (build.masks a); simpl in Hl;
    repeat (destruct Hl as [<-|Hl]); try destruct Hl;
    destruct log; simpl in Hk;
    repeat (destruct Hk as [<-|Hk]); try destruct Hk; simpl; auto 20.
Qed.

(** X12.  The criterion that [build] returns requests registered losses
    only, and what a requested loss returns has a weight, but for the two
    diagnostics [class_error] and [cardinality_error]; with [args.aux_loss]
    the entry of a decoder layer [j < dec_layers - 1], under the name
    followed by [_j], has the weight of the final layer's entry. *)
Theorem built_criterion_weights_what_it_computes
    (ext : imports) (matcher : bundle -> list target -> M index_pairs)
    (a : build.args) (loss : string) (outputs : bundle)
    (targets : list target) (indices : index_pairs) (num_boxes : R)
    (kwargs : option bool) (g : bool) (d : loss_dict) :
  let self := build.criterion matcher a in
  In loss (SetCriterion.losses self) ->
  SetCriterion.get_loss ext self loss outputs targets indices num_boxes
    kwargs g = Ok d ->
  In loss registry /\
  forall key, is_Some (d !! key) ->
    key = "class_error" \/ key = "cardinality_error" \/
    (is_Some (SetCriterion.weight_dict self !! key) /\
     forall j : nat,
       build.aux_loss a = true -> (Z.of_nat j < build.dec_layers a - 1)%Z ->
       SetCriterion.weight_dict self !! (key +:+ suffix j)
       = SetCriterion.weight_dict self !! key).
Proof.
  intros self Hl Hd.
  change (SetCriterion.losses self) with (build.losses a) in Hl.
  change (SetCriterion.weight_dict self) with (build.weight_dict a).
  split; [now apply (build_losses_registered a)|]. intros key Hk.
  apply (get_loss_names ext _ _ _ _ _ _ _ _ _ Hd key) in Hk.
  destruct (build_names_weighted a loss key _ Hl Hk) as [E|[E|Hw]]; auto.
  right. right.
  apply base_weights_names in Hw as [v Hv].
  assert (build.weight_dict a !! key = Some v) as Hkey
    by (apply weight_dict_lookup; now left).
  split; [eauto|]. intros j Haux Hj. rewrite Hkey.
  apply weight_dict_lookup. right. split; [assumption|]. now exists key, j.
Qed.

(** The loss of the bird's-eye-view point on the small instance, for a
    model of three decoder layers: [loss_bev] has a weight, and so have
    [loss_bev_0] and [loss_bev_1]. *)
Lemma built_criterion_weights_what_it_computes_witness :
  exists d : loss_dict,
    SetCriterion.get_loss Instance.imports_1
      (build.criterion (fun _ _ => ret Instance.indices_1)
         (uniform_args false true 3 2))
      "bev" Instance.layer_1 [Instance.target_1] Instance.indices_1 1%R None
      true = Ok d /\
    is_Some (d !! "loss_bev") /\
    In "bev" registry /\
    is_Some (build.weight_dict (uniform_args false true 3 2) !! "loss_bev") /\
    forall j : nat,
      (Z.of_nat j < 3 - 1)%Z ->
      build.weight_dict (uniform_args false true 3 2)
        !! ("loss_bev" +:+ suffix j)
      = build.weight_dict (uniform_args false true 3 2) !! "loss_bev".
Proof.
  assert (is_ok (SetCriterion.get_loss Instance.imports_1
                   (build.criterion (fun _ _ => ret Instance.indices_1)
                      (uniform_args false true 3 2))
                   "bev" Instance.layer_1 [Instance.target_1]
                   Instance.indices_1 1%R None true)) as Hok
    by (vm_compute; exact I).
  destruct (SetCriterion.get_loss Instance.imports_1
              (build.criterion (fun _ _ => ret Instance.indices_1)
                 (uniform_args false true 3 2))
              "bev" Instance.layer_1 [Instance.target_1] Instance.indices_1
              1%R None true) as [d|] eqn:E; [|destruct Hok].
  exists d. split; [reflexivity|].
  assert (is_Some (d !! "loss_bev")) as Hd.
  { apply (get_loss_names _ _ _ _ _ _ _ _ _ _ E). simpl. auto. }
  split; [exact Hd|].
  destruct (built_criterion_weights_what_it_computes Instance.imports_1
              (fun _ _ => ret Instance.indices_1)
              (uniform_args false true 3 2) "bev" Instance.layer_1
              [Instance.target_1] Instance.indices_1 1%R None true d)
    as [Hreg Hw]; [simpl; auto 10 | exact E |].
  split; [exact Hreg|].
  destruct (Hw "loss_bev" Hd) as [H|[H|[Hs Hj]]]; [discriminate..|].
  split; [exact Hs|]. intros j Hlt. apply Hj; [reflexivity | exact Hlt].
Defined.

(** ** The model, the criterion and the weights together *)

(** Where the entries of a run of [forward] come from, on outputs with or
    without auxiliary layers. *)
Lemma forward_names (ext : imports) (self : SetCriterion.criterion)
    (outputs : gmap string outval) (targets : list target) (g : bool)
    (res : loss_dict) :
  SetCriterion.forward ext self outputs targets g = Ok res ->
  forall name, is_Some (res !! name) ->
    (exists loss, In loss (SetCriterion.losses self) /\
                  In name (names loss true)) \/
    (exists auxs i loss key,
       outputs !! "aux_outputs" = Some (OList auxs) /\
       (i < length auxs)%nat /\ In loss (SetCriterion.losses self) /\
       loss <> "masks" /\ In key (names loss false) /\
       name = key +:+ suffix i).
Proof.
  intros Hrun.
  assert (SetCriterion.normalization ext outputs targets g
          = Ok (denominator ext targets)) as Hn.
  { pose proof Hrun as H.
    unfold SetCriterion.forward, SetCriterion.forward_with in H.
    apply bind_inv in H as (? & _ & H). apply bind_inv in H as (nb & Hn & _).
    now rewrite (normalization_inv _ _ _ _ _ Hn) in Hn. }
  destruct (outputs !! "aux_outputs") as [[t|auxs]|] eqn:Haux.
  - exfalso. unfold SetCriterion.forward, SetCriterion.forward_with in Hrun.
    apply bind_inv in Hrun as (? & _ & H). apply bind_inv in H as (? & _ & H).
    apply bind_inv in H as (? & _ & H).
    unfold contains in H. rewrite Haux in H.
    rewrite bool_decide_eq_true_2 in H by eauto. discriminate.
  - destruct (forward_with_inv ext self _ targets _ g outputs auxs res Hn Hrun
                Haux) as (indices & finals & layers & Hf & Hl & ->).
    intros name [v Hv].
    apply merge_lookup_origin in Hv as [(D & HD & Hv)|Hv];
      [|now rewrite lookup_empty in Hv].
    apply in_app_or in HD as [HD|HD].
    + left. eapply final_entry; eauto.
    + right.
      destruct (suffixed_entry ext self targets g (denominator ext targets)
                  auxs layers Hl D HD)
        as (i & aux & L & loss & d & Ha & HL & Hlo & Hm & Hg & ->).
      apply with_suffix_lookup in Hv as (key & -> & Hk).
      exists auxs, i, loss, key. repeat split; try assumption.
      * now apply lookup_lt_Some in Ha.
      * rewrite <- names_aux_kwargs.
        apply (get_loss_names ext self _ _ _ _ _ _ _ _ Hg key). eauto.
  - unfold SetCriterion.forward, SetCriterion.forward_with in Hrun.
    apply bind_inv in Hrun as (indices & _ & H).
    rewrite (bind_ok _ _ _ _ Hn) in H.
    apply bind_inv in H as (base & Hb & H).
    apply (foldM_update_inv
             (fun loss => SetCriterion.get_loss ext self loss (tensors outputs)
                            targets indices (denominator ext targets) None)
             (fun d => d)) in Hb as (finals & Hf & ->).
    rewrite map_id in H. unfold contains in H. rewrite Haux in H.
    rewrite bool_decide_eq_false_2 in H by (intros [? ?]; discriminate).
    unfold ret in H. injection H as <-.
    intros name [v Hv].
    apply merge_lookup_origin in Hv as [(D & HD & Hv)|Hv];
      [|now rewrite lookup_empty in Hv].
    left. eapply final_entry; eauto.
Qed.

(** X13.  A model with at most [dec_layers] decoder layers and the weights
    of [build] fit together: when [SetCriterion.forward] returns on the
    dictionary that [DETR.forward] returns, for the criterion of [build] or
    any that requests some of its losses, every entry of the result has a
    weight, but for [class_error] and for [cardinality_error] with or
    without a layer suffix. *)
Theorem every_loss_of_the_model_is_weighted
    (ext : imports) (self : SetCriterion.criterion) (args : build.args)
    (a b c d e f h1 h2 h3 : tensor R) (L : nat) (g0 g : bool)
    (out : gmap string outval) (targets : list target) (res : loss_dict) :
  Forall (fun t : tensor R => exists s, shape t = L :: s)
         [a; b; c; d; e; f; h1; h2; h3] ->
  (Z.of_nat L <= build.dec_layers args)%Z ->
  (forall loss, In loss (SetCriterion.losses self) ->
                In loss (build.losses args)) ->
  DETR.forward_outputs (build.aux_loss args) a b c d e f h1 h2 h3 g0
  = Ok out ->
  SetCriterion.forward ext self out targets g = Ok res ->
  forall name, is_Some (res !! name) ->
    is_Some (build.weight_dict args !! name) \/
    name = "class_error" \/ name = "cardinality_error" \/
    exists i, name = "cardinality_error" +:+ suffix i.
Proof.
  intros Hheads HL Hsub Hout Hrun name Hname.
  destruct (forward_names ext self out targets g res Hrun name Hname)
    as [(loss & Hl & Hk)|(auxs & i & loss & key & Ha & Hi & Hl & _ & Hk & ->)].
  - destruct (build_names_weighted args loss name true (Hsub _ Hl) Hk)
      as [E|[E|Hw]]; auto.
    left. apply base_weights_names in Hw as [v Hv]. exists v.
    apply weight_dict_lookup. now left.
  - destruct (Nat.eq_dec L 0) as [->|HL0].
    { apply Forall_cons in Hheads as [[sa Hsa] _].
      unfold DETR.forward_outputs in Hout.
      rewrite (bind_raise _ _ _ IndexError) in Hout; [discriminate|].
      eapply last_layer_none; eassumption. }
    destruct (forward_outputs_ok (build.aux_loss args) a b c d e f h1 h2 h3
                L g0 Hheads ltac:(lia)) as (out' & Hout' & _ & Haux).
    rewrite Hout in Hout'. injection Hout' as <-.
    rewrite Ha in Haux.
    destruct (build.aux_loss args) eqn:Eaux; [|discriminate].
    injection Haux as ->. rewrite length_map, length_seq in Hi.
    destruct (build_names_weighted args loss key false (Hsub _ Hl) Hk)
      as [E|[E|Hw]].
    + exfalso. subst key.
      assert (loss = "labels") as ->
        by (apply (names_owner loss "labels" false true "class_error" Hk);
            simpl; auto).
      simpl in Hk. destruct Hk as [Hk|[]]. discriminate.
    + right. right. right. exists i. now subst key.
    + left. apply base_weights_names in Hw as [v Hv]. exists v.
      apply weight_dict_lookup. right. split; [assumption|].
      exists key, i. repeat split; [lia | assumption].
Qed.

(** Three decoder layers, and a criterion that requests the cardinality
    error and the loss of the bird's-eye-view point: the result holds
    [loss_bev] and [loss_bev_1], and both have a weight. *)
Lemma every_loss_of_the_model_is_weighted_witness :
  exists out res,
    DETR.forward_outputs true (three_layers 3) (three_layers 4)
      (three_layers 2) (three_layers 2) (three_layers 24) (three_layers 2)
      (three_layers 1) (three_layers 2) (three_layers 2) true = Ok out /\
    SetCriterion.forward Instance.imports_1 criterion_bev out
      [Instance.target_1] true = Ok res /\
    (forall name, is_Some (res !! name) ->
       is_Some (build.weight_dict (uniform_args false true 3 2) !! name) \/
       name = "class_error" \/ name = "cardinality_error" \/
       exists i, name = "cardinality_error" +:+ suffix i) /\
    is_Some (res !! "loss_bev") /\
    is_Some (build.weight_dict (uniform_args false true 3 2) !! "loss_bev") /\
    is_Some (res !! "loss_bev_1") /\
    is_Some (build.weight_dict (uniform_args false true 3 2) !! "loss_bev_1").
Proof.
  set (out := <[ "aux_outputs" :=
                   OList (map (fun i =>
                                 layer_outputs true i (three_layers 3)
                                   (three_layers 4) (three_layers 2)
                                   (three_layers 2) (three_layers 24)
                                   (three_layers 2) (three_layers 1)
                                   (three_layers 2) (three_layers 2))
                              [0; 1]%nat) ]>
                (OTensor <$> layer_outputs true 2 (three_layers 3)
                   (three_layers 4) (three_layers 2) (three_layers 2)
                   (three_layers 24) (three_layers 2) (three_layers 1)
                   (three_layers 2) (three_layers 2))
              : gmap string outval).
  assert (DETR.forward_outputs true (three_layers 3) (three_layers 4)
            (three_layers 2) (three_layers 2) (three_layers 24)
            (three_layers 2) (three_layers 1) (three_layers 2)
            (three_layers 2) true = Ok out) as Eo
    by (vm_compute; reflexivity).
  assert (match SetCriterion.forward Instance.imports_1 criterion_bev out
                  [Instance.target_1] true with
          | Ok res =>
              match res !! "loss_bev", res !! "loss_bev_1" with
              | Some _, Some _ => True
              | _, _ => False
              end
          | Raise _ => False
          end) as Hok
    by (vm_compute; exact I).
  destruct (SetCriterion.forward Instance.imports_1 criterion_bev out
              [Instance.target_1] true) as [res|] eqn:Er; [|destruct Hok].
  assert (is_Some (res !! "loss_bev") /\ is_Some (res !! "loss_bev_1"))
    as [Hb Hb1].
  { destruct (res !! "loss_bev"), (res !! "loss_bev_1");
      try destruct Hok; eauto. }
  pose proof (every_loss_of_the_model_is_weighted Instance.imports_1
                criterion_bev (uniform_args false true 3 2)
                (three_layers 3) (three_layers 4) (three_layers 2)
                (three_layers 2) (three_layers 24) (three_layers 2)
                (three_layers 1) (three_layers 2) (three_layers 2)
                3 true true out [Instance.target_1] res) as Hall.
  assert (forall name, is_Some (res !! name) ->
            is_Some (build.weight_dict (uniform_args false true 3 2) !! name)
            \/ name = "class_error" \/ name = "cardinality_error" \/
            exists i, name = "cardinality_error" +:+ suffix i) as Hw.
  { apply Hall; [| | |exact Eo|exact Er].
    - repeat constructor; eexists; reflexivity.
    - simpl. lia.
    - intros loss [<-|[<-|[]]]; simpl; auto 10. }
  exists out, res. split; [exact Eo|]. split; [exact Er|].
  split; [exact Hw|].
  assert (forall name : string,
            String.get 0 name = Some "l"%char ->
            is_Some (res !! name) ->
            is_Some (build.weight_dict (uniform_args false true 3 2) !! name))
    as Hl.
  { intros name Hn Hs. destruct (Hw name Hs) as [H|[->|[->|[i ->]]]];
      [exact H | discriminate..]. }
  split; [exact Hb|]. split; [now apply Hl|].
  split; [exact Hb1|]. now apply Hl.
Defined.

(** ** The ranges of the box and depth heads *)

Lemma sigmoid_range (x : R) : (0 <= 1 / (1 + exp (- x)) <= 1)%R.
Proof.
  pose proof (exp_pos (- x)) as He.
  assert (0 < 1 / (1 + exp (- x)))%R as H0
    by (apply Rdiv_lt_0_compat; lra).
  split; [lra|].
  apply (Rmult_le_reg_r (1 + exp (- x))); [lra|].
  unfold Rdiv. rewrite Rmult_assoc, Rinv_l by lra. lra.
Qed.

Lemma tanh_range (x : R) : (-1 <= Rtrigo_def.tanh x <= 1)%R.
Proof.
  unfold Rtrigo_def.tanh, sinh, cosh.
  pose proof (exp_pos x) as Ha. pose proof (exp_pos (- x)) as Hb.
  set (a := exp x) in *. set (b := exp (- x)) in *.
  assert ((a - b) / 2 / ((a + b) / 2) = (a - b) / (a + b))%R as ->
    by (field; lra).
  assert ((a - b) / (a + b) * (a + b) = a - b)%R as Ht by (field; lra).
  set (t := ((a - b) / (a + b))%R) in *. clearbody t. split; nra.
Qed.

(** X14.  For any output [hs] of the transformer with [hidden_dim]
    features, the box head ([MLP(hidden_dim, hidden_dim, 4, 3)] followed by
    a sigmoid) returns four coordinates in [[0, 1]] for every query of every
    layer, and the depth-delta head ([nn.Linear(hidden_dim, 1)], then
    [tanh], halved) returns one value in [[-1/2, 1/2]]. *)
Theorem box_and_delta_heads_are_bounded
    (init : nat -> nat -> nat -> list R * list R) (params : list R * list R)
    (hidden_dim : nat) (hs : tensor R) (s : list nat) (g : bool) :
  sized init -> length params.2 = 1%nat ->
  torch.wf hs -> shape hs = s ++ [hidden_dim] ->
  (exists boxes,
     DETR.outputs_coord (MLP.__init__ init hidden_dim hidden_dim 4 3) hs g
     = Ok boxes /\
     shape boxes = s ++ [4%nat] /\ torch.wf boxes /\
     Forall (fun x => 0 <= x <= 1)%R (data boxes)) /\
  (exists delta,
     DETR.output_depth_delta (nn.new_Linear params hidden_dim 1) hs g
     = Ok delta /\
     shape delta = s ++ [1%nat] /\ torch.wf delta /\
     Forall (fun x => -1 / 2 <= x <= 1 / 2)%R (data delta)).
Proof.
  intros Hi Hp Hw Hs. split.
  - pose proof (init_chained init hidden_dim 4 (Z.to_nat (3 - 1)) Hi 0%nat
                  hidden_dim) as Hc.
    destruct (layers_run 3 4 g _ 0%nat hidden_dim s hs Hc Hs Hw)
      as (y & Hy & Hsy & Hwy & _).
    exists (Tensor (shape y) (map (fun v => 1 / (1 + exp (- v)))%R (data y))
              (g && requires_grad y)).
    split; [|split; [exact Hsy|split]].
    + unfold DETR.outputs_coord. unfold MLP.forward at 1.
      erewrite bind_ok; [reflexivity|exact Hy].
    + unfold torch.wf in *. simpl. now rewrite length_map.
    + simpl. apply Forall_forall. intros x Hx.
      apply list_elem_of_In, in_map_iff in Hx as (v & <- & _).
      apply sigmoid_range.
  - destruct (Linear_forward_shape (nn.new_Linear params hidden_dim 1) hs s g
                Hs Hp) as (y & Hy & Hsy & Hwy & _).
    eexists. split; [|split; [|split]].
    + unfold DETR.output_depth_delta. rewrite (bind_ok _ _ _ _ Hy).
      reflexivity.
    + exact Hsy.
    + unfold torch.wf in *. simpl. now rewrite !length_map.
    + simpl. apply Forall_forall. intros x Hx.
      apply list_elem_of_In, in_map_iff in Hx as (v & <- & Hv).
      apply in_map_iff in Hv as (u & <- & _).
      pose proof (tanh_range u). lra.
Qed.

(** One layer, one image and two queries of two features. *)
Lemma box_and_delta_heads_are_bounded_witness :
  (exists boxes,
     DETR.outputs_coord (MLP.__init__ unit_init 2 2 4 3)
       (Tensor [1; 1; 2; 2]%nat [1; -1; 0; 2]%R false) true = Ok boxes /\
     shape boxes = [1; 1; 2; 4]%nat /\ torch.wf boxes /\
     Forall (fun x => 0 <= x <= 1)%R (data boxes)) /\
  (exists delta,
     DETR.output_depth_delta (nn.new_Linear (unit_init 0 2 1) 2 1)
       (Tensor [1; 1; 2; 2]%nat [1; -1; 0; 2]%R false) true = Ok delta /\
     shape delta = [1; 1; 2; 1]%nat /\ torch.wf delta /\
     Forall (fun x => -1 / 2 <= x <= 1 / 2)%R (data delta)).
Proof.
  refine (box_and_delta_heads_are_bounded unit_init (unit_init 0 2 1) 2
            (Tensor [1; 1; 2; 2]%nat [1; -1; 0; 2]%R false) [1; 1; 2]%nat true
            _ _ _ _); try reflexivity.
  intros i n k. unfold unit_init. simpl. now rewrite !length_replicate.
Defined.

(** ** The depth-bin head *)

Lemma sum_R_div (l : list R) (z : R) :
  sum_R (map (fun x => x / z)%R l) = (sum_R l / z)%R.
Proof.
  induction l as [|x l IH]; unfold sum_R in *; simpl; [lra|].
  rewrite IH. lra.
Qed.

Lemma sum_R_exp_pos (l : list R) : l <> [] -> (0 < sum_R (map exp l))%R.
Proof.
  assert (forall l', 0 <= sum_R (map exp l'))%R as H0.
  { induction l' as [|x l' IH]; unfold sum_R in *; simpl; [lra|].
    pose proof (exp_pos x). lra. }
  destruct l as [|x l]; [congruence|]. intros _.
  pose proof (H0 l) as Hl. pose proof (exp_pos x).
  unfold sum_R in *. simpl. lra.
Qed.

Lemma row_seq (k i n : nat) :
  (i < n)%nat -> torch.row k i (seq 0 (n * k)) = seq (i * k) k.
Proof.
  intros Hi. unfold torch.row. rewrite drop_seq, take_seq. f_equal. nia.
Qed.

(** The positions of vector [i], for vectors of [c] entries along the last
    dimension. *)
Lemma last_dim_index (c i j ci : nat) :
  (j < c)%nat ->
  ((i * c + j) / (c * 1) * (c * 1) + ci * 1 + (i * c + j) mod 1
   = i * c + ci)%nat.
Proof.
  intros Hj. rewrite Nat.mul_1_r, Nat.mod_1_r.
  rewrite (Nat.div_add_l i c j) by lia.
  rewrite (Nat.div_small j c) by lia. lia.
Qed.

(** On four dimensions, [softmax_dim3] normalises the rows. *)
Lemma softmax_dim3_rows (y : tensor R) (L B Q c : nat) g :
  shape y = [L; B; Q; c] -> torch.wf y -> (1 <= c)%nat ->
  exists z, nn.softmax_dim3 y g = Ok z /\ shape z = [L; B; Q; c] /\
            torch.wf z /\
            Forall (fun r => Forall (fun x => 0 < x)%R r /\ sum_R r = 1%R)
                   (torch.chunks c (L * B * Q) (data z)).
Proof.
  intros Hs Hw Hc. unfold nn.softmax_dim3. rewrite Hs. cbv zeta.
  eexists. split; [reflexivity|]. split; [reflexivity|].
  assert (length (data y) = (L * B * Q * c)%nat) as Hlen.
  { unfold torch.wf in Hw. rewrite Hw, Hs. unfold torch.numel. simpl. lia. }
  split; [unfold torch.wf; simpl; rewrite length_map, length_seq, Hlen; lia|].
  cbn [data]. rewrite Hlen, chunks_seq.
  apply Forall_fmap, Forall_forall. intros i Hi%elem_of_seq. cbn [compose].
  unfold torch.row. rewrite <- !fmap_drop, <- !fmap_take.
  fold (torch.row c i (seq 0 (L * B * Q * c))). rewrite row_seq by lia.
  set (d := data y).
  set (Z := sum_R (map exp (map (fun ci => nth (i * c + ci) d 0%R) (seq 0 c)))).
  assert (0 < Z)%R as HZ.
  { apply sum_R_exp_pos. destruct c; [lia | discriminate]. }
  match goal with
  | |- context [?F <$> seq (i * c) c] =>
      assert (F <$> seq (i * c) c
              = map (fun x => x / Z)%R
                  (map exp (map (fun ci => nth (i * c + ci) d 0%R) (seq 0 c))))
        as ->
  end.
  { rewrite !map_map.
    replace (seq (i * c) c) with (map (Nat.add (i * c)) (seq 0 c))
      by (rewrite <- (Nat.add_0_r (i * c)) at 2; apply fmap_add_seq).
    change (@fmap list _) with (@map). rewrite map_map.
    apply map_ext_in. intros j Hj%in_seq.
    f_equal. unfold Z. rewrite map_map. f_equal.
    apply map_ext. intros ci. do 2 f_equal.
    change (torch.numel []) with 1%nat.
    apply last_dim_index. lia. }
  split.
  - apply Forall_forall. intros x Hx.
    apply list_elem_of_In, in_map_iff in Hx as (e & <- & He).
    apply in_map_iff in He as (u & <- & _).
    apply Rdiv_lt_0_compat; [apply exp_pos | exact HZ].
  - rewrite sum_R_div. fold Z. field. lra.
Qed.

(** X15.  On an output [hs] of the transformer of shape
    [[layers, batch, queries, hidden_dim]], the depth-bin head returns for
    every query of every layer a probability distribution over the bins:
    positive scores that sum to one.  On an input of fewer than four
    dimensions the softmax along dimension 3 raises [IndexError]. *)
Theorem depth_bin_head_returns_distributions
    (params : list R * list R) (hidden_dim n_depth_bins : nat)
    (hs : tensor R) (g : bool) :
  length params.2 = n_depth_bins -> (1 <= n_depth_bins)%nat ->
  torch.wf hs ->
  let depth_bin := nn.new_Linear params hidden_dim n_depth_bins in
  (forall L B Q,
     shape hs = [L; B; Q; hidden_dim] ->
     exists bins,
       DETR.output_depth_bin depth_bin hs g = Ok bins /\
       shape bins = [L; B; Q; n_depth_bins] /\ torch.wf bins /\
       Forall (fun r => Forall (fun x => 0 < x)%R r /\ sum_R r = 1%R)
              (torch.chunks n_depth_bins (L * B * Q) (data bins))) /\
  (forall s,
     shape hs = s ++ [hidden_dim] -> (length s < 3)%nat ->
     DETR.output_depth_bin depth_bin hs g = Raise IndexError).
Proof.
  intros Hp Hn Hw depth_bin. split.
  - intros L B Q Hs.
    destruct (Linear_forward_shape depth_bin hs [L; B; Q] g Hs Hp)
      as (y & Hy & Hsy & Hwy & _).
    destruct (softmax_dim3_rows y L B Q n_depth_bins g Hsy Hwy Hn)
      as (z & Hz & Hrest).
    exists z. split; [|exact Hrest].
    unfold DETR.output_depth_bin. now rewrite (bind_ok _ _ _ _ Hy).
  - intros s Hs Hlen.
    destruct (Linear_forward_shape depth_bin hs s g Hs Hp)
      as (y & Hy & Hsy & _).
    unfold DETR.output_depth_bin. rewrite (bind_ok _ _ _ _ Hy).
    unfold nn.softmax_dim3. rewrite Hsy.
    destruct s as [|? [|? [|? ?]]]; simpl in *; try reflexivity; lia.
Qed.

(** One layer, one image and two queries of two features, three bins. *)
Lemma depth_bin_head_returns_distributions_witness :
  exists bins,
    DETR.output_depth_bin (nn.new_Linear (unit_init 0 2 3) 2 3)
      (Tensor [1; 1; 2; 2]%nat [1; -1; 0; 2]%R false) true = Ok bins /\
    shape bins = [1; 1; 2; 3]%nat /\ torch.wf bins /\
    Forall (fun r => Forall (fun x => 0 < x)%R r /\ sum_R r = 1%R)
           (torch.chunks 3 (1 * 1 * 2) (data bins)).
Proof.
  refine (proj1 (depth_bin_head_returns_distributions (unit_init 0 2 3) 2 3
                   (Tensor [1; 1; 2; 2]%nat [1; -1; 0; 2]%R false) true
                   _ _ _) 1%nat 1%nat 2%nat eq_refl);
    [reflexivity | lia | reflexivity].
Defined.

(** ** The head and feet points *)

Lemma nth_map_seq (f : nat -> R) (n q : nat) :
  (q < n)%nat -> nth q (map f (seq 0 n)) 0%R = f q.
Proof.
  intros Hq. apply nth_lookup_Some.
  change (map f (seq 0 n)) with (f <$> seq 0 n).
  now rewrite list_lookup_fmap, lookup_seq_lt.
Qed.

(** [t[:, :, :, j]] on four dimensions. *)
Lemma select3_ok (t : tensor R) (L B Q c j : nat) g :
  shape t = [L; B; Q; c] -> (j < c)%nat ->
  DETR.select3 t j g
  = Ok (Tensor [L; B; Q]
          (map (fun q => nth (q * c + j) (data t) 0%R) (seq 0 (L * B * Q)))
          (g && requires_grad t)).
Proof.
  intros Hs Hj. unfold DETR.select3. rewrite Hs.
  rewrite decide_True by assumption. unfold torch.mk. cbv zeta.
  change (torch.numel []) with 1%nat. rewrite !Nat.mul_1_r.
  do 2 f_equal. apply map_ext. intros q.
  rewrite Nat.div_1_r, Nat.mod_1_r. f_equal. lia.
Qed.

(** [torch.stack((x, y), dim = 3)] on three dimensions pairs the
    entries. *)
Lemma stack3_ok (L B Q : nat) (f h : nat -> R) (rx ry : bool) g :
  DETR.stack3 (Tensor [L; B; Q] (map f (seq 0 (L * B * Q))) rx)
              (Tensor [L; B; Q] (map h (seq 0 (L * B * Q))) ry) g
  = Ok (Tensor [L; B; Q; 2%nat]
          (flat_map (fun q => [f q; h q]) (seq 0 (L * B * Q)))
          (g && (rx || ry))).
Proof.
  unfold DETR.stack3. cbn [shape data requires_grad].
  rewrite decide_True by reflexivity. unfold torch.mk. cbv zeta.
  change (torch.numel []) with 1%nat. do 2 f_equal.
  set (N := (L * B * Q)%nat). rewrite !Nat.mul_1_r.
  replace (N * 2)%nat with (2 * N)%nat by lia. clearbody N.
  assert (forall n,
            (n <= N)%nat ->
            map (fun p =>
                   nth (p / 2 * 1 + p mod 1)
                       (if decide ((p / 1) mod 2 = 0)%nat
                        then map f (seq 0 N) else map h (seq 0 N)) 0%R)
                (seq 0 (2 * n))
            = flat_map (fun q => [f q; h q]) (seq 0 n)) as H;
    [|now apply H].
  induction n as [|n IH]; intros Hn; [reflexivity|].
  replace (2 * S n)%nat with (2 * n + 2)%nat by lia.
  rewrite seq_app, map_app, IH by lia.
  rewrite (seq_S n 0), flat_map_app. f_equal. cbn [seq map flat_map app].
  rewrite !Nat.div_1_r, !Nat.mod_1_r, !Nat.add_0_r, !Nat.add_0_l.
  replace ((2 * n) mod 2)%nat with 0%nat
    by (symmetry; rewrite Nat.mul_comm; apply Nat.Div0.mod_mul).
  replace ((2 * n) / 2)%nat with n
    by (symmetry; rewrite Nat.mul_comm; apply Nat.div_mul; lia).
  replace (S (2 * n) mod 2)%nat with 1%nat.
  2: { replace (S (2 * n)) with (1 + n * 2)%nat by lia.
       now rewrite Nat.Div0.mod_add. }
  replace (S (2 * n) / 2)%nat with n.
  2: { replace (S (2 * n)) with (1 + n * 2)%nat by lia.
       rewrite Nat.div_add by lia. reflexivity. }
  rewrite decide_True by reflexivity. rewrite decide_False by lia.
  rewrite !Nat.mul_1_r, !nth_map_seq by lia. reflexivity.
Qed.

(** The calibration layer and the sigmoid on stacked points. *)
Lemma calibrated_points (calib : nn.Linear) (L B Q : nat) (u v : nat -> R)
    (rg : bool) g :
  nn.in_features calib = 2%nat ->
  (do y <- nn.Linear_forward calib
             (Tensor [L; B; Q; 2%nat]
                (flat_map (fun q => [u q; v q]) (seq 0 (L * B * Q))) rg);
   nn.sigmoid y) g
  = Ok (Tensor [L; B; Q; nn.out_features calib]
          (flat_map (fun q => calibrated calib (u q) (v q))
                    (seq 0 (L * B * Q)))
          (g && (g && (rg || nn.trainable calib)))).
Proof.
  intros Hin. unfold nn.Linear_forward. cbn [shape last data requires_grad].
  rewrite decide_True by (symmetry; exact Hin).
  cbn [removelast app]. unfold bind at 1. unfold torch.mk at 1.
  unfold nn.sigmoid, torch.unop, torch.mk. cbn [shape data requires_grad].
  do 2 f_equal.
  replace (torch.numel [L; B; Q]) with (L * B * Q)%nat
    by (unfold torch.numel; simpl; lia).
  set (N := (L * B * Q)%nat). clearbody N.
  assert (torch.chunks 2 N (flat_map (fun q => [u q; v q]) (seq 0 N))
          = map (fun q => [u q; v q]) (seq 0 N)) as ->.
  { rewrite flat_map_concat_map.
    pose proof (chunks_of_concat 2 (map (fun q => [u q; v q]) (seq 0 N)))
      as H.
    rewrite length_map, length_seq in H. apply H.
    apply Forall_forall. intros r Hr.
    apply list_elem_of_In, in_map_iff in Hr as (q & <- & _). reflexivity. }
  generalize (seq 0 N). intros l. unfold calibrated.
  induction l as [|q l IH]; [reflexivity|].
  cbn [map flat_map]. rewrite map_app. now f_equal.
Qed.

(** X16.  For boxes of shape [[layers, batch, queries, 4]] the head and feet
    part of [forward] returns two tensors of shape
    [[layers, batch, queries, 2]]: the head point of a query is the
    calibration layer followed by the sigmoid on the image point
    [((x0 + x2) / 2, x1)] of its box [(x0, x1, x2, x3)], the feet point the
    same on [((x0 + x2) / 2, x3)]. *)
Theorem head_and_feet_points_come_from_the_box
    (calib : nn.Linear) (boxes : tensor R) (L B Q : nat) (g : bool) :
  nn.in_features calib = 2%nat -> nn.out_features calib = 2%nat ->
  shape boxes = [L; B; Q; 4%nat] ->
  exists head_bev feet_bev,
    DETR.head_feet_bev calib boxes g = Ok (head_bev, feet_bev) /\
    shape head_bev = [L; B; Q; 2%nat] /\
    shape feet_bev = [L; B; Q; 2%nat] /\
    data head_bev
    = flat_map (head_point calib (data boxes)) (seq 0 (L * B * Q)) /\
    data feet_bev
    = flat_map (feet_point calib (data boxes)) (seq 0 (L * B * Q)).
Proof.
  intros Hin Hout Hs. unfold DETR.head_feet_bev.
  rewrite (bind_ok _ _ _ _ (select3_ok boxes L B Q 4 0 g Hs ltac:(lia))).
  rewrite (bind_ok _ _ _ _ (select3_ok boxes L B Q 4 2 g Hs ltac:(lia))).
  unfold torch.add, torch.binop. cbn [shape data requires_grad].
  rewrite decide_True by reflexivity.
  unfold bind at 1. unfold torch.mk at 1.
  unfold torch.div_scalar, torch.unop. cbn [shape data requires_grad].
  unfold bind at 1. unfold torch.mk at 1.
  rewrite (bind_ok _ _ _ _ (select3_ok boxes L B Q 4 1 g Hs ltac:(lia))).
  set (d := data boxes).
  assert (map (fun x => x / 2)%R
            (zip_with Rplus
               (map (fun q => nth (q * 4 + 0) d 0%R) (seq 0 (L * B * Q)))
               (map (fun q => nth (q * 4 + 2) d 0%R) (seq 0 (L * B * Q))))
          = map (fun q => (nth (q * 4) d 0 + nth (q * 4 + 2) d 0) / 2)%R
                (seq 0 (L * B * Q))) as ->.
  { generalize (seq 0 (L * B * Q)). intros l.
    induction l as [|q l IH]; [reflexivity|]. cbn [map zip_with].
    rewrite IH, Nat.add_0_r. reflexivity. }
  rewrite (bind_ok _ _ _ _ (stack3_ok L B Q _ _ _ _ g)).
  rewrite (bind_ok _ _ _ _ (select3_ok boxes L B Q 4 3 g Hs ltac:(lia))).
  rewrite (bind_ok _ _ _ _ (stack3_ok L B Q _ _ _ _ g)).
  rewrite <- bind_assoc.
  rewrite (bind_ok _ _ _ _ (calibrated_points calib L B Q _ _ _ g Hin)).
  rewrite <- bind_assoc.
  rewrite (bind_ok _ _ _ _ (calibrated_points calib L B Q _ _ _ g Hin)).
  unfold ret. eexists _, _. split; [reflexivity|].
  cbn [shape data]. rewrite Hout. repeat split.
Qed.

(** One layer, one image and one query, with the identity as calibration
    layer. *)
Lemma head_and_feet_points_come_from_the_box_witness :
  exists head_bev feet_bev,
    DETR.head_feet_bev (nn.new_Linear ([1; 0; 0; 1]%R, [0; 0]%R) 2 2)
      (Tensor [1; 1; 1; 4]%nat [1; 2; 3; 4]%R true) true
    = Ok (head_bev, feet_bev) /\
    shape head_bev = [1; 1; 1; 2]%nat /\
    shape feet_bev = [1; 1; 1; 2]%nat /\
    data head_bev
    = flat_map (head_point (nn.new_Linear ([1; 0; 0; 1]%R, [0; 0]%R) 2 2)
                  [1; 2; 3; 4]%R) (seq 0 (1 * 1 * 1)) /\
    data feet_bev
    = flat_map (feet_point (nn.new_Linear ([1; 0; 0; 1]%R, [0; 0]%R) 2 2)
                  [1; 2; 3; 4]%R) (seq 0 (1 * 1 * 1)).
Proof.
  exact (head_and_feet_points_come_from_the_box
           (nn.new_Linear ([1; 0; 0; 1]%R, [0; 0]%R) 2 2)
           (Tensor [1; 1; 1; 4]%nat [1; 2; 3; 4]%R true) 1 1 1 true
           eq_refl eq_refl eq_refl).
Defined.
